(** * CardiacStrain: the strain pipeline of [CardiacStrainLogic]

    A shallow embedding of [src/CardiacStrain/Logic/CardiacStrainLogic.py].
    numpy's [float64] is Rocq's primitive binary64 [float]; the cache is the
    Python dict [self._cache]; raised exceptions are values of [exn] and a
    call that raises keeps the mutations it made before raising. *)

From Stdlib Require Import ZArith Floats.
From stdpp Require Import gmap strings list.

Set Default Proof Using "Type".

(** ** Python values and exceptions *)

Module Py.

Inductive exn :=
| KeyError (k : string + string * string)  (* lookup of a missing dict key *)
| IndexError                    (* index out of range *)
| AttributeError                (* method call on [None] *)
| ValueError                    (* [int] of a non-number, numpy shape errors *)
| TypeError                     (* value of the wrong kind *)
| External (what : string).     (* raised inside keras, SimpleITK, scipy *)

(** Outcome of a call: the exception raised, or the value returned. *)
Definition res (A : Type) : Type := exn + A.

Definition res_bind {A B} (r : res A) (k : A -> res B) : res B :=
  match r with
  | inl e => inl e
  | inr a => k a
  end.

(** [a[i]] for [0 <= i]. *)
Definition item {A} (a : list A) (i : nat) : res A :=
  from_option inr (inl IndexError) (a !! i).

(** [a[lo:hi]] with Python's treatment of negative and out-of-range bounds. *)
Definition slice {A} (lo hi : Z) (a : list A) : list A :=
  let n := Z.of_nat (length a) in
  let clamp (i : Z) := Z.to_nat (Z.min n (Z.max 0 (if (i <? 0)%Z then i + n else i))) in
  take (clamp hi - clamp lo) (drop (clamp lo) a).

(** [int(round(x))] of a finite [float]: to the nearest integer, ties to the
    even one. *)
Definition round (x : float) : res Z :=
  match Prim2SF x with
  | S754_zero _ => inr 0%Z
  | S754_finite s m e =>
      let v := if (0 <=? e)%Z then (Z.pos m * 2 ^ e)%Z
               else let d := (2 ^ (- e))%Z in
                    let q := (Z.pos m / d)%Z in
                    let r := (2 * (Z.pos m mod d))%Z in
                    if (r <? d)%Z then q
                    else if (d <? r)%Z then (q + 1)%Z
                    else if Z.even q then q else (q + 1)%Z in
      inr (if s then (- v)%Z else v)
  | S754_nan | S754_infinity _ => inl ValueError
  end.

End Py.

Abbreviation Raise e := (inl e) (only parsing).
Abbreviation Ok a := (inr a) (only parsing).

(** ** numpy and scipy on [float64] lists *)

Module Np.
Local Open Scope float_scope.

#[global] Instance float_inhabited : Inhabited float := populate 0.

(** Conversion of a Python [int] to [float64] (exact below 2^53). *)
Definition of_Z (z : Z) : float :=
  if (z <? 0)%Z then - of_uint63 (Uint63.of_Z (- z)) else of_uint63 (Uint63.of_Z z).
Definition of_nat (n : nat) : float := of_Z (Z.of_nat n).

(** Neither NaN nor an infinity. *)
Definition finite (x : float) : bool :=
  match Prim2SF x with
  | S754_zero _ | S754_finite _ _ _ => true
  | S754_nan | S754_infinity _ => false
  end.

(** [a.sum()] of a 1-D array, added from left to right (numpy adds long
    arrays pairwise, which changes the rounding only). *)
Definition sum (a : list float) : float := fold_left add a 0.

(** [a.mean()] of a 1-D array: the sum over the count; NaN on an empty one. *)
Definition mean (a : list float) : float := sum a / of_nat (length a).

(** [a.mean(axis=0)] of a 2-D array of the given width: the rows are added
    one after the other onto the first, then divided by their number. *)
Definition mean_axis0 (width : nat) (a : list (list float)) : list float :=
  let total := match a with
               | [] => replicate width 0
               | r :: rs => fold_left (zip_with add) rs r
               end in
  map (fun x => x / of_nat (length a)) total.

(** [np.gradient(f, axis=0)] of a 1-D array, unit spacing, first-order
    edges; [None] is the [ValueError] for fewer than two samples. *)
Definition gradient (f : list float) : option (list float) :=
  let n := length f in
  if (n <? 2)%nat then None else
  Some ([(f !!! 1%nat - f !!! 0%nat) / 1]
        ++ map (fun i => (f !!! (i + 1)%nat - f !!! (i - 1)%nat) / 2) (seq 1 (n - 2))
        ++ [(f !!! (n - 1)%nat - f !!! (n - 2)%nat) / 1]).

(** Index into a line of length [n] extended by [mode='reflect']
    ([d c b a | a b c d | d c b a]). *)
Definition reflect (n : nat) (i : Z) : nat :=
  let m := (i mod (2 * Z.of_nat n))%Z in
  Z.to_nat (if (m <? Z.of_nat n)%Z then m else 2 * Z.of_nat n - 1 - m)%Z.

(** [scipy.ndimage.convolve1d(x, np.ones(4) / 4)] along one line: four equal
    weights [w], origin shifted for the even length, [mode='reflect'];
    sample [l] averages [x[l-1], x[l], x[l+1], x[l+2]]. *)
Definition convolve1d_4 (w : float) (x : list float) : list float :=
  let n := length x in
  let at_ (i : Z) := x !!! reflect n i in
  map (fun l => let l := Z.of_nat l in
         at_ (l + 2)%Z * w + at_ (l - 1)%Z * w + at_ l * w + at_ (l + 1)%Z * w)
      (seq 0 n).

(** [np.argmax] of a non-empty 1-D array: the first index of the maximum. *)
Fixpoint argmax_from (i best : nat) (bestv : Z) (a : list Z) : nat :=
  match a with
  | [] => best
  | v :: a' => if (bestv <? v)%Z then argmax_from (S i) i v a'
               else argmax_from (S i) best bestv a'
  end.
Definition argmax (a : list Z) : option nat :=
  match a with
  | [] => None
  | v :: a' => Some (argmax_from 1 0 v a')
  end.

End Np.

(** ** Orientation, region of interest and centroids (lines 132-146, 268-311) *)

Module Geometry.
Import Py.

(** A labelled volume [segArray[z][y][x]] and a mask of the same layout. *)
Definition volume : Type := list (list (list Z)).
Definition mask : Type := list (list (list bool)).

(** [segArray == label] *)
Definition eq_label (label : Z) (segArray : volume) : mask :=
  map (map (map (fun v => (v =? label)%Z))) segArray.

(** [m.sum()] of a 2-D mask and [m.sum(axis=(1, 2))] of a 3-D one. *)
Definition npixels (m : list (list bool)) : nat :=
  sum_list_with (sum_list_with (fun b : bool => if b then 1 else 0)) m.
Definition sum_12 (m : mask) : list Z := map (fun sl => Z.of_nat (npixels sl)) m.

(** [maxRv = np.argmax((segArray == rvLabel).sum(axis=(1, 2)))]
    (lines 142 and 299); [argmax] of an empty array is a [ValueError]. *)
Definition maxRv (segArray : volume) (rvLabel : Z) : res nat :=
  from_option inr (Raise ValueError) (Np.argmax (sum_12 (eq_label rvLabel segArray))).

(** Line 143 of [getLocalCoords]: [isInverted = maxRv < segArray.shape[0] // 2],
    on the array of the resampled segmentation. *)
Definition getLocalCoords_isInverted (segArray : volume) (rvLabel : Z) : res bool :=
  res_bind (maxRv segArray rvLabel) (fun m => Ok (m <? length segArray / 2)%nat).

(** Line 146 of [getLocalCoords]: the longitudinal axis [c_l] written to
    every myocardial voxel, [[0, 0, -1 if isInverted else 1]]. *)
Definition getLocalCoords_c_l (segArray : volume) (rvLabel : Z) : res (list Z) :=
  res_bind (getLocalCoords_isInverted segArray rvLabel)
    (fun isInverted => Ok [0; 0; if isInverted then -1 else 1]%Z).

(** Line 300 of [_lvCenter]: [isInverted = maxRv > segArray.shape[0] // 2]. *)
Definition _lvCenter_isInverted (segArray : volume) (rvLabel : Z) : res bool :=
  res_bind (maxRv segArray rvLabel) (fun m => Ok (length segArray / 2 <? m)%nat).

(** [_cropROI] (lines 268-271) on the [[z][y][x]] layout: the callers
    transpose to [[x][y][z]] before and back after; [center] is
    [(cx, cy)] after [astype(int)]. *)
Definition _cropROI {A} (img : list (list (list A))) (center size : Z * Z)
    : list (list (list A)) :=
  let '(sx, sy) := size in
  let '(cx, cy) := center in
  map (fun sl => map (slice (cx - sx / 2) (cx + sx / 2))
                     (slice (cy - sy / 2) (cy + sy / 2) sl)) img.

Section LvCenter.
(** scipy's [center_of_mass]: of a volume, as [(cx, cy)] after
    [astype(int)]; of a slice, as [(y, x)]. *)
Context (center_int : mask -> Z * Z)
        (center_of_mass : list (list bool) -> float * float).

(** The loop of lines 304-309, from the last slice down to the first. *)
Fixpoint lvCenter_loop (by_slice : bool) (zs : list nat) (myo : mask)
    (cm : float * float) (lvCenter : list (nat * (float * float)))
    : list (nat * (float * float)) :=
  match zs with
  | [] => lvCenter
  | z :: zs' =>
      let sl := myo !!! z in
      if (0 <? npixels sl)%nat then
        let cm := if by_slice then center_of_mass sl else cm in
        lvCenter_loop by_slice zs' myo cm (lvCenter ++ [(z, cm)])
      else lvCenter_loop by_slice zs' myo cm lvCenter
  end.

(** [_lvCenter] (lines 292-311): rows [(z, y, x)] of the slices that hold
    myocardium. *)
Definition _lvCenter (segArray : volume) (myoLabel rvLabel : Z) (by_slice : bool)
    : res (list (nat * (float * float))) :=
  let myo := eq_label myoLabel segArray in
  let center := center_int myo in
  let myo := _cropROI myo center (128, 128)%Z in
  res_bind (_lvCenter_isInverted segArray rvLabel) (fun isInverted =>
  res_bind (round (Np.of_nat (length myo) / 2)) (fun mid =>
  res_bind (item myo (Z.to_nat mid)) (fun sl_mid =>
  let cm := center_of_mass sl_mid in
  let lvCenter := lvCenter_loop by_slice (rev (seq 0 (length myo))) myo cm [] in
  if isInverted then
    match lvCenter with
    | [] => Raise IndexError
    | _ => Ok (rev lvCenter)
    end
  else Ok lvCenter))).

End LvCenter.

(** [_getOrientation] (lines 278-282) on the [[z]...] layout: [V] and [M]
    are indexed by slice first, and [V[:, :, ::-1]] reverses the slices. *)
Definition _getOrientation {A} (V : list A) (M : volume) (rvLabel : Z)
    : res (list A) :=
  res_bind (maxRv M rvLabel) (fun m =>
    Ok (if (length M / 2 <? m)%nat then rev V else V)).

(** Lines 149-152 of [getLocalCoords] for one voxel, [yx] being its [(y, x)]
    minus the centroid of the slice: an offset whose absolute values add up
    to zero is moved by 0.1 (line 150), [c_r] is the offset over its
    [np.linalg.norm], negated (line 151), and [c_c] is [(c_r[1], -c_r[0])]
    (line 152). *)
Definition yx_fix (yx : float * float) : float * float :=
  if (abs yx.1 + abs yx.2 =? 0)%float
  then (yx.1 + 0x1.999999999999ap-4, yx.2 + 0x1.999999999999ap-4)%float
  else yx.
Definition norm (v : float * float) : float :=
  sqrt (v.1 * v.1 + v.2 * v.2)%float.
Definition c_r (yx : float * float) : float * float :=
  let yx := yx_fix yx in
  (- (yx.1 / norm yx), - (yx.2 / norm yx))%float.
Definition c_c (yx : float * float) : float * float :=
  ((c_r yx).2, (- (c_r yx).1)%float).

(** [(segArray == rvLabel).sum(axis=(1, 2))[z]], when slice [z] exists. *)
Definition rv_count (segArray : volume) (rvLabel : Z) (z : nat) : option nat :=
  (fun sl => npixels (map (map (fun v => (v =? rvLabel)%Z)) sl)) <$> segArray !! z.

End Geometry.

(** ** The AHA 17-segment classifier (lines 313-369) *)

Module AHA.
Import Py Geometry.
Local Open Scope float_scope.

(** [ahaLv[z][y][x]], an array of [uint8]. *)
Definition labelmap : Type := list (list (list Z)).

(** [np.where(myo)]: the indices [(z, y, x)] of the set voxels, in C order. *)
Definition where1 (row : list bool) : list nat :=
  omap id (imap (fun x (b : bool) => if b then Some x else None) row).
Definition where3 (myo : mask) : list (nat * nat * nat) :=
  concat (imap (fun z sl =>
    concat (imap (fun y row => map (fun x => (z, y, x)) (where1 row)) sl)) myo).

(** [ahaLv[z, y, x] = v] *)
Definition set3 (v : Z) (ahaLv : labelmap) (p : nat * nat * nat) : labelmap :=
  let '(z, y, x) := p in alter (alter (<[x := v]>) y) z ahaLv.

(** [ahaLv[z, y, x]] *)
Definition get3 (ahaLv : labelmap) (p : nat * nat * nat) : option Z :=
  let '(z, y, x) := p in sl ← ahaLv !! z; row ← sl !! y; row !! x.

(** [range(a, b)] *)
Definition range (a b : Z) : list Z :=
  map (fun i => (a + Z.of_nat i)%Z) (seq 0 (Z.to_nat (b - a))).

Definition anglesBaseMid : list (Z * Z) :=
  [(-120, -60); (-180, -120); (120, 180); (60, 120); (0, 60); (-60, 0)]%Z.
Definition anglesAppex : list (Z * Z) :=
  [(-135, -45); (135, 180); (45, 135); (-45, 45)]%Z.

(** [zBase] and [zMid] (lines 321-322) for [n = lvCenter.shape[0]]. *)
Definition zBase (n : nat) : res Z := round (Np.of_nat n * 0x1.6666666666666p-2).
Definition zMid (n : nat) : res Z := round (Np.of_nat n * 0x1.6666666666666p-1).

(** The choice of lines 340-345 for the slice at position [idz]. *)
Definition slice_sectors (zBase zMid idz : Z) : list Z * list (Z * Z) :=
  if (idz <? zBase)%Z then (range 1 7, anglesBaseMid)
  else if (zBase <? idz)%Z && (idz <? zMid)%Z then (range 7 13, anglesBaseMid)
  else (range 13 17, anglesAppex).

(** [(lo <= ang) & (ang <= hi)] (lines 348 and 351) *)
Definition in_limits (lo hi : Z) (ang : float) : bool :=
  (Np.of_Z lo <=? ang) && (ang <=? Np.of_Z hi).

(** The loop of lines 347-352 as it acts on one voxel of angle [ang] whose
    label is [lab]: every sector that holds the angle overwrites the label. *)
Fixpoint sector_label (ahaSegs : list Z) (anglesLimits : list (Z * Z))
    (ang : float) (lab : Z) : Z :=
  match ahaSegs, anglesLimits with
  | ahaSeg :: ahaSegs', (lo, hi) :: anglesLimits' =>
      let lab := if in_limits lo hi ang then ahaSeg else lab in
      let lab := if (lo =? 135)%Z && in_limits (-180) (-135) ang
                 then ahaSeg else lab in
      sector_label ahaSegs' anglesLimits' ang lab
  | _, _ => lab
  end.

(** The test of lines 348-351 for one sector. *)
Definition holds (lim : Z * Z) (ang : float) : bool :=
  in_limits lim.1 lim.2 ang
  || ((lim.1 =? 135)%Z && in_limits (-180) (-135) ang).

(** The labels of the listed sectors that hold the angle, in list order. *)
Definition holding (ahaSegs : list Z) (anglesLimits : list (Z * Z))
    (ang : float) : list Z :=
  omap (fun sl : Z * (Z * Z) => if holds sl.2 ang then Some sl.1 else None)
       (zip ahaSegs anglesLimits).

(** [ahaLv[z_idx[ids], y_i[ids], x_i[ids]] = ahaSeg] *)
Definition assign (ahaSeg : Z) (vox : list (nat * nat * nat)) (ids : list bool)
    (ahaLv : labelmap) : labelmap :=
  fold_left (fun (a : labelmap) (pb : nat * nat * nat * bool) =>
               if pb.2 then set3 ahaSeg a pb.1 else a) (zip vox ids) ahaLv.

(** The loop of lines 347-352 on the voxels [vox] of one slice. *)
Fixpoint sectors_loop (ahaSegs : list Z) (anglesLimits : list (Z * Z))
    (vox : list (nat * nat * nat)) (ang : list float) (ahaLv : labelmap)
    : labelmap :=
  match ahaSegs, anglesLimits with
  | ahaSeg :: ahaSegs', (lo, hi) :: anglesLimits' =>
      let ahaLv := assign ahaSeg vox (map (in_limits lo hi) ang) ahaLv in
      let ahaLv := if (lo =? 135)%Z
                   then assign ahaSeg vox (map (in_limits (-180) (-135)) ang) ahaLv
                   else ahaLv in
      sectors_loop ahaSegs' anglesLimits' vox ang ahaLv
  | _, _ => ahaLv
  end.

Section Classifier.
(** Lines 317-319 and 337-339 (numpy's linear algebra and [arctan2]): the
    angle in degrees of the voxel [(y, x)] about the slice centroid, measured
    from the direction [rv2lv]. *)
Context (angle : float * float -> float * float -> nat * nat -> float).

(** One pass of the loop of lines 334-352. *)
Definition slice_step (rv2lv : float * float) (zBase zMid : Z)
    (vox : list (nat * nat * nat)) (ahaLv : labelmap)
    (idz : nat) (c : nat * (float * float)) : labelmap :=
  let vox_i := filter (fun p : nat * nat * nat => p.1.1 = c.1) vox in
  let ang := map (fun p : nat * nat * nat => angle rv2lv c.2 (p.1.2, p.2)) vox_i in
  let '(ahaSegs, anglesLimits) := slice_sectors zBase zMid (Z.of_nat idz) in
  sectors_loop ahaSegs anglesLimits vox_i ang ahaLv.

(** [_add16segments] (lines 313-352); [rvPoint] is [(z, y, x)]. *)
Definition _add16segments (myo : mask) (lvCenter : list (nat * (float * float)))
    (rvPoint : float * float * float) (ahaLv : labelmap) : res labelmap :=
  res_bind (item lvCenter 0) (fun c0 =>
  let rv2lv := (c0.2.1 - rvPoint.1.2, c0.2.2 - rvPoint.2) in
  let vox := where3 myo in
  res_bind (zBase (length lvCenter)) (fun zBase =>
  res_bind (zMid (length lvCenter)) (fun zMid =>
  Ok (fold_left (fun (a : labelmap) (ic : nat * (nat * (float * float))) =>
                  slice_step rv2lv zBase zMid vox a ic.1 ic.2)
        (imap (fun idz c => (idz, c)) lvCenter) ahaLv)))).

End Classifier.

(** scipy's [binary_fill_holes] of a 2-D mask with the default structure:
    the background reached from outside the image through 4-neighbours stays
    background, everything else is set. *)
Definition pixel (m : list (list bool)) (outside : bool) (y x : Z) : bool :=
  if (y <? 0)%Z || (x <? 0)%Z then outside
  else from_option id outside (row ← m !! Z.to_nat y; row !! Z.to_nat x).
Definition flood_step (background reached : list (list bool)) : list (list bool) :=
  imap (fun y row => imap (fun x (b : bool) =>
    let y := Z.of_nat y in let x := Z.of_nat x in
    b && (pixel reached true y x || pixel reached true (y - 1) x
          || pixel reached true (y + 1) x || pixel reached true y (x - 1)
          || pixel reached true y (x + 1))) row) background.
Definition binary_fill_holes (input : list (list bool)) : list (list bool) :=
  let background := map (map negb) input in
  let start := map (map (fun _ => false)) input in
  let n := (length input * length (input !!! 0%nat))%nat in
  map (map negb) (Nat.iter n (flood_step background) start).

(** The first index of a set entry: [np.where(z)[0][0]]. *)
Fixpoint first_true (z : list bool) : option nat :=
  match z with
  | [] => None
  | b :: z' => if b then Some 0%nat else S <$> first_true z'
  end.

Section Segment17.
Context (fill_holes : list (list bool) -> list (list bool)).

(** [Iendo] (lines 355-362): the filled mask minus the mask, as [int8]. *)
Definition Iendo (myo : mask) : list (list (list Z)) :=
  map (fun sl => zip_with (zip_with (fun f m => (Z.b2z f - Z.b2z m)%Z))
                   (fill_holes sl) sl) myo.

(** [np.any(a, axis=(1, 2))] *)
Definition any_12 {A} (nonzero : A -> bool) (a : list (list (list A))) : list bool :=
  map (existsb (existsb nonzero)) a.

(** [_add17segment] (lines 354-369) *)
Definition _add17segment (myo : mask) (ahaLv : labelmap) : res labelmap :=
  let Iendo := Iendo myo in
  res_bind (from_option inr (Raise IndexError)
              (first_true (any_12 (fun v => negb (v =? 0)%Z) Iendo))) (fun zmin_endo =>
  let Iendo_minz := Iendo !!! zmin_endo in
  res_bind (from_option inr (Raise IndexError)
              (first_true (any_12 id myo))) (fun zmin_myo =>
  let cap := map (map (fun v => (17 * Z.b2z (0 <? v))%Z)) Iendo_minz in
  Ok (fold_left (fun a z => <[z := cap]> a)
        (seq zmin_myo (zmin_endo - zmin_myo)) ahaLv))).

End Segment17.

(** Whether the boundaries of lines 321-322 for [n] slices are ordered, at
    most [n], and the nearest integers to 35% and 70% of [n]. *)
Definition boundaries_ok (n : nat) : bool :=
  match zBase n, zMid n with
  | inr zB, inr zM =>
      (0 <=? zB)%Z && (zB <=? zM)%Z && (zM <=? Z.of_nat n)%Z
      && (Z.abs (20 * zB - 7 * Z.of_nat n) <=? 10)%Z
      && (Z.abs (10 * zM - 7 * Z.of_nat n) <=? 5)%Z
  | _, _ => false
  end.

End AHA.

(** ** Aggregation and temporal post-processing of [getStrain] (lines 172-238) *)

Module Strain.
Local Open Scope float_scope.

(** A voxel with [ahaModel > 0] in one frame: its AHA label and the
    projections [iec], [ier], [iel] of the strain tensor on its local axes
    (lines 179-210, numpy's gradient and dot products). *)
Record voxel := { aha : Z; iec : float; ier : float; iel : float }.

(** The voxels of one frame, in the order of [np.where(ahaModel > 0)]. *)
Definition frame : Type := list voxel.

Definition matrix : Type := list (list float).

(** Lines 212-219 for one direction [e] and one frame: the 17 segment means
    and the global mean, in percent. *)
Definition column (e : voxel -> float) (f : frame) : list float :=
  map (fun j => Np.mean (map e (filter (fun v => aha v = (Z.of_nat j + 1)%Z) f)) * 100)
      (seq 0 17)
  ++ [0 + Np.mean (map e f) * 100].

(** The accumulated matrix of lines 174-219: 18 rows, one column per frame
    and a last column that stays zero. *)
Definition accum (e : voxel -> float) (motion : list frame) : matrix :=
  map (fun j => map (fun f => column e f !!! j) motion ++ [0]) (seq 0 18).

(** Line 221: [convolve1d(a, np.ones(4) / 4, axis=1)]. *)
Definition smooth (a : matrix) : matrix := map (Np.convolve1d_4 0.25) a.

(** Line 224: [a[:, 0] = 0]. *)
Definition zero_first (a : matrix) : matrix := map (fun row => <[0%nat := 0]> row) a.

(** The slope of the ramp of one row, lines 226-232: [a[:, -1] / len(motion)]. *)
Definition slope (T : nat) (row : list float) : float :=
  row !!! (length row - 1)%nat / Np.of_nat T.

(** Lines 234-236: [a - m[:, np.newaxis] * np.arange(len(motion) + 1)]. *)
Definition drift (T : nat) (a : matrix) : matrix :=
  map (fun row => imap (fun i x => x - slope T row * Np.of_nat i) row) a.

(** Lines 221-236 for one matrix. *)
Definition postprocess (T : nat) (a : matrix) : matrix :=
  drift T (zero_first (smooth a)).

(** [getStrain] (lines 172-238) from the projected strains of each frame:
    the matrices [(ier_accum, iec_accum, iel_accum)]. *)
Definition getStrain (motion : list frame) : matrix * matrix * matrix :=
  let T := length motion in
  (postprocess T (accum ier motion),
   postprocess T (accum iec motion),
   postprocess T (accum iel motion)).

(** The matrix of direction [e] after lines 221-224: smoothed, with its
    first column set to zero. *)
Definition smoothed (e : voxel -> float) (motion : list frame) : matrix :=
  zero_first (smooth (accum e motion)).

(** Lines 226-228, [iern = ier_accum[:, -1]], and lines 230-232,
    [mr = iern / len(motion)]. *)
Definition endpoints (e : voxel -> float) (motion : list frame) : list float :=
  map (fun row => row !!! (length row - 1)%nat) (smoothed e motion).
Definition slopes (e : voxel -> float) (motion : list frame) : list float :=
  map (fun x => x / Np.of_nat (length motion)) (endpoints e motion).

(** [a[j, i]] *)
Definition at2 (a : matrix) (j i : nat) : option float :=
  row ← a !! j; row !! i.

End Strain.

(** ** The computation cache and the pipeline (lines 28-130, 240-251) *)

Module Pipeline.
Import Py.
Local Open Scope string_scope.

(** Keys of [self._cache]: the string ["model"] or a tuple [(kind, seqId)]. *)
Definition key : Type := string + string * string.
Definition kModel : key := inl "model".
Definition kArt (kind seqId : string) : key := inr (kind, seqId).

(** A [StrainCurve] matrix: 18 rows of [T+1] samples. *)
Definition matrix : Type := list (list float).

(** A sequence node: its identity and its data nodes, one volume per frame. *)
Record Sequence (Volume : Type) := { GetID : string; dataNodes : list Volume }.
Arguments GetID {Volume} _.
Arguments dataNodes {Volume} _.

(** The external collaborators and the stages of the pipeline as the
    pipeline sees them: each call returns or raises. *)
Class Stages := {
  Model : Type;
  Volume : Type;
  Segmentation : Type;
  Field : Type;
  Aha : Type;
  Coords : Type;
  (** [int(s)] *)
  py_int : string -> res Z;
  (** [keras.models.load_model(self.modelPath)] *)
  load_model : res Model;
  (** lines 107-120: the frames [V[..., t]] after resampling, cropping,
      orientation and normalisation *)
  preprocess : Sequence Volume -> Segmentation -> Z -> Z -> res (list Volume);
  (** lines 126-129: the motion model on [V_0, V_t], smoothed *)
  motionModel : Model -> Volume -> Volume -> res Field;
  getLocalCoords : Segmentation -> Z -> Z -> res Coords;
  getAhaModel : Segmentation -> Z -> Z -> res Aha;
  getStrain : list Field -> Aha -> Coords -> res (matrix * matrix * matrix) }.

Section Logic.
Context `{Stages}.

(** Values stored in the cache. *)
Inductive artifact :=
| VModel (m : Model)
| VMotion (motion : list Field)
| VAha (ahaModel : Aha) (localCoords : Coords)
| VStrain (ier iec iel : matrix).

(** The parameter node: two node references and four string parameters. *)
Record ParameterNode := {
  ImgSequence : option (Sequence Volume);
  SegSequence : option Segmentation;
  MyoLabel : string;
  RVLabel : string;
  Status : string;
  hasStrain : string }.

(** The logic object.  [modelLoads] and [estimatorCalls] are the counters of
    an instrumented stub: completed [load_model] calls and calls of the
    motion model. *)
Record Logic := {
  cache : gmap key artifact;
  node : ParameterNode;
  modelLoads : nat;
  estimatorCalls : nat }.

Definition M (A : Type) : Type := Logic -> res A * Logic.
Definition ret {A} (a : A) : M A := fun s => (Ok a, s).
Definition raise {A} (e : exn) : M A := fun s => (Raise e, s).
Definition bind {A B} (m : M A) (k : A -> M B) : M B :=
  fun s => match m s with
           | (Raise e, s') => (Raise e, s')
           | (Ok a, s') => k a s'
           end.
Definition lift {A} (r : res A) : M A := fun s => (r, s).
Definition gets {A} (f : Logic -> A) : M A := fun s => (Ok (f s), s).
Definition modify (f : Logic -> Logic) : M unit := fun s => (Ok tt, f s).

Notation "x <- m ;; k" := (bind m (fun x => k))
  (at level 100, m at next level, right associativity).
Notation "m ;;; k" := (bind m (fun _ => k))
  (at level 100, right associativity).

Definition set_cache (k : key) (v : artifact) : M unit :=
  modify (fun s => {| cache := <[k := v]> (cache s); node := node s;
                      modelLoads := modelLoads s;
                      estimatorCalls := estimatorCalls s |}).

(** [self._cache[k]] *)
Definition cache_item (k : key) : M artifact :=
  fun s => match cache s !! k with
           | Some v => (Ok v, s)
           | None => (Raise (KeyError k), s)
           end.

Definition SetParameter (f : ParameterNode -> ParameterNode) : M unit :=
  modify (fun s => {| cache := cache s; node := f (node s);
                      modelLoads := modelLoads s;
                      estimatorCalls := estimatorCalls s |}).

Definition set_Status (text : string) (n : ParameterNode) : ParameterNode :=
  {| ImgSequence := ImgSequence n; SegSequence := SegSequence n;
     MyoLabel := MyoLabel n; RVLabel := RVLabel n;
     Status := text; hasStrain := hasStrain n |}.

Definition set_hasStrain (text : string) (n : ParameterNode) : ParameterNode :=
  {| ImgSequence := ImgSequence n; SegSequence := SegSequence n;
     MyoLabel := MyoLabel n; RVLabel := RVLabel n;
     Status := Status n; hasStrain := text |}.

(** [_set_status] (lines 253-255) *)
Definition _set_status (text : string) : M unit :=
  SetParameter (set_Status text).

Definition count_load : M unit :=
  modify (fun s => {| cache := cache s; node := node s;
                      modelLoads := S (modelLoads s);
                      estimatorCalls := estimatorCalls s |}).

Definition count_call : M unit :=
  modify (fun s => {| cache := cache s; node := node s;
                      modelLoads := modelLoads s;
                      estimatorCalls := S (estimatorCalls s) |}).

(** The frame loop of [getMotion] (lines 122-129). *)
Fixpoint motion_loop (motionModel_ : Model) (V : list Volume)
    (ts : list nat) (motion : list Field) : M (list Field) :=
  match ts with
  | [] => ret motion
  | t :: ts' =>
      V_0 <- lift (item V 0) ;;
      V_t <- lift (item V t) ;;
      count_call ;;;
      df <- lift (motionModel motionModel_ V_0 V_t) ;;
      motion_loop motionModel_ V ts' (motion ++ [df])%list
  end.

(** [getMotion] (lines 102-130); [sequence] and [segmentation] are the
    referenced nodes, [None] for an unset reference. *)
Definition getMotion (sequence : option (Sequence Volume))
    (segmentation : option Segmentation) (rvLabel myoLabel : Z)
    : M (list Field) :=
  c <- gets cache ;;
  (match c !! kModel with
   | None => m <- lift load_model ;; count_load ;;; set_cache kModel (VModel m)
   | Some _ => ret tt
   end) ;;;
  v <- cache_item kModel ;;
  motionModel_ <- lift (match v with VModel m => Ok m | _ => Raise TypeError end) ;;
  seg <- lift (from_option inr (Raise AttributeError) segmentation) ;;
  sq <- lift (from_option inr (Raise AttributeError) sequence) ;;
  V <- lift (preprocess sq seg rvLabel myoLabel) ;;
  motion_loop motionModel_ V (seq 0 (length (dataNodes sq))) [].

(** [runStrainPipeline] (lines 78-100) *)
Definition runStrainPipeline : M artifact :=
  n <- gets node ;;
  let sequence := ImgSequence n in
  let segmentation := SegSequence n in
  myoLabel <- lift (py_int (MyoLabel n)) ;;
  rvLabel <- lift (py_int (RVLabel n)) ;;
  sq <- lift (from_option inr (Raise AttributeError) sequence) ;;
  let seqId := GetID sq in
  c <- gets cache ;;
  (match c !! kArt "strain" seqId with
   | Some _ => ret tt
   | None =>
       _set_status "Measuring Motion" ;;;
       motion <- getMotion sequence segmentation rvLabel myoLabel ;;
       set_cache (kArt "motion" seqId) (VMotion motion) ;;;
       _set_status "Analyzing strain" ;;;
       seg <- lift (from_option inr (Raise AttributeError) segmentation) ;;
       localCoords <- lift (getLocalCoords seg myoLabel rvLabel) ;;
       ahaModel <- lift (getAhaModel seg myoLabel rvLabel) ;;
       set_cache (kArt "aha" seqId) (VAha ahaModel localCoords) ;;;
       strain <- lift (getStrain motion ahaModel localCoords) ;;
       set_cache (kArt "strain" seqId)
         (VStrain strain.1.1 strain.1.2 strain.2) ;;;
       _set_status "Ready for plotting" ;;;
       SetParameter (set_hasStrain "True")
   end) ;;;
  cache_item (kArt "strain" seqId).

(** [s[0]] of a Python [str]. *)
Definition str_first (s : string) : res string :=
  match s with
  | EmptyString => Raise IndexError
  | String c _ => Ok (String c EmptyString)
  end.

(** [sub in s] on Python strings. *)
Fixpoint str_contains (sub s : string) : bool :=
  String.prefix sub s ||
  match s with
  | EmptyString => false
  | String _ s' => str_contains sub s'
  end.

(** [d[k]] for a literal dict with string keys. *)
Fixpoint dict_item {A} (d : list (string * A)) (k : string) : res A :=
  match d with
  | [] => Raise (KeyError (inl k))
  | (k', v) :: d' => if String.eqb k' k then Ok v else dict_item d' k
  end.

Definition directionIdxs : list (string * nat) := [("R", 0); ("C", 1); ("L", 2)]%nat.
Definition zones : list (string * (Z * Z)) :=
  [("G", (17, 17)); ("B", (0, 6)); ("M", (7, 13)); ("A", (13, 17))]%Z.

(** [getStrainSeries] (lines 240-247) *)
Definition getStrainSeries (direction kind zone : string) : M (list float) :=
  n <- gets node ;;
  sq <- lift (from_option inr (Raise AttributeError) (ImgSequence n)) ;;
  let seqId := GetID sq in
  v <- cache_item (kArt "strain" seqId) ;;
  d <- lift (str_first direction) ;;
  idx <- lift (dict_item directionIdxs d) ;;
  strain <- lift (match v, idx with
                  | VStrain ier _ _, 0%nat => Ok ier
                  | VStrain _ iec _, 1%nat => Ok iec
                  | VStrain _ _ iel, 2%nat => Ok iel
                  | VStrain _ _ _, _ => Raise IndexError
                  | _, _ => Raise TypeError
                  end) ;;
  z <- lift (str_first zone) ;;
  lo <- lift (dict_item zones z) ;;
  z' <- lift (str_first zone) ;;
  hi <- lift (dict_item zones z') ;;
  let strain := Np.mean_axis0 (length (strain !!! 0%nat))
                  (slice lo.1 (hi.2 + 1) strain) in
  if str_contains "Rate" kind
  then lift (from_option inr (Raise ValueError) (Np.gradient strain))
  else ret strain.

(** [getCalculatedResult] (lines 249-251): [dict.get] with default [None]. *)
Definition getCalculatedResult (key_ : string) : M (option artifact) :=
  n <- gets node ;;
  sq <- lift (from_option inr (Raise AttributeError) (ImgSequence n)) ;;
  c <- gets cache ;;
  ret (c !! kArt key_ (GetID sq)).

(** [__init__] and [setDefaultParameters] (lines 29-42). *)
Definition init : Logic :=
  {| cache := ∅;
     node := {| ImgSequence := None; SegSequence := None;
                MyoLabel := "2"; RVLabel := "1";
                Status := "Load images to start."; hasStrain := "False" |};
     modelLoads := 0; estimatorCalls := 0 |}.

Definition set_MyoLabel (text : string) (n : ParameterNode) : ParameterNode :=
  {| ImgSequence := ImgSequence n; SegSequence := SegSequence n;
     MyoLabel := text; RVLabel := RVLabel n;
     Status := Status n; hasStrain := hasStrain n |}.

Definition set_RVLabel (text : string) (n : ParameterNode) : ParameterNode :=
  {| ImgSequence := ImgSequence n; SegSequence := SegSequence n;
     MyoLabel := MyoLabel n; RVLabel := text;
     Status := Status n; hasStrain := hasStrain n |}.

(** [not s] for a Python [str]. *)
Definition str_not (s : string) : bool :=
  match s with EmptyString => true | String _ _ => false end.

(** [setDefaultParameters] (lines 34-42); [GetParameter] of a parameter
    that was never set is the empty string. *)
Definition setDefaultParameters (parameterNode : ParameterNode) : ParameterNode :=
  let n := parameterNode in
  let n := if str_not (Status n) then set_Status "Load images to start." n else n in
  let n := if str_not (MyoLabel n) then set_MyoLabel "2" n else n in
  let n := if str_not (RVLabel n) then set_RVLabel "1" n else n in
  if str_not (hasStrain n) then set_hasStrain "False" n else n.

(** The shape of a cache entry: the model under ["model"], and under
    [(kind, seqId)] the artifact of that kind (lines 88, 93, 96 and 104). *)
Definition entry_ok (k : key) (v : artifact) : Prop :=
  (k = kModel /\ exists m, v = VModel m) \/
  (exists id motion, k = kArt "motion" id /\ v = VMotion motion) \/
  (exists id ahaModel localCoords,
     k = kArt "aha" id /\ v = VAha ahaModel localCoords) \/
  (exists id ier iec iel, k = kArt "strain" id /\ v = VStrain ier iec iel).

(** What the widget does to the logic during the life of the process: it
    edits the parameter node and calls the three methods. *)
Inductive call :=
| CallSetNode (n : ParameterNode)
| CallRun
| CallSeries (direction kind zone : string)
| CallResult (key_ : string).

Definition exec (c : call) (s : Logic) : Logic :=
  match c with
  | CallSetNode n => {| cache := cache s; node := n; modelLoads := modelLoads s;
                        estimatorCalls := estimatorCalls s |}
  | CallRun => (runStrainPipeline s).2
  | CallSeries direction kind zone => (getStrainSeries direction kind zone s).2
  | CallResult key_ => (getCalculatedResult key_ s).2
  end.

(** The logic after the calls [cs], from its creation. *)
Definition lifetime (cs : list call) : Logic := fold_left (fun s c => exec c s) cs init.

End Logic.

End Pipeline.

(** ** The handlers of [CardiacStrainWidget] that query the logic *)

Module Widget.
Import Py Pipeline.
Local Open Scope string_scope.

Section Handlers.
Context `{Stages}.

(** What a handler did: the message box it showed, or the artifact it
    handed to [np.save] or [sitk.WriteImage] under the chosen file name. *)
Inductive outcome :=
| MessageBox (text : string)
| Saved (filename : string) (v : artifact).

(** [not x] for a result of [getCalculatedResult]: true of [None] and of an
    empty list of fields; tuples of arrays are never empty. *)
Definition py_not (x : option artifact) : bool :=
  match x with
  | None => true
  | Some (VMotion []) => true
  | Some _ => false
  end.

(** The body shared by [onSaveAha], [onSaveMotion] and [onSaveStrain]
    (lines 192-224); [filename] is the answer of the file dialog, which is
    asked only after the result was found. *)
Definition onSave (key_ filename : string) : M outcome :=
  bind (getCalculatedResult key_) (fun x =>
  match x with
  | Some v =>
      if py_not x then ret (MessageBox "Strain needs to be calculated first")
      else if str_not filename then ret (MessageBox "Select a file.")
      else ret (Saved filename v)
  | None => ret (MessageBox "Strain needs to be calculated first")
  end).

Definition onSaveAha : string -> M outcome := onSave "aha".
Definition onSaveMotion : string -> M outcome := onSave "motion".
Definition onSaveStrain : string -> M outcome := onSave "strain".

(** The widgets that [updateGUIFromParameterNode] (lines 90-113) sets. *)
Record Gui := {
  runStrainButton : bool;
  strainReportButton : bool;
  visualizationTabs : bool;
  saveStrainButton : bool;
  saveMotionButton : bool;
  saveAHAButton : bool;
  statusLabel : string }.

(** Lines 96-111 of [updateGUIFromParameterNode]. *)
Definition updateGUIFromParameterNode (n : ParameterNode) : Gui :=
  let strainIsReady := String.eqb (hasStrain n) "True" in
  {| runStrainButton :=
       bool_decide (is_Some (ImgSequence n)) && bool_decide (is_Some (SegSequence n));
     strainReportButton := strainIsReady;
     visualizationTabs := strainIsReady;
     saveStrainButton := strainIsReady;
     saveMotionButton := strainIsReady;
     saveAHAButton := strainIsReady;
     statusLabel := Status n |}.

End Handlers.

End Widget.

(** ** An instrumented stub of the collaborators *)

Module Stub.
Import Py Pipeline.
Local Open Scope string_scope.

(** A frame with one voxel in each of the segments 1 to 16 and none in the
    apical cap; the voxel of segment 7 has radial strain [e]. *)
Definition frame_of (e : float) : Strain.frame :=
  map (fun j => {| Strain.aha := Z.of_nat j + 1; Strain.iec := 0%float;
                   Strain.ier := if (j =? 6)%nat then e else 0%float;
                   Strain.iel := 0%float |}) (seq 0 16).

(** The stub: a volume already holds the projected strains of its frame, the
    motion model hands them on, and [getStrain] aggregates them, or raises
    when [strain_fails]. *)
Definition stages (strain_fails : bool) : Stages := {|
  Model := unit;
  Volume := Strain.frame;
  Segmentation := unit;
  Field := Strain.frame;
  Aha := unit;
  Coords := unit;
  py_int := fun s => if String.eqb s "2" then Ok 2%Z
                     else if String.eqb s "1" then Ok 1%Z else Raise ValueError;
  load_model := Ok tt;
  preprocess := fun sq _ _ _ => Ok (dataNodes sq);
  motionModel := fun _ _ V_t => Ok V_t;
  getLocalCoords := fun _ _ _ => Ok tt;
  getAhaModel := fun _ _ _ => Ok tt;
  getStrain := fun motion _ _ =>
    if strain_fails then Raise (External "getStrain")
    else Ok (Strain.getStrain motion) |}.

(** A sequence of three frames and the parameter node that selects it. *)
Definition sequence3 : Sequence Strain.frame :=
  {| GetID := "seq"; dataNodes := [frame_of 0; frame_of 0x1p-4; frame_of 0x1.1eb851eb851ecp-4] |}.

Definition node3 (strain_fails : bool) : @ParameterNode (stages strain_fails) :=
  @Build_ParameterNode (stages strain_fails) (Some sequence3) (Some tt)
    "2" "1" "Run strain analysis." "False".

(** The logic once the widget has selected the sequence. *)
Definition logic3 (strain_fails : bool) : @Logic (stages strain_fails) :=
  @lifetime (stages strain_fails) [CallSetNode (node3 strain_fails)].

End Stub.

(** ** Small segmentations *)

Module Examples.
Import Geometry.

(** Four slices of one voxel, myocardium (label 2) in three of them and no
    right ventricle (label 1). *)
Definition no_rv : volume := [[[2]]; [[2]]; [[0]]; [[2]]]%Z.

(** Four slices of one voxel with the right ventricle in the first. *)
Definition rv_first : volume := [[[1]]; [[2]]; [[2]]; [[0]]]%Z.

(** Centroids of a stub: the in-plane centre of the region of interest. *)
Definition center_int (m : mask) : Z * Z := (64, 64)%Z.
Definition center_of_mass (m : list (list bool)) : float * float :=
  (0%float, 0%float).

(** One slice of two rows of four voxels. *)
Definition slice_2x4 : volume := [[[1; 2; 3; 4]; [5; 6; 7; 8]]]%Z.

(** A slice of two myocardial voxels, seen under -120 and 0 degrees. *)
Definition myo_1x2 : mask := [[[true; true]]].
Definition angle_by_column (rv2lv c : float * float) (p : nat * nat) : float :=
  if (p.2 =? 0)%nat then Np.of_Z (-120) else 0%float.

(** Ten slices of one myocardial voxel, listed in slice order with the
    centroid of a stub, and the empty label map of the same shape. *)
Definition myo_ten : mask := replicate 10 [[true]].
Definition lvCenter_ten : list (nat * (float * float)) :=
  map (fun z => (z, (0%float, 0%float))) (seq 0 10).
Definition zeros_ten : AHA.labelmap := replicate 10 [[0%Z]].

(** Three slices of three by three voxels: a single voxel in the first two,
    a ring with a one-voxel cavity in the third. *)
Definition dot_3x3 : list (list bool) :=
  [[false; false; false]; [false; true; false]; [false; false; false]].
Definition ring_3x3 : list (list bool) :=
  [[true; true; true]; [true; false; true]; [true; true; true]].
Definition cap_myo : mask := [dot_3x3; dot_3x3; ring_3x3].
Definition zeros_3x3x3 : AHA.labelmap := replicate 3 (replicate 3 (replicate 3 0%Z)).

End Examples.

(** * Properties *)

(** ** The cache under success and failure of the pipeline *)

Module PipelineFacts.
Import Py Pipeline.
Local Open Scope string_scope.

Section Facts.
Context `{Stages}.

Lemma motion_loop_spec m V ts acc s r s' :
  motion_loop m V ts acc s = (r, s') ->
  cache s' = cache s /\ node s' = node s /\ modelLoads s' = modelLoads s /\
  (forall motion, r = Ok motion ->
     estimatorCalls s' = estimatorCalls s + length ts).
Proof.
  revert acc s. induction ts as [|t ts IH]; intros acc s Hrun; simpl in Hrun.
  - unfold ret in Hrun. simplify_eq. repeat split; intros; simpl; lia || done.
  - unfold bind, lift, count_call, modify in Hrun.
    destruct (item V 0) as [e|V_0]; simplify_eq/=.
    { repeat split; intros; discriminate. }
    destruct (item V t) as [e|V_t]; simplify_eq/=.
    { repeat split; intros; discriminate. }
    destruct (motionModel m V_0 V_t) as [e|df]; simplify_eq/=.
    { repeat split; intros; discriminate. }
    apply IH in Hrun as (Hc & Hn & Hl & Hcalls). simpl in *.
    repeat split; try done. intros motion ->. rewrite (Hcalls motion eq_refl). lia.
Qed.

(** The loads counter is 1 when a model is cached and 0 otherwise. *)
Definition loads_inv (s : Logic) : Prop :=
  modelLoads s = match cache s !! kModel with Some _ => 1 | None => 0 end.

Lemma getMotion_spec sequence segmentation rv myo s r s' :
  getMotion sequence segmentation rv myo s = (r, s') ->
  node s' = node s /\
  (forall k, k <> kModel -> cache s' !! k = cache s !! k) /\
  (loads_inv s -> loads_inv s') /\
  (forall motion sq, r = Ok motion -> sequence = Some sq ->
     estimatorCalls s' = estimatorCalls s + length (dataNodes sq)).
Proof.
  unfold getMotion, bind, gets, lift, ret, cache_item, count_load, set_cache,
    modify, loads_inv.
  intros Hrun.
  destruct (cache s !! kModel) as [v|] eqn:Hmodel; simpl in Hrun.
  - rewrite Hmodel in Hrun.
    destruct v; simplify_eq/=; try by rewrite ?Hmodel.
    destruct segmentation as [seg|]; simplify_eq/=; try by rewrite ?Hmodel.
    destruct sequence as [sq|]; simplify_eq/=; try by rewrite ?Hmodel.
    destruct (preprocess sq seg rv myo) as [e|V]; simplify_eq/=;
      try by rewrite ?Hmodel.
    apply motion_loop_spec in Hrun as (Hc & Hn & Hl & Hcalls).
    rewrite Hc, Hl, Hmodel. repeat split; try done.
    intros motion sq' -> [= <-]. rewrite (Hcalls motion eq_refl). by rewrite length_seq.
  - destruct load_model as [e|m]; simplify_eq/=; try by rewrite ?Hmodel.
    rewrite lookup_insert_eq in Hrun. simpl in Hrun.
    assert (Hother : forall k, k <> kModel ->
              <[kModel:=VModel m]> (cache s) !! k = cache s !! k)
      by (intros k Hk; by rewrite lookup_insert_ne).
    destruct segmentation as [seg|]; simplify_eq/=;
      try (rewrite ?lookup_insert_eq; repeat split; intros; by auto).
    destruct sequence as [sq|]; simplify_eq/=;
      try (rewrite ?lookup_insert_eq; repeat split; intros; by auto).
    destruct (preprocess sq seg rv myo) as [e|V]; simplify_eq/=;
      try (rewrite ?lookup_insert_eq; repeat split; intros; by auto).
    apply motion_loop_spec in Hrun as (Hc & Hn & Hl & Hcalls). simpl in *.
    rewrite Hc, Hl, lookup_insert_eq. repeat split; try done; auto.
    intros motion sq' -> [= <-]. rewrite (Hcalls motion eq_refl). by rewrite length_seq.
Qed.

Ltac run_unfold H :=
  unfold runStrainPipeline, bind, gets, lift, ret, cache_item, _set_status,
    SetParameter, set_cache, modify in H; simpl in H.

(** A run that raises: where it stopped and what it left. *)
Lemma run_raises s e s' :
  runStrainPipeline s = (Raise e, s') ->
  match py_int (MyoLabel (node s)), py_int (RVLabel (node s)),
        ImgSequence (node s) with
  | inr myo, inr rv, Some sq =>
      cache s !! kArt "strain" (GetID sq) = None /\
      match getMotion (Some sq) (SegSequence (node s)) rv myo
              (_set_status "Measuring Motion" s).2 with
      | (inl em, sm) => e = em /\ s' = sm
      | (inr motion, sm) =>
          node s' = set_Status "Analyzing strain" (node sm) /\
          cache s' !! kArt "motion" (GetID sq) = Some (VMotion motion) /\
          cache s' !! kArt "strain" (GetID sq) = None /\
          forall k id, id <> GetID sq ->
            cache s' !! kArt k id = cache sm !! kArt k id
      end
  | _, _, _ => s' = s
  end.
Proof.
  intros Hrun. run_unfold Hrun.
  destruct (py_int (MyoLabel (node s))) as [e1|myo]; simplify_eq/=; [done|].
  destruct (py_int (RVLabel (node s))) as [e1|rv]; simplify_eq/=; [done|].
  destruct (ImgSequence (node s)) as [sq|] eqn:Hsq; simplify_eq/=; [|done].
  destruct (cache s !! kArt "strain" (GetID sq)) as [v|] eqn:Hstrain;
    simplify_eq/=.
  { rewrite Hstrain in Hrun. discriminate. }
  split; [done|].
  unfold _set_status, SetParameter, modify. simpl.
  match type of Hrun with context [getMotion ?a ?b ?c ?d ?s0] =>
    destruct (getMotion a b c d s0) as [[em|motion] sm] eqn:Hm end.
  { by simplify_eq. }
  pose proof (getMotion_spec _ _ _ _ _ _ _ Hm) as (_ & Hc & _ & _).
  simpl in Hc.
  assert (Hnone : cache sm !! kArt "strain" (GetID sq) = None)
    by (by rewrite Hc).
  assert (Hne : forall k k' id', id' <> GetID sq -> kArt k (GetID sq) <> kArt k' id')
    by (unfold kArt; congruence).
  destruct (SegSequence (node s)) as [seg|]; simplify_eq/=.
  2:{ rewrite lookup_insert_eq.
      rewrite lookup_insert_ne by (unfold kArt; congruence).
      repeat split; try done. intros k id Hid. by rewrite lookup_insert_ne by auto. }
  destruct (getLocalCoords seg myo rv) as [e1|localCoords]; simplify_eq/=.
  { rewrite lookup_insert_eq.
    rewrite lookup_insert_ne by (unfold kArt; congruence).
    repeat split; try done. intros k id Hid. by rewrite lookup_insert_ne by auto. }
  destruct (getAhaModel seg myo rv) as [e1|ahaModel]; simplify_eq/=.
  { rewrite lookup_insert_eq.
    rewrite lookup_insert_ne by (unfold kArt; congruence).
    repeat split; try done. intros k id Hid. by rewrite lookup_insert_ne by auto. }
  destruct (getStrain motion ahaModel localCoords) as [e1|strain];
    simplify_eq/=.
  { rewrite !(lookup_insert_ne _ (kArt "aha" _)) by (unfold kArt; congruence).
    rewrite lookup_insert_eq.
    rewrite lookup_insert_ne by (unfold kArt; congruence).
    repeat split; try done.
    intros k id Hid. by rewrite !lookup_insert_ne by auto. }
  rewrite lookup_insert_eq in Hrun. discriminate.
Qed.

(** C1 (as the code has it): when a run raises, no strain artifact is stored
    for the sequence, [hasStrain] is not set by it and the entries of other
    sequences are untouched; when a label does not parse the logic is left as
    it was; when [getMotion] raised, the run raises the same exception and no
    entry of the sequence has changed; and when [getMotion] returned and a
    later stage raised, the motion it returned is stored under
    [("motion", seqId)]. *)
Theorem failed_run_cache s e s' sq :
  ImgSequence (node s) = Some sq ->
  runStrainPipeline s = (Raise e, s') ->
  cache s' !! kArt "strain" (GetID sq) = cache s !! kArt "strain" (GetID sq) /\
  hasStrain (node s') = hasStrain (node s) /\
  (forall k id', id' <> GetID sq ->
     cache s' !! kArt k id' = cache s !! kArt k id') /\
  match py_int (MyoLabel (node s)), py_int (RVLabel (node s)) with
  | inr myo, inr rv =>
      match getMotion (Some sq) (SegSequence (node s)) rv myo
              (_set_status "Measuring Motion" s).2 with
      | (inl em, _) =>
          e = em /\
          forall k, cache s' !! kArt k (GetID sq) = cache s !! kArt k (GetID sq)
      | (inr motion, _) =>
          cache s' !! kArt "motion" (GetID sq) = Some (VMotion motion)
      end
  | _, _ => s' = s
  end.
Proof.
  intros Hsq Hrun. pose proof (run_raises _ _ _ Hrun) as Hcases.
  rewrite Hsq in Hcases.
  destruct (py_int (MyoLabel (node s))) as [e1|myo]; [by subst|].
  destruct (py_int (RVLabel (node s))) as [e1|rv]; [by subst|].
  destruct Hcases as [Hnone Hcases].
  destruct (getMotion (Some sq) (SegSequence (node s)) rv myo
              (_set_status "Measuring Motion" s).2) as [[em|motion] sm] eqn:Hm;
    pose proof (getMotion_spec _ _ _ _ _ _ _ Hm) as (Hn & Hc & _ & _);
    simpl in Hn, Hc.
  - destruct Hcases as [-> ->].
    assert (Hall : forall k id, cache sm !! kArt k id = cache s !! kArt k id)
      by (intros; by apply Hc).
    rewrite Hn. by repeat split.
  - destruct Hcases as (Hnode & Hmotion & Hstrain & Hother).
    rewrite Hstrain, Hnone, Hnode, Hn. repeat split; try done.
    intros k id Hid. rewrite Hother by done. by apply Hc.
Qed.


Lemma run_loads_inv s r s' :
  runStrainPipeline s = (r, s') -> loads_inv s -> loads_inv s'.
Proof.
  intros Hrun Hinv. run_unfold Hrun.
  destruct (py_int (MyoLabel (node s))) as [e1|myo]; simplify_eq/=; [done|].
  destruct (py_int (RVLabel (node s))) as [e1|rv]; simplify_eq/=; [done|].
  destruct (ImgSequence (node s)) as [sq|]; simplify_eq/=; [|done].
  destruct (cache s !! kArt "strain" (GetID sq)) as [v|] eqn:Hstrain;
    simplify_eq/=.
  { rewrite Hstrain in Hrun. by simplify_eq. }
  match type of Hrun with context [getMotion ?a ?b ?c ?d ?s0] =>
    destruct (getMotion a b c d s0) as [[em|motion] sm] eqn:Hm end;
    apply getMotion_spec in Hm as (_ & _ & Hl & _); specialize (Hl Hinv);
    simpl in *.
  { by simplify_eq. }
  unfold loads_inv in *.
  destruct (SegSequence (node s)) as [seg|]; simplify_eq/=;
    [|by rewrite lookup_insert_ne].
  destruct (getLocalCoords seg myo rv) as [e1|localCoords]; simplify_eq/=;
    [by rewrite lookup_insert_ne|].
  destruct (getAhaModel seg myo rv) as [e1|ahaModel]; simplify_eq/=;
    [by rewrite lookup_insert_ne|].
  destruct (getStrain motion ahaModel localCoords) as [e1|strain];
    simplify_eq/=; [by rewrite !lookup_insert_ne|].
  rewrite lookup_insert_eq in Hrun. simplify_eq/=.
  by rewrite !lookup_insert_ne.
Qed.

Lemma run_ok s r s1 :
  runStrainPipeline s = (Ok r, s1) ->
  exists sq myo rv,
    ImgSequence (node s) = Some sq /\ ImgSequence (node s1) = Some sq /\
    py_int (MyoLabel (node s1)) = Ok myo /\ py_int (RVLabel (node s1)) = Ok rv /\
    cache s1 !! kArt "strain" (GetID sq) = Some r /\
    (cache s !! kArt "strain" (GetID sq) = None ->
       estimatorCalls s1 = estimatorCalls s + length (dataNodes sq)).
Proof.
  intros Hrun. run_unfold Hrun.
  destruct (py_int (MyoLabel (node s))) as [e1|myo] eqn:Hmyo; simplify_eq/=.
  destruct (py_int (RVLabel (node s))) as [e1|rv] eqn:Hrv; simplify_eq/=.
  destruct (ImgSequence (node s)) as [sq|] eqn:Hsq; simplify_eq/=.
  exists sq, myo, rv.
  destruct (cache s !! kArt "strain" (GetID sq)) as [v|] eqn:Hstrain;
    simplify_eq/=.
  { rewrite Hstrain in Hrun. by simplify_eq. }
  match type of Hrun with context [getMotion ?a ?b ?c ?d ?s0] =>
    destruct (getMotion a b c d s0) as [[em|motion] sm] eqn:Hm end;
    apply getMotion_spec in Hm as (Hn & _ & _ & Hcalls); simpl in *;
    [done|].
  specialize (Hcalls motion sq eq_refl eq_refl).
  destruct (SegSequence (node s)) as [seg|]; simplify_eq/=.
  destruct (getLocalCoords seg myo rv) as [e1|localCoords]; simplify_eq/=.
  destruct (getAhaModel seg myo rv) as [e1|ahaModel]; simplify_eq/=.
  destruct (getStrain motion ahaModel localCoords) as [e1|strain];
    simplify_eq/=.
  rewrite lookup_insert_eq in Hrun. simplify_eq/=.
  rewrite Hn, lookup_insert_eq. simpl. by rewrite Hsq, Hmyo, Hrv.
Qed.

Lemma run_hit s sq myo rv v :
  ImgSequence (node s) = Some sq ->
  py_int (MyoLabel (node s)) = Ok myo -> py_int (RVLabel (node s)) = Ok rv ->
  cache s !! kArt "strain" (GetID sq) = Some v ->
  runStrainPipeline s = (Ok v, s).
Proof.
  intros Hsq Hmyo Hrv Hv.
  unfold runStrainPipeline, bind, gets, lift, ret, cache_item. simpl.
  by rewrite Hmyo, Hrv, Hsq; simpl; rewrite Hv; simpl; rewrite Hv.
Qed.

#[local] Arguments dict_item : simpl never.
#[local] Arguments str_first : simpl never.
#[local] Arguments str_contains : simpl never.

Lemma getStrainSeries_state direction kind zone s :
  (getStrainSeries direction kind zone s).2 = s.
Proof.
  unfold getStrainSeries, bind, gets, lift, ret, cache_item. simpl.
  destruct (ImgSequence (node s)) as [sq|]; simpl; [|done].
  destruct (cache s !! kArt "strain" (GetID sq)) as [v|]; simpl; [|done].
  destruct (str_first direction) as [e|d]; simpl; [done|].
  destruct (dict_item directionIdxs d) as [e|idx]; simpl; [done|].
  match goal with |- context [match ?x with inl _ => _ | inr _ => _ end] =>
    destruct x as [e|strain] end; simpl; [done|].
  destruct (str_first zone) as [e|z]; simpl; [done|].
  destruct (dict_item zones z) as [e|lo]; simpl; [done|].
  by destruct (str_contains "Rate" kind).
Qed.

Lemma getCalculatedResult_state key_ s : (getCalculatedResult key_ s).2 = s.
Proof.
  unfold getCalculatedResult, bind, gets, lift, ret. simpl.
  by destruct (ImgSequence (node s)).
Qed.

Lemma lifetime_loads_inv cs : loads_inv (lifetime cs).
Proof.
  unfold lifetime. induction cs as [|c cs IH] using rev_ind; [done|].
  rewrite fold_left_app. simpl.
  destruct c as [n| |direction kind zone|key_]; simpl.
  - done.
  - destruct (runStrainPipeline _) as [r s'] eqn:Hrun. simpl.
    by eapply run_loads_inv.
  - by rewrite getStrainSeries_state.
  - by rewrite getCalculatedResult_state.
Qed.

(** C7: at any point of the life of the process, when a call of the pipeline
    returns, a second call returns the same result and leaves the logic as it
    is, counters of the stub included; the first call, when it had to
    compute, called the motion model once per frame; and the model has been
    loaded at most once. *)
Theorem run_twice cs r s1 :
  runStrainPipeline (lifetime cs) = (Ok r, s1) ->
  runStrainPipeline s1 = (Ok r, s1) /\
  modelLoads s1 <= 1 /\
  (forall sq, ImgSequence (node (lifetime cs)) = Some sq ->
     cache (lifetime cs) !! kArt "strain" (GetID sq) = None ->
     estimatorCalls s1 = estimatorCalls (lifetime cs) + length (dataNodes sq)).
Proof.
  intros Hrun.
  pose proof (run_loads_inv _ _ _ Hrun (lifetime_loads_inv cs)) as Hinv.
  destruct (run_ok _ _ _ Hrun) as (sq & myo & rv & Hsq & Hsq1 & Hmyo & Hrv & Hr & Hcalls).
  split; [by eapply run_hit|]. split.
  - unfold loads_inv in Hinv. rewrite Hinv. destruct (cache s1 !! kModel); lia.
  - intros sq' Hsq'. rewrite Hsq in Hsq'. by simplify_eq.
Qed.

(** C9 (as the code has it): while no strain is cached for the active
    sequence, [getCalculatedResult] returns what the cache holds under the
    key, [None] for ["strain"], and [getStrainSeries] raises the [KeyError] of
    the dict lookup; neither changes the logic. *)
Theorem query_before_compute s sq direction kind zone key_ :
  ImgSequence (node s) = Some sq ->
  cache s !! kArt "strain" (GetID sq) = None ->
  getCalculatedResult "strain" s = (Ok None, s) /\
  getCalculatedResult key_ s = (Ok (cache s !! kArt key_ (GetID sq)), s) /\
  getStrainSeries direction kind zone s
    = (Raise (KeyError (kArt "strain" (GetID sq))), s).
Proof.
  intros Hsq Hstrain.
  unfold getCalculatedResult, getStrainSeries, bind, gets, lift, ret, cache_item.
  simpl. rewrite Hsq. simpl. by rewrite Hstrain.
Qed.

End Facts.

(** C1, witness: the stub whose [getStrain] raises. *)
Lemma failed_run_cache_witness :
  let s := Stub.logic3 true in
  let s' := (runStrainPipeline s).2 in
  cache s' !! kArt "strain" "seq" = cache s !! kArt "strain" "seq" /\
  hasStrain (node s') = hasStrain (node s) /\
  (forall k id', id' <> "seq" ->
     cache s' !! kArt k id' = cache s !! kArt k id') /\
  cache s' !! kArt "motion" "seq"
  = Some (@VMotion (Stub.stages true) (dataNodes Stub.sequence3)).
Proof.
  assert (Hrun : @runStrainPipeline (Stub.stages true) (Stub.logic3 true)
                 = (Raise (External "getStrain"),
                    (runStrainPipeline (Stub.logic3 true)).2))
    by (vm_compute; reflexivity).
  exact (failed_run_cache (H:=Stub.stages true) (Stub.logic3 true)
           (External "getStrain") _ Stub.sequence3 eq_refl Hrun).
Defined.

(** C1 fails as stated: with the stub whose [getStrain] raises, the run
    raises and the motion of the sequence is in the cache, which held no
    entry of the sequence before. *)
Lemma failed_run_keeps_motion :
  ~ (forall (St : Stages) (s s' : Logic) e sq,
       ImgSequence (node s) = Some sq ->
       runStrainPipeline s = (Raise e, s') ->
       forall k, cache s' !! kArt k (GetID sq) = cache s !! kArt k (GetID sq)).
Proof.
  intros Hclaim.
  specialize (Hclaim (Stub.stages true) (Stub.logic3 true)
                (runStrainPipeline (Stub.logic3 true)).2
                (External "getStrain") Stub.sequence3 eq_refl).
  assert (Hrun : runStrainPipeline (Stub.logic3 true)
                 = (Raise (External "getStrain"),
                    (runStrainPipeline (Stub.logic3 true)).2))
    by (vm_compute; reflexivity).
  specialize (Hclaim Hrun "motion"). vm_compute in Hclaim. discriminate.
Qed.

(** C7, witness: the stub that succeeds. *)
Lemma run_twice_witness :
  let out := runStrainPipeline (Stub.logic3 false) in
  exists r, out.1 = Ok r /\
    runStrainPipeline out.2 = (Ok r, out.2) /\
    modelLoads out.2 <= 1 /\
    (forall sq, ImgSequence (node (Stub.logic3 false)) = Some sq ->
       cache (Stub.logic3 false) !! kArt "strain" (GetID sq) = None ->
       estimatorCalls out.2
       = estimatorCalls (Stub.logic3 false) + length (dataNodes sq)).
Proof.
  cbv zeta.
  assert (Hok : match (runStrainPipeline (Stub.logic3 false)).1 with
                | inl _ => false | inr _ => true end = true)
    by (vm_compute; reflexivity).
  destruct (runStrainPipeline (Stub.logic3 false)) as [[e|r] s1] eqn:Hrun.
  - discriminate Hok.
  - exists r. split; [reflexivity|].
    exact (run_twice (H:=Stub.stages false)
             [CallSetNode (Stub.node3 false)] r s1 Hrun).
Defined.

(** C9, witness: the stub before any run. *)
Lemma query_before_compute_witness :
  let s := Stub.logic3 false in
  getCalculatedResult "strain" s = (Ok None, s) /\
  getCalculatedResult "aha" s = (Ok (cache s !! kArt "aha" "seq"), s) /\
  getStrainSeries "Radial" "Strain" "Global" s
    = (Raise (KeyError (kArt "strain" "seq")), s).
Proof.
  apply (query_before_compute (H:=Stub.stages false) (Stub.logic3 false)
           Stub.sequence3 "Radial" "Strain" "Global" "aha").
  - reflexivity.
  - reflexivity.
Defined.

(** C9 fails as stated: after a run that raised in [getStrain] the pipeline
    has not completed for the sequence, and [getCalculatedResult("motion")]
    returns the motion that the run stored. *)
Lemma partial_result_is_returned :
  ~ (forall (St : Stages) (s : Logic) sq key_,
       ImgSequence (node s) = Some sq ->
       cache s !! kArt "strain" (GetID sq) = None ->
       getCalculatedResult key_ s = (Ok None, s)).
Proof.
  intros Hclaim.
  specialize (Hclaim (Stub.stages true)
                (@lifetime (Stub.stages true) [CallSetNode (Stub.node3 true); CallRun])
                Stub.sequence3 "motion").
  assert (Hq : fst (getCalculatedResult "motion"
                 (@lifetime (Stub.stages true)
                    [CallSetNode (Stub.node3 true); CallRun])) <> Ok None)
    by (vm_compute; discriminate).
  apply Hq. rewrite Hclaim; [reflexivity| |]; vm_compute; reflexivity.
Qed.

End PipelineFacts.

(** ** Auxiliary facts on binary64 and on list indexing *)

Module FloatFacts.
Local Open Scope float_scope.

Lemma sub_zero_mul_zero m :
  0 - m * 0 = if Np.finite m then 0 else nan.
Proof.
  unfold Np.finite. apply Prim2SF_inj.
  rewrite sub_spec, mul_spec.
  destruct (Prim2SF m) as [s| s | | s mm e] eqn:Hm; try (destruct s; reflexivity).
  reflexivity.
Qed.

Lemma sub_diag x : Np.finite x = true -> x - x = 0.
Proof.
  unfold Np.finite. intros H. apply Prim2SF_inj. rewrite sub_spec.
  destruct (Prim2SF x) as [s| s | | s m e]; try discriminate.
  - destruct s; reflexivity.
  - unfold SF64sub, SFsub. rewrite Z.sub_diag. reflexivity.
Qed.

Lemma mul_nan_l x : nan * x = nan.
Proof. apply Prim2SF_inj. rewrite mul_spec. reflexivity. Qed.

Lemma mul_nan_r x : x * nan = nan.
Proof. apply Prim2SF_inj. rewrite mul_spec. by destruct (Prim2SF x). Qed.

Lemma add_nan_l x : nan + x = nan.
Proof. apply Prim2SF_inj. rewrite add_spec. reflexivity. Qed.

Lemma add_nan_r x : x + nan = nan.
Proof. apply Prim2SF_inj. rewrite add_spec. by destruct (Prim2SF x). Qed.

Lemma sub_nan_r x : x - nan = nan.
Proof. apply Prim2SF_inj. rewrite sub_spec. by destruct (Prim2SF x). Qed.

Lemma div_nan_l x : nan / x = nan.
Proof. apply Prim2SF_inj. rewrite div_spec. reflexivity. Qed.

End FloatFacts.

Module ListFacts.

Lemma lookup_map {A B} (f : A -> B) (l : list A) (i : nat) :
  map f l !! i = f <$> l !! i.
Proof. exact (list_lookup_fmap f l i). Qed.

Lemma lookup_total_map {A B} `{!Inhabited A, !Inhabited B} (f : A -> B)
    (l : list A) (i : nat) :
  i < length l -> map f l !!! i = f (l !!! i).
Proof. exact (list_lookup_total_fmap f l i). Qed.

End ListFacts.

(** ** The strain curves of [getStrain] *)

Module StrainFacts.
Import Strain FloatFacts ListFacts.
Local Open Scope float_scope.

Lemma length_convolve1d_4 w x : length (Np.convolve1d_4 w x) = length x.
Proof. unfold Np.convolve1d_4. by rewrite length_map, length_seq. Qed.

Lemma reflect_inside n i : (i < n)%nat -> Np.reflect n (Z.of_nat i) = i.
Proof.
  intros Hi. unfold Np.reflect.
  rewrite Z.mod_small by lia.
  destruct (Z.ltb_spec (Z.of_nat i) (Z.of_nat n)); lia.
Qed.

Lemma convolve_lookup w x l :
  (l < length x)%nat ->
  Np.convolve1d_4 w x !!! l =
  x !!! Np.reflect (length x) (Z.of_nat l + 2) * w
  + x !!! Np.reflect (length x) (Z.of_nat l - 1) * w
  + x !!! Np.reflect (length x) (Z.of_nat l) * w
  + x !!! Np.reflect (length x) (Z.of_nat l + 1) * w.
Proof.
  intros Hl. unfold Np.convolve1d_4.
  rewrite (lookup_total_map _ _ l) by (by rewrite length_seq).
  by rewrite lookup_total_seq_lt.
Qed.

Lemma accum_row e motion j :
  (j < 18)%nat ->
  accum e motion !! j = Some (map (fun f => column e f !!! j) motion ++ [0]).
Proof.
  intros Hj. unfold accum. cbv delta [matrix].
  rewrite lookup_map, lookup_seq_lt by done. done.
Qed.

Lemma length_accum e motion : length (accum e motion) = 18%nat.
Proof. unfold accum. by rewrite length_map, length_seq. Qed.

Lemma smoothed_row e motion j :
  (j < 18)%nat ->
  exists row, smoothed e motion !! j = Some row /\
              length row = S (length motion) /\
              row !! 0%nat = Some 0.
Proof.
  intros Hj. unfold smoothed, zero_first, smooth. cbv delta [matrix].
  rewrite !lookup_map, accum_row by done. simpl.
  eexists. split; [reflexivity|].
  assert (Hlen : length (Np.convolve1d_4 0.25
             (map (fun f => column e f !!! j) motion ++ [0])) = S (length motion)).
  { rewrite length_convolve1d_4, length_app, length_map. simpl. lia. }
  split.
  - by rewrite length_insert.
  - apply list_lookup_insert_eq. lia.
Qed.

(** Lines 234-236 entry by entry. *)
Lemma postprocess_at2 e motion j i :
  (j < 18)%nat ->
  at2 (postprocess (length motion) (accum e motion)) j i
  = (fun x => x - slopes e motion !!! j * Np.of_nat i)
      <$> at2 (smoothed e motion) j i.
Proof.
  intros Hj. destruct (smoothed_row e motion j Hj) as (row & Hrow & Hlen & _).
  unfold at2, postprocess, drift. fold (smoothed e motion).
  cbv delta [matrix] in *.
  rewrite lookup_map, Hrow. simpl.
  rewrite list_lookup_imap. unfold slopes, endpoints.
  assert (Hl : (j < length (smoothed e motion))%nat)
    by (apply lookup_lt_is_Some; eauto).
  rewrite (lookup_total_map _ _ j) by (by rewrite length_map).
  rewrite (lookup_total_map _ _ j) by done.
  rewrite (list_lookup_total_correct _ _ _ Hrow). reflexivity.
Qed.

Lemma post_row_length e motion j row :
  postprocess (length motion) (accum e motion) !! j = Some row ->
  length row = S (length motion).
Proof.
  intros Hrow.
  assert (Hj : (j < 18)%nat).
  { apply lookup_lt_Some in Hrow.
    unfold postprocess, drift, zero_first, smooth in Hrow.
    by rewrite !length_map, length_accum in Hrow. }
  destruct (smoothed_row e motion j Hj) as (s & Hs & Hlen & _).
  unfold postprocess, drift in Hrow. fold (smoothed e motion) in Hrow.
  cbv delta [matrix] in *. rewrite lookup_map, Hs in Hrow. simpl in Hrow.
  simplify_eq. by rewrite length_imap.
Qed.

Lemma postprocess_shape e motion :
  length (postprocess (length motion) (accum e motion)) = 18%nat /\
  Forall (fun row => length row = S (length motion))
    (postprocess (length motion) (accum e motion)).
Proof.
  split.
  - unfold postprocess, drift, zero_first, smooth.
    by rewrite !length_map, length_accum.
  - apply Forall_lookup. intros j row Hrow. by eapply post_row_length.
Qed.

(** X1: each of the three matrices returned by [getStrain] has 18 rows of
    [len(motion) + 1] samples, whatever the frames hold. *)
Theorem getStrain_shape (motion : list frame) :
  Forall (fun a : matrix =>
            length a = 18%nat /\
            Forall (fun row => length row = S (length motion)) a)
    [(getStrain motion).1.1; (getStrain motion).1.2; (getStrain motion).2].
Proof.
  unfold getStrain. simpl.
  repeat apply Forall_cons_2; try apply postprocess_shape. apply Forall_nil_2.
Qed.

Lemma first_sample_dir e motion j :
  (j < 18)%nat ->
  at2 (postprocess (length motion) (accum e motion)) j 0
  = Some (if Np.finite (slopes e motion !!! j) then 0 else nan).
Proof.
  intros Hj. rewrite postprocess_at2 by done.
  destruct (smoothed_row e motion j Hj) as (s & Hs & _ & H0).
  unfold at2. rewrite Hs. simpl. rewrite H0. simpl.
  f_equal. apply sub_zero_mul_zero.
Qed.

(** X2: in each matrix returned by [getStrain], sample 0 of row [j] is
    exactly zero when the slope [m[j]] of the row's ramp is finite, and NaN
    when the slope is NaN or infinite. *)
Theorem first_sample (motion : list frame) (j : nat) :
  (j < 18)%nat ->
  let zero_or_nan (m : float) := Some (if Np.finite m then 0 else nan) in
  at2 (getStrain motion).1.1 j 0 = zero_or_nan (slopes ier motion !!! j) /\
  at2 (getStrain motion).1.2 j 0 = zero_or_nan (slopes iec motion !!! j) /\
  at2 (getStrain motion).2 j 0 = zero_or_nan (slopes iel motion !!! j).
Proof.
  intros Hj zero_or_nan. unfold getStrain. simpl.
  repeat split; by apply first_sample_dir.
Qed.

Lemma endpoint_lookup e motion j :
  (j < 18)%nat ->
  at2 (smoothed e motion) j (length motion) = Some (endpoints e motion !!! j).
Proof.
  intros Hj. destruct (smoothed_row e motion j Hj) as (s & Hs & Hlen & _).
  unfold at2, endpoints.
  rewrite (lookup_total_map _ _ j) by (apply lookup_lt_is_Some; eauto).
  rewrite (list_lookup_total_correct _ _ _ Hs), Hs, Hlen.
  replace (S (length motion) - 1)%nat with (length motion) by lia. simpl.
  apply list_lookup_lookup_total_lt. lia.
Qed.

Lemma slopes_lookup e motion j :
  (j < 18)%nat ->
  slopes e motion !!! j = endpoints e motion !!! j / Np.of_nat (length motion).
Proof.
  intros Hj. unfold slopes. rewrite (lookup_total_map _ _ j); [done|].
  unfold endpoints, smoothed, zero_first, smooth.
  by rewrite !length_map, length_accum.
Qed.

Lemma final_sample_dir e motion j :
  (j < 18)%nat ->
  let T := length motion in
  let x := endpoints e motion !!! j in
  at2 (postprocess T (accum e motion)) j T
  = Some (x - x / Np.of_nat T * Np.of_nat T).
Proof.
  intros Hj T x. unfold T. rewrite postprocess_at2, endpoint_lookup by done.
  simpl. by rewrite slopes_lookup.
Qed.

(** X3: in each matrix returned by [getStrain], the last sample of row [j]
    is [x - (x / T) * T] in binary64, for [x] the row's smoothed endpoint
    and [T = len(motion)]; it is zero when [x] is finite and the product
    [(x / T) * T] gives [x] back. *)
Theorem final_sample (motion : list frame) (j : nat) :
  (j < 18)%nat ->
  let T := length motion in
  let residual (x : float) := x - x / Np.of_nat T * Np.of_nat T in
  at2 (getStrain motion).1.1 j T = Some (residual (endpoints ier motion !!! j)) /\
  at2 (getStrain motion).1.2 j T = Some (residual (endpoints iec motion !!! j)) /\
  at2 (getStrain motion).2 j T = Some (residual (endpoints iel motion !!! j)) /\
  (forall x, Np.finite x = true -> x / Np.of_nat T * Np.of_nat T = x ->
             residual x = 0).
Proof.
  intros Hj T residual. unfold getStrain. simpl.
  repeat split; try by apply final_sample_dir.
  intros x Hfin Hexact. unfold residual. rewrite Hexact. by apply sub_diag.
Qed.

Lemma column_empty_segment e f j :
  (j < 17)%nat ->
  Forall (fun v => aha v <> (Z.of_nat j + 1)%Z) f ->
  column e f !!! j = nan.
Proof.
  intros Hj Hf. unfold column.
  rewrite lookup_total_app_l by (rewrite length_map, length_seq; lia).
  rewrite (lookup_total_map _ _ j) by (rewrite length_seq; lia).
  rewrite lookup_total_seq_lt by done. simpl.
  replace (filter _ f) with (@nil voxel); [reflexivity|].
  induction Hf as [|v f Hv _ IH]; [done|].
  by rewrite filter_cons_False.
Qed.

(** X4: when no voxel carries the label of segment [j + 1] and there is at
    least one frame, row [j] of the matrix of any direction is NaN at every
    sample, sample 0 included. *)
Theorem empty_segment_row (e : voxel -> float) (motion : list frame) (j : nat) :
  (j < 17)%nat -> motion <> [] ->
  Forall (fun f => Forall (fun v => aha v <> (Z.of_nat j + 1)%Z) f) motion ->
  postprocess (length motion) (accum e motion) !! j
  = Some (replicate (S (length motion)) nan).
Proof.
  intros Hj Hne Hempty.
  assert (Hj' : (j < 18)%nat) by lia.
  assert (HT : (0 < length motion)%nat) by (destruct motion; [done|simpl; lia]).
  set (T := length motion) in *.
  set (row0 := map (fun f => column e f !!! j) motion ++ [0]).
  assert (Hlen0 : length row0 = S T)
    by (unfold row0; rewrite length_app, length_map; simpl; lia).
  assert (Hprev : row0 !!! (T - 1)%nat = nan).
  { unfold row0. rewrite lookup_total_app_l by (rewrite length_map; lia).
    rewrite (lookup_total_map _ _ (T - 1)) by lia.
    apply column_empty_segment; [done|].
    eapply Forall_lookup_total_1; [exact Hempty|lia]. }
  assert (Hend : Np.convolve1d_4 0.25 row0 !!! T = nan).
  { rewrite convolve_lookup by lia. rewrite Hlen0.
    replace (Z.of_nat T - 1)%Z with (Z.of_nat (T - 1)) by lia.
    rewrite (reflect_inside (S T) (T - 1)) by lia.
    by rewrite Hprev, mul_nan_l, add_nan_r, !add_nan_l. }
  unfold postprocess, drift, zero_first, smooth. cbv delta [matrix].
  rewrite !lookup_map, accum_row by done. simpl. fold row0. f_equal.
  set (s := <[0%nat:=0]> (Np.convolve1d_4 0.25 row0)).
  assert (Hs : length s = S T)
    by (unfold s; by rewrite length_insert, length_convolve1d_4).
  assert (Hslope : slope T s = nan).
  { unfold slope. rewrite Hs. replace (S T - 1)%nat with T by lia.
    unfold s. rewrite list_lookup_total_insert_ne by lia.
    by rewrite Hend, div_nan_l. }
  symmetry. apply (proj2 (replicate_as_Forall nan (S T) _)).
  split; [by rewrite length_imap|].
  apply Forall_lookup. intros i x Hx.
  rewrite list_lookup_imap in Hx. apply fmap_Some in Hx as (y & _ & ->).
  by rewrite Hslope, mul_nan_l, sub_nan_r.
Qed.

(** X2, witness: the row of segment 7 on the frames of the stub. *)
Lemma first_sample_witness :
  let motion := Pipeline.dataNodes Stub.sequence3 in
  at2 (getStrain motion).1.1 6 0 = Some 0 /\
  at2 (getStrain motion).1.2 6 0 = Some 0 /\
  at2 (getStrain motion).2 6 0 = Some 0.
Proof.
  exact (first_sample (Pipeline.dataNodes Stub.sequence3) 6 ltac:(lia)).
Defined.

(** X3, witness: the row of segment 7 on the frames of the stub; the
    radial residual is one unit in the last place of the endpoint's
    binade, the other two are zero. *)
Lemma final_sample_witness :
  let motion := Pipeline.dataNodes Stub.sequence3 in
  at2 (getStrain motion).1.1 6 3 = Some 0x1p-51 /\
  at2 (getStrain motion).1.2 6 3 = Some 0 /\
  at2 (getStrain motion).2 6 3 = Some 0.
Proof.
  destruct (final_sample (Pipeline.dataNodes Stub.sequence3) 6 ltac:(lia))
    as (Hr & Hc & Hl & _).
  exact (conj Hr (conj Hc Hl)).
Defined.

(** X4, witness: the frames of the stub have no voxel in the apical cap. *)
Lemma empty_segment_row_witness :
  postprocess 3 (accum ier (Pipeline.dataNodes Stub.sequence3)) !! 16%nat
  = Some [nan; nan; nan; nan].
Proof.
  apply (empty_segment_row ier (Pipeline.dataNodes Stub.sequence3) 16).
  - lia.
  - discriminate.
  - repeat (apply Forall_cons_2 || apply Forall_nil_2); simpl; lia.
Defined.

End StrainFacts.

(** ** The queries of [getStrainSeries] *)

Module SeriesFacts.
Import Py Pipeline.
Local Open Scope string_scope.

Lemma slice_nonneg {A} (lo hi : nat) (a : list A) :
  lo <= hi ->
  slice (Z.of_nat lo) (Z.of_nat hi) a = take (hi - lo) (drop lo a).
Proof.
  intros Hle. unfold slice.
  destruct (Z.ltb_spec (Z.of_nat hi) 0) as [?|_]; [lia|].
  destruct (Z.ltb_spec (Z.of_nat lo) 0) as [?|_]; [lia|].
  replace (Z.to_nat (Z.min (Z.of_nat (length a)) (Z.max 0 (Z.of_nat hi))))
    with (Nat.min (length a) hi) by lia.
  replace (Z.to_nat (Z.min (Z.of_nat (length a)) (Z.max 0 (Z.of_nat lo))))
    with (Nat.min (length a) lo) by lia.
  destruct (decide (length a <= lo)) as [Hshort|Hlong].
  - rewrite !Nat.min_l by lia. rewrite Nat.sub_diag.
    rewrite !drop_ge by lia. by destruct (hi - lo)%nat.
  - rewrite (Nat.min_r _ lo) by lia.
    destruct (decide (length a <= hi)) as [Hhi|Hhi].
    + rewrite Nat.min_l by lia.
      rewrite !take_ge; [done| |]; rewrite length_drop; lia.
    + by rewrite Nat.min_r by lia.
Qed.

Section Series.
Context `{Stages}.

#[local] Arguments dict_item : simpl never.
#[local] Arguments str_contains : simpl never.
#[local] Arguments slice : simpl never.
#[local] Arguments Np.mean_axis0 : simpl never.

(** The query for kind ["Strain"] with the widget's selectors, as the
    code writes it: the mean over [strain[lo : hi + 1]]. *)
Lemma series_slice s sq ier iec iel direction a zone lo hi :
  ImgSequence (node s) = Some sq ->
  cache s !! kArt "strain" (GetID sq) = Some (VStrain ier iec iel) ->
  (direction, a) ∈ [("Radial", ier); ("Circumferential", iec);
                    ("Longitudinal", iel)] ->
  (zone, (lo, hi)) ∈ [("Global", (17, 17)); ("Basal", (0, 6)); ("Mid", (7, 13));
                      ("Apical", (13, 17))]%Z ->
  getStrainSeries direction "Strain" zone s
  = (Ok (Np.mean_axis0 (length (a !!! 0%nat)) (slice lo (hi + 1) a)), s).
Proof.
  intros Hsq Hstrain Hdir Hzone.
  unfold getStrainSeries, bind, gets, lift, ret, cache_item. simpl.
  rewrite Hsq. simpl. rewrite Hstrain. simpl.
  repeat (apply elem_of_cons in Hdir as [Hdir|Hdir]; [simplify_eq|]);
    try (by apply elem_of_nil in Hdir);
    repeat (apply elem_of_cons in Hzone as [Hzone|Hzone]; [simplify_eq|]);
    try (by apply elem_of_nil in Hzone);
    simpl; unfold dict_item; simpl; reflexivity.
Qed.

Lemma length_gradient f g : Np.gradient f = Some g -> length g = length f.
Proof.
  unfold Np.gradient. destruct (Nat.ltb_spec (length f) 2); [done|].
  intros [= <-]. simpl. rewrite length_app, length_map, length_seq. simpl. lia.
Qed.

(** X5: with the strain of the active sequence cached, the query for kind
    ["Strain"] returns the column-wise mean of the rows [lo] to [hi]
    of the direction's matrix, both bounds included: row 17 for
    ["Global"], rows 0 to 6 for ["Basal"], rows 7 to 13 for ["Mid"] and rows
    13 to 17 for ["Apical"]; the logic is left as it is. *)
Theorem series_zone_rows s sq ier iec iel direction a zone lo n :
  ImgSequence (node s) = Some sq ->
  cache s !! kArt "strain" (GetID sq) = Some (VStrain ier iec iel) ->
  (direction, a) ∈ [("Radial", ier); ("Circumferential", iec);
                    ("Longitudinal", iel)] ->
  (zone, (lo, n)) ∈ [("Global", (17, 1)); ("Basal", (0, 7)); ("Mid", (7, 7));
                     ("Apical", (13, 5))]%nat ->
  getStrainSeries direction "Strain" zone s
  = (Ok (Np.mean_axis0 (length (a !!! 0%nat)) (take n (drop lo a))), s).
Proof.
  intros Hsq Hstrain Hdir Hzone.
  assert (Hz : exists hi : nat,
            (zone, (Z.of_nat lo, Z.of_nat hi)) ∈
              [("Global", (17, 17)); ("Basal", (0, 6)); ("Mid", (7, 13));
               ("Apical", (13, 17))]%Z /\
            (lo <= S hi)%nat /\ n = (S hi - lo)%nat).
  { rewrite !elem_of_cons, elem_of_nil in Hzone.
    destruct Hzone as [Hz|[Hz|[Hz|[Hz|[]]]]]; simplify_eq.
    - exists 17%nat. split; [|split; [lia|done]]. rewrite !elem_of_cons. auto.
    - exists 6%nat. split; [|split; [lia|done]]. rewrite !elem_of_cons. auto.
    - exists 13%nat. split; [|split; [lia|done]]. rewrite !elem_of_cons. auto.
    - exists 17%nat. split; [|split; [lia|done]]. rewrite !elem_of_cons. auto 6. }
  destruct Hz as (hi & Hz & Hle & ->).
  rewrite (series_slice s sq ier iec iel direction a zone _ _ Hsq Hstrain Hdir Hz).
  replace (Z.of_nat hi + 1)%Z with (Z.of_nat (S hi)) by lia.
  by rewrite slice_nonneg.
Qed.

(** X6: only the presence of ["Rate"] in [kind] matters: without it the
    query is the one for ["Strain"]; with it the result is [np.gradient] of
    that curve, of the same length, and the [ValueError] of [np.gradient]
    when the curve has fewer than two samples. *)
Theorem series_rate direction kind zone s :
  getStrainSeries direction kind zone s
  = (if str_contains "Rate" kind
     then match getStrainSeries direction "Strain" zone s with
          | (Ok curve, s') =>
              (match Np.gradient curve with
               | Some rate => Ok rate
               | None => Raise ValueError
               end, s')
          | (Raise e, s') => (Raise e, s')
          end
     else getStrainSeries direction "Strain" zone s) /\
  (forall curve rate, Np.gradient curve = Some rate ->
     length rate = length curve) /\
  (forall curve, Np.gradient curve = None <-> length curve < 2).
Proof.
  split; [|split].
  - unfold getStrainSeries, bind, gets, lift, ret, cache_item. simpl.
    destruct (ImgSequence (node s)) as [sq|]; simpl;
      [|by destruct (str_contains "Rate" kind)].
    destruct (cache s !! kArt "strain" (GetID sq)) as [v|]; simpl;
      [|by destruct (str_contains "Rate" kind)].
    destruct (str_first direction) as [e|d]; simpl;
      [by destruct (str_contains "Rate" kind)|].
    destruct (dict_item directionIdxs d) as [e|idx]; simpl;
      [by destruct (str_contains "Rate" kind)|].
    match goal with |- context [match ?x with inl _ => _ | inr _ => _ end] =>
      destruct x as [e|strain] end; simpl;
      [by destruct (str_contains "Rate" kind)|].
    destruct (str_first zone) as [e|z]; simpl;
      [by destruct (str_contains "Rate" kind)|].
    destruct (dict_item zones z) as [e|lo]; simpl;
      [by destruct (str_contains "Rate" kind)|].
    change (str_contains "Rate" "Strain") with false. simpl.
    destruct (str_contains "Rate" kind); [|done].
    by destruct (Np.gradient _).
  - apply length_gradient.
  - intros curve. unfold Np.gradient.
    destruct (Nat.ltb_spec (length curve) 2); split; (done || lia).
Qed.

(** X7: with the strain cached, an empty [direction] or [zone] raises
    [IndexError], and a [direction] whose first character is not one of
    [R], [C], [L], or a [zone] whose first character is not one of [G], [B],
    [M], [A], raises the [KeyError] of that character; the logic is left as
    it is. *)
Theorem series_bad_selector s sq ier iec iel direction kind zone :
  ImgSequence (node s) = Some sq ->
  cache s !! kArt "strain" (GetID sq) = Some (VStrain ier iec iel) ->
  (direction = "" ->
     getStrainSeries direction kind zone s = (Raise IndexError, s)) /\
  (forall c rest, direction = String c rest ->
     String c "" ∉ ["R"; "C"; "L"] ->
     getStrainSeries direction kind zone s
     = (Raise (KeyError (inl (String c ""))), s)) /\
  (forall c rest, direction = String c rest ->
     String c "" ∈ ["R"; "C"; "L"] ->
     (zone = "" ->
        getStrainSeries direction kind zone s = (Raise IndexError, s)) /\
     (forall c' rest', zone = String c' rest' ->
        String c' "" ∉ ["G"; "B"; "M"; "A"] ->
        getStrainSeries direction kind zone s
        = (Raise (KeyError (inl (String c' ""))), s))).
Proof.
  intros Hsq Hstrain.
  unfold getStrainSeries, bind, gets, lift, ret, cache_item. simpl.
  rewrite Hsq. simpl. rewrite Hstrain. simpl.
  split; [by intros ->|]. split.
  - intros c rest -> Hc. simpl. unfold dict_item, directionIdxs.
    rewrite !elem_of_cons, elem_of_nil in Hc.
    destruct (String.eqb_spec "R" (String c "")) as [Heq|_]; [exfalso; rewrite <- Heq in *; tauto|].
    destruct (String.eqb_spec "C" (String c "")) as [Heq|_]; [exfalso; rewrite <- Heq in *; tauto|].
    destruct (String.eqb_spec "L" (String c "")) as [Heq|_]; [exfalso; rewrite <- Heq in *; tauto|].
    done.
  - intros c rest -> Hc.
    rewrite !elem_of_cons, elem_of_nil in Hc.
    destruct Hc as [Hc|[Hc|[Hc|[]]]]; injection Hc as ->;
      simpl; unfold dict_item at 1; simpl.
    all: split; [by intros ->|].
    all: intros c' rest' -> Hc'; simpl; unfold dict_item at 1, zones.
    all: rewrite !elem_of_cons, elem_of_nil in Hc'.
    all: destruct (String.eqb_spec "G" (String c' "")) as [Heq|_];
      [exfalso; rewrite <- Heq in *; tauto|].
    all: destruct (String.eqb_spec "B" (String c' "")) as [Heq|_];
      [exfalso; rewrite <- Heq in *; tauto|].
    all: destruct (String.eqb_spec "M" (String c' "")) as [Heq|_];
      [exfalso; rewrite <- Heq in *; tauto|].
    all: destruct (String.eqb_spec "A" (String c' "")) as [Heq|_];
      [exfalso; rewrite <- Heq in *; tauto|].
    all: done.
Qed.

End Series.

(** X5, witness: the basal radial curve of the stub after a run. *)
Lemma series_zone_rows_witness :
  let s := @lifetime (Stub.stages false) [CallSetNode (Stub.node3 false); CallRun] in
  let ier := (Strain.getStrain (dataNodes Stub.sequence3)).1.1 in
  @getStrainSeries (Stub.stages false) "Radial" "Strain" "Basal" s
  = (Ok (Np.mean_axis0 4 (take 7 ier)), s).
Proof.
  cbv zeta.
  refine (series_zone_rows (H:=Stub.stages false)
           (@lifetime (Stub.stages false) [CallSetNode (Stub.node3 false); CallRun])
           Stub.sequence3
           (Strain.getStrain (dataNodes Stub.sequence3)).1.1
           (Strain.getStrain (dataNodes Stub.sequence3)).1.2
           (Strain.getStrain (dataNodes Stub.sequence3)).2
           "Radial" (Strain.getStrain (dataNodes Stub.sequence3)).1.1
           "Basal" 0 7 _ _ _ _).
  - reflexivity.
  - reflexivity.
  - apply elem_of_cons. by left.
  - apply elem_of_cons. right. apply elem_of_cons. by left.
Defined.

(** X7, witness: a lower-case direction on the stub after a run. *)
Lemma series_bad_selector_witness :
  let s := @lifetime (Stub.stages false) [CallSetNode (Stub.node3 false); CallRun] in
  @getStrainSeries (Stub.stages false) "radial" "Strain" "Basal" s
  = (Raise (KeyError (inl "r")), s).
Proof.
  cbv zeta.
  refine (proj1 (proj2 (series_bad_selector (H:=Stub.stages false) _ Stub.sequence3
           (Strain.getStrain (dataNodes Stub.sequence3)).1.1
           (Strain.getStrain (dataNodes Stub.sequence3)).1.2
           (Strain.getStrain (dataNodes Stub.sequence3)).2
           "radial" "Strain" "Basal" _ _)) _ "adial" eq_refl _).
  - reflexivity.
  - reflexivity.
  - rewrite !elem_of_cons, elem_of_nil. intros [?|[?|[?|[]]]]; discriminate.
Defined.

End SeriesFacts.

(** ** Runs, the cache over the life of the process, and the widget *)

Module RunFacts.
Import Py Pipeline PipelineFacts Widget.
Local Open Scope string_scope.

Section More.
Context `{Stages}.

Lemma item_Some {A} (a : list A) i x : item a i = Ok x -> a !! i = Some x.
Proof. unfold item. destruct (a !! i); simpl; congruence. Qed.

Lemma motion_loop_result m V ts acc s motion s' :
  motion_loop m V ts acc s = (Ok motion, s') ->
  exists new, motion = (acc ++ new)%list /\ length new = length ts /\
    forall i t df, ts !! i = Some t -> new !! i = Some df ->
      exists V_0 V_t, V !! 0%nat = Some V_0 /\ V !! t = Some V_t /\
                      motionModel m V_0 V_t = Ok df.
Proof.
  revert acc s. induction ts as [|t ts IH]; intros acc s Hrun; simpl in Hrun.
  - unfold ret in Hrun. simplify_eq. exists []. rewrite app_nil_r.
    repeat split; try done.
  - unfold bind, lift, count_call, modify in Hrun.
    destruct (item V 0) as [e|V_0] eqn:H0; simplify_eq/=.
    destruct (item V t) as [e|V_t] eqn:Ht; simplify_eq/=.
    destruct (motionModel m V_0 V_t) as [e|df] eqn:Hdf; simplify_eq/=.
    apply IH in Hrun as (new & -> & Hlen & Hnew).
    exists (df :: new). rewrite <- app_assoc. simpl. repeat split; [lia|].
    intros [|i] t' df' Hi Hd; simplify_eq/=.
    + apply item_Some in H0, Ht. eauto.
    + eauto.
Qed.

Lemma getMotion_ok sequence segmentation rv myo s motion s' :
  getMotion sequence segmentation rv myo s = (Ok motion, s') ->
  exists sq seg m V,
    sequence = Some sq /\ segmentation = Some seg /\
    cache s' !! kModel = Some (VModel m) /\
    preprocess sq seg rv myo = Ok V /\
    length motion = length (dataNodes sq) /\
    forall t df, motion !! t = Some df ->
      exists V_0 V_t, V !! 0%nat = Some V_0 /\ V !! t = Some V_t /\
                      motionModel m V_0 V_t = Ok df.
Proof.
  intros Hrun.
  assert (Hloop : forall m V (sq : Sequence Volume) s0,
    motion_loop m V (seq 0 (length (dataNodes sq))) [] s0 = (Ok motion, s') ->
    length motion = length (dataNodes sq) /\
    forall t df, motion !! t = Some df ->
      exists V_0 V_t, V !! 0%nat = Some V_0 /\ V !! t = Some V_t /\
                      motionModel m V_0 V_t = Ok df).
  { intros m V sq s0 Hl. apply motion_loop_result in Hl as (new & -> & Hlen & Hnew).
    rewrite length_seq in Hlen. split; [done|]. simpl.
    intros t df Ht. apply (Hnew t t df); [|done].
    apply lookup_seq_lt. apply lookup_lt_Some in Ht. lia. }
  unfold getMotion, bind, gets, lift, ret, cache_item, count_load, set_cache,
    modify in Hrun.
  destruct (cache s !! kModel) as [v|] eqn:Hmodel; simpl in Hrun.
  - rewrite Hmodel in Hrun.
    destruct v as [m| | |]; simplify_eq/=.
    destruct segmentation as [seg|]; simplify_eq/=.
    destruct sequence as [sq|]; simplify_eq/=.
    destruct (preprocess sq seg rv myo) as [e|V] eqn:HV; simplify_eq/=.
    pose proof (motion_loop_spec _ _ _ _ _ _ _ Hrun) as (Hc & _).
    exists sq, seg, m, V. rewrite Hc, Hmodel.
    destruct (Hloop _ _ _ _ Hrun). by repeat split.
  - destruct load_model as [e|m]; simplify_eq/=.
    rewrite lookup_insert_eq in Hrun. simpl in Hrun.
    destruct segmentation as [seg|]; simplify_eq/=.
    destruct sequence as [sq|]; simplify_eq/=.
    destruct (preprocess sq seg rv myo) as [e|V] eqn:HV; simplify_eq/=.
    pose proof (motion_loop_spec _ _ _ _ _ _ _ Hrun) as (Hc & _).
    exists sq, seg, m, V. rewrite Hc. simpl. rewrite lookup_insert_eq.
    destruct (Hloop _ _ _ _ Hrun). by repeat split.
Qed.

(** X8: when [getMotion] returns, the model is in the cache, the result has
    one field per data node of the sequence, field [t] is what the motion
    model returned on the first and the [t]-th preprocessed frame, the
    motion model was called once per data node and the parameter node is
    untouched. *)
Theorem getMotion_frames sequence segmentation rv myo s motion s' :
  getMotion sequence segmentation rv myo s = (Ok motion, s') ->
  exists sq seg m V,
    sequence = Some sq /\ segmentation = Some seg /\
    cache s' !! kModel = Some (VModel m) /\
    preprocess sq seg rv myo = Ok V /\
    length motion = length (dataNodes sq) /\
    estimatorCalls s' = estimatorCalls s + length (dataNodes sq) /\
    node s' = node s /\
    forall t df, motion !! t = Some df ->
      exists V_0 V_t, V !! 0%nat = Some V_0 /\ V !! t = Some V_t /\
                      motionModel m V_0 V_t = Ok df.
Proof.
  intros Hrun.
  destruct (getMotion_ok _ _ _ _ _ _ _ Hrun)
    as (sq & seg & m & V & -> & -> & Hm & HV & Hlen & Hframes).
  destruct (getMotion_spec _ _ _ _ _ _ _ Hrun) as (Hn & _ & _ & Hcalls).
  exists sq, seg, m, V. repeat split; try done.
  by apply (Hcalls motion sq).
Qed.

Ltac run_unfold H :=
  unfold runStrainPipeline, bind, gets, lift, ret, cache_item, _set_status,
    SetParameter, set_cache, modify in H; simpl in H.

Ltac motion_cases H Hm :=
  match type of H with context [getMotion ?a ?b ?c ?d ?s0] =>
    destruct (getMotion a b c d s0) as [[?em|?motion] ?sm] eqn:Hm end.

Lemma run_fresh s r s1 sq :
  ImgSequence (node s) = Some sq ->
  cache s !! kArt "strain" (GetID sq) = None ->
  runStrainPipeline s = (Ok r, s1) ->
  exists motion ahaModel localCoords strain,
    r = VStrain strain.1.1 strain.1.2 strain.2 /\
    getStrain motion ahaModel localCoords = Ok strain /\
    length motion = length (dataNodes sq) /\
    cache s1 !! kArt "motion" (GetID sq) = Some (VMotion motion) /\
    cache s1 !! kArt "aha" (GetID sq) = Some (VAha ahaModel localCoords) /\
    cache s1 !! kArt "strain" (GetID sq) = Some r /\
    Status (node s1) = "Ready for plotting" /\
    hasStrain (node s1) = "True".
Proof.
  intros Hsq Hstrain Hrun. run_unfold Hrun.
  destruct (py_int (MyoLabel (node s))) as [e1|myo] eqn:Hmyo; simplify_eq/=.
  destruct (py_int (RVLabel (node s))) as [e1|rv] eqn:Hrv; simplify_eq/=.
  rewrite Hsq in Hrun. simpl in Hrun. rewrite Hstrain in Hrun.
  motion_cases Hrun Hm; [done|].
  apply getMotion_ok in Hm as (sq' & seg & m & V & ? & Hseg & _ & _ & Hlen & _).
  simplify_eq. simpl in Hrun. rewrite Hseg in Hrun. simpl in Hrun.
  destruct (getLocalCoords seg myo rv) as [e1|localCoords]; simplify_eq/=.
  destruct (getAhaModel seg myo rv) as [e1|ahaModel]; simplify_eq/=.
  destruct (getStrain motion ahaModel localCoords) as [e1|strain] eqn:Hs;
    simplify_eq/=.
  rewrite lookup_insert_eq in Hrun. simplify_eq/=.
  exists motion, ahaModel, localCoords, strain.
  rewrite lookup_insert_eq.
  rewrite !(lookup_insert_ne _ (kArt "strain" _)) by (unfold kArt; congruence).
  rewrite !(lookup_insert_ne _ (kArt "aha" _) (kArt "motion" _))
    by (unfold kArt; congruence).
  rewrite !lookup_insert_eq. by repeat split.
Qed.

(** X9: a run that has to compute and returns leaves the motion (one field
    per frame), the AHA model with the local coordinates, and the strain of
    the sequence in the cache, returns that strain, has called the motion
    model once per frame, and sets the status to ["Ready for plotting"] and
    [hasStrain] to ["True"]. *)
Theorem run_fresh_success s r s1 sq :
  ImgSequence (node s) = Some sq ->
  cache s !! kArt "strain" (GetID sq) = None ->
  runStrainPipeline s = (Ok r, s1) ->
  exists motion ahaModel localCoords strain,
    r = VStrain strain.1.1 strain.1.2 strain.2 /\
    getStrain motion ahaModel localCoords = Ok strain /\
    length motion = length (dataNodes sq) /\
    cache s1 !! kArt "motion" (GetID sq) = Some (VMotion motion) /\
    cache s1 !! kArt "aha" (GetID sq) = Some (VAha ahaModel localCoords) /\
    cache s1 !! kArt "strain" (GetID sq) = Some r /\
    estimatorCalls s1 = estimatorCalls s + length (dataNodes sq) /\
    ImgSequence (node s1) = Some sq /\
    Status (node s1) = "Ready for plotting" /\
    hasStrain (node s1) = "True".
Proof.
  intros Hsq Hnone Hrun.
  destruct (run_fresh _ _ _ _ Hsq Hnone Hrun)
    as (motion & ahaModel & localCoords & strain & Hr & Hs & Hlen & Hm & Ha & Hst
        & Hstatus & Hhas).
  destruct (run_ok _ _ _ Hrun) as (sq' & _ & _ & Hsq' & Hsq1 & _ & _ & _ & Hcalls).
  rewrite Hsq in Hsq'. simplify_eq.
  exists motion, ahaModel, localCoords, strain. repeat split; try done.
  by apply Hcalls.
Qed.

Lemma getMotion_cache sequence segmentation rv myo s r s' :
  getMotion sequence segmentation rv myo s = (r, s') ->
  cache s' = cache s \/
  (cache s !! kModel = None /\ exists m, cache s' = <[kModel := VModel m]> (cache s)).
Proof.
  unfold getMotion, bind, gets, lift, ret, cache_item, count_load, set_cache,
    modify.
  intros Hrun.
  destruct (cache s !! kModel) as [v|] eqn:Hmodel; simpl in Hrun.
  - rewrite Hmodel in Hrun. left.
    destruct v; simplify_eq/=; try done.
    destruct segmentation as [seg|]; simplify_eq/=; try done.
    destruct sequence as [sq|]; simplify_eq/=; try done.
    destruct (preprocess sq seg rv myo) as [e|V]; simplify_eq/=; try done.
    by apply motion_loop_spec in Hrun as (Hc & _).
  - destruct load_model as [e|m]; simplify_eq/=; [by left|].
    right. split; [done|]. exists m.
    rewrite lookup_insert_eq in Hrun. simpl in Hrun.
    destruct segmentation as [seg|]; simplify_eq/=; try done.
    destruct sequence as [sq|]; simplify_eq/=; try done.
    destruct (preprocess sq seg rv myo) as [e|V]; simplify_eq/=; try done.
    by apply motion_loop_spec in Hrun as (Hc & _).
Qed.

(** The entries a computing run may add. *)
Lemma run_cache_step s r s' :
  runStrainPipeline s = (r, s') ->
  s' = s \/
  exists sq, ImgSequence (node s) = Some sq /\
    cache s !! kArt "strain" (GetID sq) = None /\
    forall k v, cache s !! k = Some v ->
      cache s' !! k = Some v \/
      (is_Some (cache s' !! k) /\
       (k = kArt "motion" (GetID sq) \/ k = kArt "aha" (GetID sq))).
Proof.
  intros Hrun. run_unfold Hrun.
  destruct (py_int (MyoLabel (node s))) as [e1|myo]; simplify_eq/=; [by left|].
  destruct (py_int (RVLabel (node s))) as [e1|rv]; simplify_eq/=; [by left|].
  destruct (ImgSequence (node s)) as [sq|] eqn:Hsq; simplify_eq/=; [|by left].
  destruct (cache s !! kArt "strain" (GetID sq)) as [v|] eqn:Hstrain;
    simplify_eq/=.
  { rewrite Hstrain in Hrun. simplify_eq. by left. }
  right. exists sq. split; [done|]. split; [done|].
  motion_cases Hrun Hm.
  all: assert (Hkeep : forall k v, cache s !! k = Some v -> cache sm !! k = Some v).
  all: try (intros k v Hk; apply getMotion_cache in Hm as [->|(Hnone & m' & ->)];
            simpl in *;
            first [done
                  | destruct (decide (k = kModel)) as [->|Hne];
                    [congruence|by rewrite lookup_insert_ne]]).
  { simplify_eq. intros k v Hk. left. auto. }
  assert (Hins : forall (c : gmap key artifact) k0 v0 k v,
    (k0 = kArt "motion" (GetID sq) \/ k0 = kArt "aha" (GetID sq)) ->
    (c !! k = Some v \/ (is_Some (c !! k) /\
       (k = kArt "motion" (GetID sq) \/ k = kArt "aha" (GetID sq)))) ->
    <[k0 := v0]> c !! k = Some v \/ (is_Some (<[k0 := v0]> c !! k) /\
       (k = kArt "motion" (GetID sq) \/ k = kArt "aha" (GetID sq)))).
  { intros c k0 v0 k v Hk0 Hk. destruct (decide (k0 = k)) as [->|Hne].
    - right. rewrite lookup_insert_eq. split; [eauto|done].
    - rewrite lookup_insert_ne by done. done. }
  destruct (SegSequence (node s)) as [seg|]; simplify_eq/=.
  2:{ intros k v Hk. apply Hins; auto. }
  destruct (getLocalCoords seg myo rv) as [e1|localCoords]; simplify_eq/=.
  { intros k v Hk. apply Hins; auto. }
  destruct (getAhaModel seg myo rv) as [e1|ahaModel]; simplify_eq/=.
  { intros k v Hk. apply Hins; auto. }
  destruct (getStrain motion ahaModel localCoords) as [e1|strain];
    simplify_eq/=.
  { intros k v Hk. apply Hins; auto. }
  rewrite lookup_insert_eq in Hrun. simplify_eq/=.
  intros k v Hk.
  destruct (decide (kArt "strain" (GetID sq) = k)) as [<-|Hne]; [congruence|].
  rewrite lookup_insert_ne by done. apply Hins; auto.
Qed.


Lemma run_cache_new s r s' k v :
  runStrainPipeline s = (r, s') ->
  cache s' !! k = Some v -> cache s !! k = Some v \/ entry_ok k v.
Proof.
  intros Hrun. run_unfold Hrun.
  destruct (py_int (MyoLabel (node s))) as [e1|myo]; simplify_eq/=; [by left|].
  destruct (py_int (RVLabel (node s))) as [e1|rv]; simplify_eq/=; [by left|].
  destruct (ImgSequence (node s)) as [sq|] eqn:Hsq; simplify_eq/=; [|by left].
  destruct (cache s !! kArt "strain" (GetID sq)) as [v0|] eqn:Hstrain;
    simplify_eq/=.
  { rewrite Hstrain in Hrun. simplify_eq. by left. }
  motion_cases Hrun Hm.
  all: assert (Hm' : forall k v, cache sm !! k = Some v ->
                       cache s !! k = Some v \/ entry_ok k v).
  all: try (intros k' v' Hk; apply getMotion_cache in Hm as [Hc|(Hnone & m' & Hc)];
            rewrite Hc in Hk; simpl in *;
            first [by left
                  | destruct (decide (kModel = k')) as [<-|Hne];
                    [rewrite lookup_insert_eq in Hk; simplify_eq;
                     right; left; eauto
                    |rewrite lookup_insert_ne in Hk by done; by left]]).
  { simplify_eq. auto. }
  assert (Hins : forall (c : gmap key artifact) k0 v0,
    entry_ok k0 v0 ->
    (forall k v, c !! k = Some v -> cache s !! k = Some v \/ entry_ok k v) ->
    forall k v, <[k0 := v0]> c !! k = Some v ->
                cache s !! k = Some v \/ entry_ok k v).
  { intros c k0 v0 H0 Hc k1 v1 Hk. destruct (decide (k0 = k1)) as [->|Hne].
    - rewrite lookup_insert_eq in Hk. simplify_eq. by right.
    - rewrite lookup_insert_ne in Hk by done. auto. }
  assert (Hmotion : entry_ok (kArt "motion" (GetID sq)) (VMotion motion))
    by (right; left; eauto).
  destruct (SegSequence (node s)) as [seg|]; simplify_eq/=.
  2:{ eapply Hins; eauto. }
  destruct (getLocalCoords seg myo rv) as [e1|localCoords]; simplify_eq/=.
  { eapply Hins; eauto. }
  destruct (getAhaModel seg myo rv) as [e1|ahaModel]; simplify_eq/=.
  { eapply Hins; eauto. }
  assert (Haha : entry_ok (kArt "aha" (GetID sq)) (VAha ahaModel localCoords))
    by (right; right; left; eauto).
  destruct (getStrain motion ahaModel localCoords) as [e1|strain];
    simplify_eq/=.
  { eapply Hins; [exact Haha|]. eapply Hins; eauto. }
  rewrite lookup_insert_eq in Hrun. simplify_eq/=.
  eapply Hins; [right; right; right; eauto 10|].
  eapply Hins; [exact Haha|]. eapply Hins; eauto.
Qed.

Lemma exec_cache_new c s k v :
  cache (exec c s) !! k = Some v -> cache s !! k = Some v \/ entry_ok k v.
Proof.
  destruct c as [n| |direction kind zone|key_]; simpl.
  - auto.
  - destruct (runStrainPipeline s) as [r s'] eqn:Hrun. simpl.
    by eapply run_cache_new.
  - rewrite getStrainSeries_state. auto.
  - rewrite getCalculatedResult_state. auto.
Qed.

Lemma lifetime_entries cs k v :
  cache (lifetime cs) !! k = Some v -> entry_ok k v.
Proof.
  unfold lifetime. revert k v. induction cs as [|c cs IH] using rev_ind;
    intros k v Hk.
  - simpl in Hk. by rewrite lookup_empty in Hk.
  - rewrite fold_left_app in Hk. simpl in Hk.
    apply exec_cache_new in Hk as [Hk|Hk]; auto.
Qed.

(** A run that returns, returns the three matrices of a strain. *)
Lemma run_result_shape cs r s1 :
  runStrainPipeline (lifetime cs) = (Ok r, s1) ->
  exists ier iec iel, r = VStrain ier iec iel.
Proof.
  intros Hrun.
  destruct (run_ok _ _ _ Hrun) as (sq & myo & rv & _ & _ & _ & _ & Hr & _).
  assert (Hs1 : s1 = lifetime (cs ++ [CallRun])).
  { unfold lifetime. rewrite fold_left_app. simpl. fold (lifetime cs).
    by rewrite Hrun. }
  rewrite Hs1 in Hr. apply lifetime_entries in Hr.
  destruct Hr as [[Hk _]|[(id & m & Hk & _)|[(id & a & l & Hk & _)|
                  (id & ier & iec & iel & _ & ->)]]];
    try discriminate Hk. eauto.
Qed.

(** X10: at any point of the life of the process every cache entry has the
    shape the pipeline stores: a model under ["model"], and under
    [(kind, seqId)] the artifact of that kind; so a run that returns,
    returns the three matrices of a strain. *)
Theorem cache_entries cs :
  (forall k v, cache (lifetime cs) !! k = Some v -> entry_ok k v) /\
  (forall r s1, runStrainPipeline (lifetime cs) = (Ok r, s1) ->
     exists ier iec iel, r = VStrain ier iec iel).
Proof.
  split.
  - intros k v. apply lifetime_entries.
  - intros r s1. apply run_result_shape.
Qed.

Lemma exec_cache_keeps c s k v :
  cache s !! k = Some v ->
  is_Some (cache (exec c s) !! k) /\
  ((k = kModel \/ exists id, k = kArt "strain" id) ->
   cache (exec c s) !! k = Some v).
Proof.
  intros Hk. destruct c as [n| |direction kind zone|key_]; simpl.
  - eauto.
  - destruct (runStrainPipeline s) as [r s'] eqn:Hrun. simpl.
    apply run_cache_step in Hrun as [->|(sq & Hsq & Hnone & Hkeep)]; [eauto|].
    destruct (Hkeep k v Hk) as [Hs|[Hs Hor]]; [eauto|].
    split; [done|].
    intros [->|[id ->]]; destruct Hor as [Hor|Hor]; discriminate Hor.
  - rewrite getStrainSeries_state. eauto.
  - rewrite getCalculatedResult_state. eauto.
Qed.

(** X11: no call ever removes a cache key, and the model and the strain of
    a sequence identity, once stored, keep their value for the rest of the
    life of the process. *)
Theorem cache_persists cs cs' k v :
  cache (lifetime cs) !! k = Some v ->
  is_Some (cache (lifetime (cs ++ cs')) !! k) /\
  ((k = kModel \/ exists id, k = kArt "strain" id) ->
   cache (lifetime (cs ++ cs')) !! k = Some v).
Proof.
  intros Hk. induction cs' as [|c cs' IH] using rev_ind.
  - rewrite app_nil_r. eauto.
  - rewrite app_assoc. unfold lifetime in *. rewrite fold_left_app. simpl.
    destruct IH as [[v' Hv'] Hsame].
    destruct (exec_cache_keeps c _ k v' Hv') as [Hsome Hkeep].
    split; [done|]. intros Hshape. specialize (Hsame Hshape).
    rewrite Hsame in Hv'. simplify_eq. auto.
Qed.


(** X12: a run that raises leaves the status at the stage that failed: the
    logic is unchanged when a label or the sequence reference is invalid;
    when [getMotion] raised, the run raises the same exception, the status
    reads ["Measuring Motion"] and no entry of any sequence has changed;
    when [getMotion] returned and a later stage raised, the status reads
    ["Analyzing strain"] and the motion it returned is cached for the
    sequence. *)
Theorem failed_run_status s e s' :
  runStrainPipeline s = (Raise e, s') ->
  match py_int (MyoLabel (node s)), py_int (RVLabel (node s)),
        ImgSequence (node s) with
  | inr myo, inr rv, Some sq =>
      match getMotion (Some sq) (SegSequence (node s)) rv myo
              (_set_status "Measuring Motion" s).2 with
      | (inl em, _) =>
          e = em /\ Status (node s') = "Measuring Motion" /\
          forall k id, cache s' !! kArt k id = cache s !! kArt k id
      | (inr motion, _) =>
          Status (node s') = "Analyzing strain" /\
          cache s' !! kArt "motion" (GetID sq) = Some (VMotion motion)
      end
  | _, _, _ => s' = s
  end.
Proof.
  intros Hrun. pose proof (run_raises _ _ _ Hrun) as Hcases.
  destruct (py_int (MyoLabel (node s))) as [e1|myo]; [done|].
  destruct (py_int (RVLabel (node s))) as [e1|rv]; [done|].
  destruct (ImgSequence (node s)) as [sq|]; [|done].
  destruct Hcases as [Hnone Hcases].
  destruct (getMotion (Some sq) (SegSequence (node s)) rv myo
              (_set_status "Measuring Motion" s).2) as [[em|motion] sm] eqn:Hm;
    pose proof (getMotion_spec _ _ _ _ _ _ _ Hm) as (Hn & Hc & _ & _);
    simpl in Hn, Hc.
  - destruct Hcases as [-> ->]. rewrite Hn. repeat split.
    intros k id. by apply Hc.
  - destruct Hcases as (Hnode & Hmotion & _). by rewrite Hnode.
Qed.

(** X13: [setDefaultParameters] is idempotent, leaves the node references
    alone, fills exactly the parameters that are empty with their defaults
    and keeps every parameter that is set. *)
Theorem setDefaultParameters_spec (n : ParameterNode) :
  let n' := setDefaultParameters n in
  setDefaultParameters n' = n' /\
  ImgSequence n' = ImgSequence n /\ SegSequence n' = SegSequence n /\
  Status n' = (if str_not (Status n) then "Load images to start." else Status n) /\
  MyoLabel n' = (if str_not (MyoLabel n) then "2" else MyoLabel n) /\
  RVLabel n' = (if str_not (RVLabel n) then "1" else RVLabel n) /\
  hasStrain n' = (if str_not (hasStrain n) then "False" else hasStrain n).
Proof.
  destruct n as [img seg myo rv st hs]. cbv zeta.
  destruct st as [|c1 st], myo as [|c2 myo], rv as [|c3 rv], hs as [|c4 hs];
    repeat split; reflexivity.
Qed.


(** X14: after a run that returned, at any point of the life of the
    process, [getCalculatedResult("strain")] returns the run's result and
    every strain query with the widget's directions and zones returns a
    curve, leaving the logic as it is. *)
Theorem query_after_run cs r s1 :
  runStrainPipeline (lifetime cs) = (Ok r, s1) ->
  getCalculatedResult "strain" s1 = (Ok (Some r), s1) /\
  forall direction zone,
    direction ∈ ["Radial"; "Circumferential"; "Longitudinal"] ->
    zone ∈ ["Global"; "Apical"; "Mid"; "Basal"] ->
    exists curve, getStrainSeries direction "Strain" zone s1 = (Ok curve, s1).
Proof.
  intros Hrun.
  destruct (run_ok _ _ _ Hrun) as (sq & myo & rv & _ & Hsq1 & _ & _ & Hr & _).
  destruct (run_result_shape _ _ _ Hrun) as (ier & iec & iel & ->).
  split.
  - unfold getCalculatedResult, bind, gets, lift, ret. simpl.
    rewrite Hsq1. simpl. by rewrite Hr.
  - intros direction zone Hd Hz.
    assert (Hd' : exists a, (direction, a) ∈
              [("Radial", ier); ("Circumferential", iec); ("Longitudinal", iel)]).
    { rewrite !elem_of_cons, elem_of_nil in Hd.
      destruct Hd as [->|[->|[->|[]]]]; eexists; rewrite !elem_of_cons; eauto. }
    assert (Hz' : exists lo hi, (zone, (lo, hi)) ∈
              [("Global", (17, 17)); ("Basal", (0, 6)); ("Mid", (7, 13));
               ("Apical", (13, 17))]%Z).
    { rewrite !elem_of_cons, elem_of_nil in Hz.
      destruct Hz as [->|[->|[->|[->|[]]]]]; do 2 eexists;
        rewrite !elem_of_cons; eauto 6. }
    destruct Hd' as (a & Ha). destruct Hz' as (lo & hi & Hz').
    eexists. by eapply SeriesFacts.series_slice.
Qed.

(** X15: while nothing is cached under [(key, seqId)] for the active
    sequence, the save handler of that key shows ["Strain needs to be
    calculated first"], whatever the file dialog would answer, and leaves
    the logic as it is. *)
Theorem save_before_compute s sq key_ filename :
  ImgSequence (node s) = Some sq ->
  cache s !! kArt key_ (GetID sq) = None ->
  onSave key_ filename s
  = (Ok (MessageBox "Strain needs to be calculated first"), s).
Proof.
  intros Hsq Hk. unfold onSave, getCalculatedResult, bind, gets, lift, ret.
  simpl. rewrite Hsq. simpl. by rewrite Hk.
Qed.

(** X16: after a run that had to compute and returned, the GUI update
    enables the report, visualization and the three save widgets and shows
    ["Ready for plotting"], and with a non-empty file name the strain and
    AHA save handlers save the cached artifacts. *)
Theorem gui_after_run s r s1 sq :
  ImgSequence (node s) = Some sq ->
  cache s !! kArt "strain" (GetID sq) = None ->
  runStrainPipeline s = (Ok r, s1) ->
  let gui := updateGUIFromParameterNode (node s1) in
  strainReportButton gui = true /\ visualizationTabs gui = true /\
  saveStrainButton gui = true /\ saveMotionButton gui = true /\
  saveAHAButton gui = true /\ statusLabel gui = "Ready for plotting" /\
  forall filename, filename <> "" ->
    onSaveStrain filename s1 = (Ok (Saved filename r), s1) /\
    exists ahaModel localCoords,
      onSaveAha filename s1 = (Ok (Saved filename (VAha ahaModel localCoords)), s1).
Proof.
  intros Hsq Hnone Hrun.
  destruct (run_ok _ _ _ Hrun) as (sq' & _ & _ & Hsq0 & Hsq1 & _).
  destruct (run_fresh _ _ _ _ Hsq Hnone Hrun)
    as (motion & ahaModel & localCoords & strain & -> & _ & _ & _ & Haha & Hr & Hst & Hhs).
  rewrite Hsq in Hsq0. simplify_eq.
  unfold updateGUIFromParameterNode. simpl. rewrite Hhs, Hst. simpl.
  repeat split; try done.
  - unfold onSaveStrain, onSave, getCalculatedResult, bind, gets, lift, ret.
    simpl. rewrite Hsq1. simpl. rewrite Hr. simpl.
    by destruct filename.
  - exists ahaModel, localCoords.
    unfold onSaveAha, onSave, getCalculatedResult, bind, gets, lift, ret.
    simpl. rewrite Hsq1. simpl. rewrite Haha. simpl.
    by destruct filename.
Qed.

End More.

(** X8, witness: the motion of the stub's sequence. *)
Lemma getMotion_frames_witness :
  exists motion s',
    @getMotion (Stub.stages false) (Some Stub.sequence3) (Some tt) 1 2
      (Stub.logic3 false) = (Ok motion, s') /\
    length motion = 3.
Proof.
  assert (Hok : match (@getMotion (Stub.stages false) (Some Stub.sequence3)
                         (Some tt) 1 2 (Stub.logic3 false)).1 with
                | inl _ => false | inr _ => true end = true)
    by (vm_compute; reflexivity).
  destruct (@getMotion (Stub.stages false) (Some Stub.sequence3) (Some tt) 1 2
              (Stub.logic3 false)) as [[e|motion] s'] eqn:Hrun.
  - discriminate Hok.
  - exists motion, s'. split; [reflexivity|].
    destruct (getMotion_frames (H:=Stub.stages false) _ _ _ _ _ _ _ Hrun)
      as (sq & seg & m & V & Hsq & _ & _ & _ & Hlen & _).
    injection Hsq as <-. exact Hlen.
Defined.

(** X9, witness: the first run of the stub. *)
Lemma run_fresh_success_witness :
  exists r s1,
    @runStrainPipeline (Stub.stages false) (Stub.logic3 false) = (Ok r, s1) /\
    Status (node s1) = "Ready for plotting" /\ hasStrain (node s1) = "True".
Proof.
  assert (Hok : match (@runStrainPipeline (Stub.stages false)
                         (Stub.logic3 false)).1 with
                | inl _ => false | inr _ => true end = true)
    by (vm_compute; reflexivity).
  destruct (@runStrainPipeline (Stub.stages false) (Stub.logic3 false))
    as [[e|r] s1] eqn:Hrun.
  - discriminate Hok.
  - exists r, s1. split; [reflexivity|].
    destruct (run_fresh_success (H:=Stub.stages false) (Stub.logic3 false) r s1
                Stub.sequence3 eq_refl eq_refl Hrun)
      as (motion & ahaModel & localCoords & strain & _ & _ & _ & _ & _ & _ & _ & _
          & Hst & Hhs).
    exact (conj Hst Hhs).
Defined.

(** X10, witness: the model entry of the stub after a run that raised. *)
Lemma cache_entries_witness :
  @entry_ok (Stub.stages true) kModel (@VModel (Stub.stages true) tt).
Proof.
  apply (proj1 (cache_entries (H:=Stub.stages true)
                  [CallSetNode (Stub.node3 true); CallRun]) kModel
           (@VModel (Stub.stages true) tt)).
  vm_compute. reflexivity.
Defined.

(** X11, witness: the model loaded by a run of the stub that raised stays
    through a query and a second run. *)
Lemma cache_persists_witness :
  cache (@lifetime (Stub.stages true)
           [CallSetNode (Stub.node3 true); CallRun; CallResult "motion"; CallRun])
    !! kModel = Some (@VModel (Stub.stages true) tt).
Proof.
  refine (proj2 (cache_persists (H:=Stub.stages true)
            [CallSetNode (Stub.node3 true); CallRun]
            [CallResult "motion"; CallRun] kModel
            (@VModel (Stub.stages true) tt) _) _).
  - vm_compute. reflexivity.
  - by left.
Defined.

(** X12, witness: the stub whose [getStrain] raises. *)
Lemma failed_run_status_witness :
  let s := Stub.logic3 true in
  let s' := (runStrainPipeline s).2 in
  Status (node s') = "Analyzing strain" /\
  cache s' !! kArt "motion" "seq"
  = Some (@VMotion (Stub.stages true) (dataNodes Stub.sequence3)).
Proof.
  assert (Hrun : @runStrainPipeline (Stub.stages true) (Stub.logic3 true)
                 = (Raise (External "getStrain"),
                    (runStrainPipeline (Stub.logic3 true)).2))
    by (vm_compute; reflexivity).
  exact (failed_run_status (H:=Stub.stages true) (Stub.logic3 true)
           (External "getStrain") _ Hrun).
Defined.

(** X14, witness: queries after the first run of the stub. *)
Lemma query_after_run_witness :
  exists r s1,
    @runStrainPipeline (Stub.stages false) (Stub.logic3 false) = (Ok r, s1) /\
    getCalculatedResult "strain" s1 = (Ok (Some r), s1) /\
    exists curve, getStrainSeries "Radial" "Strain" "Mid" s1 = (Ok curve, s1).
Proof.
  assert (Hok : match (@runStrainPipeline (Stub.stages false)
                         (Stub.logic3 false)).1 with
                | inl _ => false | inr _ => true end = true)
    by (vm_compute; reflexivity).
  destruct (@runStrainPipeline (Stub.stages false) (Stub.logic3 false))
    as [[e|r] s1] eqn:Hrun.
  - discriminate Hok.
  - exists r, s1. split; [reflexivity|].
    destruct (query_after_run (H:=Stub.stages false)
                [CallSetNode (Stub.node3 false)] r s1 Hrun) as [Hres Hseries].
    split; [exact Hres|].
    apply Hseries.
    + apply elem_of_cons. by left.
    + apply elem_of_cons. right. apply elem_of_cons. right.
      apply elem_of_cons. by left.
Defined.

(** X15, witness: saving the AHA model on the stub before any run. *)
Lemma save_before_compute_witness :
  @onSaveAha (Stub.stages false) "out" (Stub.logic3 false)
  = (Ok (MessageBox "Strain needs to be calculated first"), Stub.logic3 false).
Proof.
  apply (save_before_compute (H:=Stub.stages false) (Stub.logic3 false)
           Stub.sequence3 "aha" "out").
  - reflexivity.
  - reflexivity.
Defined.

(** X16, witness: the GUI after the first run of the stub. *)
Lemma gui_after_run_witness :
  exists r s1,
    @runStrainPipeline (Stub.stages false) (Stub.logic3 false) = (Ok r, s1) /\
    saveStrainButton (updateGUIFromParameterNode (node s1)) = true /\
    onSaveStrain "out" s1 = (Ok (Saved "out" r), s1).
Proof.
  assert (Hok : match (@runStrainPipeline (Stub.stages false)
                         (Stub.logic3 false)).1 with
                | inl _ => false | inr _ => true end = true)
    by (vm_compute; reflexivity).
  destruct (@runStrainPipeline (Stub.stages false) (Stub.logic3 false))
    as [[e|r] s1] eqn:Hrun.
  - discriminate Hok.
  - exists r, s1. split; [reflexivity|].
    destruct (gui_after_run (H:=Stub.stages false) (Stub.logic3 false) r s1
                Stub.sequence3 eq_refl eq_refl Hrun)
      as (_ & _ & Hb & _ & _ & _ & Hsave).
    split; [exact Hb|].
    exact (proj1 (Hsave "out" ltac:(discriminate))).
Defined.

End RunFacts.

(** ** Orientation, centroids and the region of interest *)

Module GeometryFacts.
Import Py Geometry ListFacts.

Lemma argmax_from_spec pre a best bestv :
  best < length pre ->
  pre !! best = Some bestv ->
  (forall z v, pre !! z = Some v -> (v <= bestv)%Z) ->
  (forall z v, z < best -> pre !! z = Some v -> (v < bestv)%Z) ->
  let m := Np.argmax_from (length pre) best bestv a in
  exists mv, (pre ++ a) !! m = Some mv /\
    (forall z v, (pre ++ a) !! z = Some v -> (v <= mv)%Z) /\
    (forall z v, z < m -> (pre ++ a) !! z = Some v -> (v < mv)%Z).
Proof.
  revert pre best bestv. induction a as [|x a IH]; intros pre best bestv Hb Hbest Hle Hlt.
  - simpl. rewrite app_nil_r. eauto.
  - simpl. destruct (Z.ltb_spec bestv x) as [Hx|Hx].
    + specialize (IH (pre ++ [x]) (length pre) x).
      rewrite length_app, <- app_assoc in IH. simpl in IH.
      replace (length pre + 1) with (S (length pre)) in IH by lia.
      apply IH.
      * lia.
      * rewrite lookup_app_r by lia. by rewrite Nat.sub_diag.
      * intros z v Hz. apply lookup_app_Some in Hz as [Hz|[Hge Hz]].
        -- specialize (Hle z v Hz). lia.
        -- destruct (z - length pre) as [|?]; simplify_eq/=. lia.
      * intros z v Hzl Hz. rewrite lookup_app_l in Hz by lia.
        specialize (Hle z v Hz). lia.
    + specialize (IH (pre ++ [x]) best bestv).
      rewrite length_app, <- app_assoc in IH. simpl in IH.
      replace (length pre + 1) with (S (length pre)) in IH by lia.
      apply IH.
      * lia.
      * by rewrite lookup_app_l by lia.
      * intros z v Hz. apply lookup_app_Some in Hz as [Hz|[Hge Hz]].
        -- eauto.
        -- destruct (z - length pre) as [|?]; simplify_eq/=. lia.
      * intros z v Hzl Hz. rewrite lookup_app_l in Hz by lia. eauto.
Qed.

Lemma argmax_spec a :
  match Np.argmax a with
  | None => a = []
  | Some m => exists mv, a !! m = Some mv /\
      (forall z v, a !! z = Some v -> (v <= mv)%Z) /\
      (forall z v, z < m -> a !! z = Some v -> (v < mv)%Z)
  end.
Proof.
  destruct a as [|x a]; [done|]. simpl.
  apply (argmax_from_spec [x] a 0 x); simpl; try lia; try done.
  intros [|z] v Hz; simplify_eq/=. lia.
Qed.

(** X17: [maxRv] is the first slice that holds the largest number of
    voxels of the right-ventricle label: no slice holds more and every
    earlier slice holds fewer; on a volume without slices [np.argmax] raises
    [ValueError]. *)
Theorem maxRv_spec (segArray : volume) (rvLabel : Z) :
  match maxRv segArray rvLabel with
  | Raise e => e = ValueError /\ segArray = []
  | Ok m =>
      exists c, rv_count segArray rvLabel m = Some c /\
        (forall z c', rv_count segArray rvLabel z = Some c' -> c' <= c) /\
        (forall z c', z < m -> rv_count segArray rvLabel z = Some c' -> c' < c)
  end.
Proof.
  unfold maxRv.
  pose proof (argmax_spec (sum_12 (eq_label rvLabel segArray))) as Hspec.
  assert (Hcount : forall z, sum_12 (eq_label rvLabel segArray) !! z
                     = Z.of_nat <$> rv_count segArray rvLabel z).
  { intros z. unfold sum_12, eq_label, rv_count.
    cbv delta [volume mask] in *. rewrite !lookup_map.
    by destruct (segArray !! z). }
  destruct (Np.argmax _) as [m|]; simpl.
  - destruct Hspec as (mv & Hm & Hle & Hlt).
    rewrite Hcount in Hm. apply fmap_Some in Hm as (c & Hc & ->).
    exists c. split; [done|]. split.
    + intros z c' Hz. specialize (Hle z (Z.of_nat c')).
      rewrite Hcount, Hz in Hle. specialize (Hle eq_refl). lia.
    + intros z c' Hzm Hz. specialize (Hlt z (Z.of_nat c') Hzm).
      rewrite Hcount, Hz in Hlt. specialize (Hlt eq_refl). lia.
  - split; [done|]. unfold sum_12, eq_label in Hspec.
    by destruct segArray.
Qed.

Lemma argmax_from_zero i best a :
  Forall (fun v => v = 0%Z) a -> Np.argmax_from i best 0 a = best.
Proof.
  intros Ha. revert i. induction Ha as [|x a -> _ IH]; intros i; [done|].
  simpl. apply IH.
Qed.

Lemma npixels_zero (sl : list (list bool)) :
  Forall (Forall (fun b : bool => b = false)) sl -> npixels sl = 0.
Proof.
  intros Hsl. unfold npixels.
  induction Hsl as [|row sl Hrow _ IH]; [done|]. simpl. rewrite IH.
  induction Hrow as [|b row -> _ IH']; [done|]. simpl in *. lia.
Qed.

Lemma maxRv_without_rv (segArray : volume) (rvLabel : Z) :
  segArray <> [] ->
  Forall (Forall (Forall (fun v => v <> rvLabel))) segArray ->
  maxRv segArray rvLabel = Ok 0.
Proof.
  intros Hne Hno. unfold maxRv.
  assert (Hz : Forall (fun v => v = 0%Z) (sum_12 (eq_label rvLabel segArray))).
  { unfold sum_12, eq_label. rewrite map_map. apply Forall_map.
    eapply Forall_impl; [exact Hno|]. intros sl Hsl. simpl.
    rewrite npixels_zero; [done|].
    apply Forall_map. eapply Forall_impl; [exact Hsl|]. intros row Hrow. simpl in *.
    apply Forall_map. eapply Forall_impl; [exact Hrow|]. intros v Hv. simpl.
    by apply Z.eqb_neq. }
  destruct (sum_12 (eq_label rvLabel segArray)) as [|x a] eqn:Hsum.
  { destruct segArray; [done|discriminate Hsum]. }
  simpl. apply Forall_cons in Hz as [-> Hz]. by rewrite argmax_from_zero.
Qed.

(** X18: on a segmentation with at least one slice and no voxel of the
    right-ventricle label, [maxRv] is 0, so [_lvCenter] is not inverted and
    [_getOrientation] returns the volume as it is, while [getLocalCoords]
    is inverted, with longitudinal axis [[0, 0, -1]], as soon as there are
    two slices. *)
Theorem orientation_without_rv {A} (V : list A) (segArray : volume) (rvLabel : Z) :
  segArray <> [] ->
  Forall (Forall (Forall (fun v => v <> rvLabel))) segArray ->
  _lvCenter_isInverted segArray rvLabel = Ok false /\
  _getOrientation V segArray rvLabel = Ok V /\
  getLocalCoords_isInverted segArray rvLabel
  = Ok (bool_decide (2 <= length segArray)) /\
  getLocalCoords_c_l segArray rvLabel
  = Ok [0%Z; 0%Z; if bool_decide (2 <= length segArray) then (-1)%Z else 1%Z].
Proof.
  intros Hne Hno.
  unfold getLocalCoords_c_l, getLocalCoords_isInverted, _lvCenter_isInverted,
    _getOrientation.
  rewrite maxRv_without_rv by done. unfold res_bind.
  assert (Hhalf : (0 <? length segArray / 2) = bool_decide (2 <= length segArray)).
  { destruct (Nat.ltb_spec 0 (length segArray / 2)) as [Hlt|Hge];
      symmetry; [apply bool_decide_eq_true|apply bool_decide_eq_false].
    - destruct (le_lt_dec 2 (length segArray)) as [|Hs]; [done|].
      rewrite Nat.div_small in Hlt by lia. lia.
    - intros Hle. pose proof (Nat.Div0.div_le_mono 2 (length segArray) 2 Hle)
        as Hd. rewrite Nat.div_same in Hd by lia. lia. }
  rewrite Hhalf.
  replace (length segArray / 2 <? 0) with false
    by (symmetry; apply Nat.ltb_ge; lia).
  repeat split.
Qed.

(** X19: the inversion tests of [getLocalCoords] ([<]) and of [_lvCenter]
    ([>]) never both hold; [_getOrientation] reverses the slices exactly
    when the test of [_lvCenter] holds; and both tests fail exactly when
    [maxRv] is the middle slice [shape[0] // 2]. *)
Theorem orientation_exclusive {A} (V : list A) (segArray : volume) (rvLabel : Z)
    (a b : bool) :
  getLocalCoords_isInverted segArray rvLabel = Ok a ->
  _lvCenter_isInverted segArray rvLabel = Ok b ->
  a && b = false /\
  _getOrientation V segArray rvLabel = Ok (if b then rev V else V) /\
  (a = false -> b = false -> maxRv segArray rvLabel = Ok (length segArray / 2)).
Proof.
  unfold getLocalCoords_isInverted, _lvCenter_isInverted, _getOrientation.
  destruct (maxRv segArray rvLabel) as [e|m]; unfold res_bind;
    intros Ha Hb; simplify_eq.
  split; [|split; [done|]].
  - destruct (Nat.ltb_spec m (length segArray / 2)),
      (Nat.ltb_spec (length segArray / 2) m); simpl; lia || done.
  - intros Ha Hb. apply Nat.ltb_ge in Ha, Hb. f_equal. lia.
Qed.

Lemma filter_rev {A} (P : A -> Prop) `{!forall x, Decision (P x)} (l : list A) :
  filter P (rev l) = rev (filter P l).
Proof.
  induction l as [|x l IH]; [done|]. simpl.
  rewrite filter_app, IH, filter_cons.
  destruct (decide (P x)); simpl.
  - by rewrite filter_cons_True, filter_nil by done.
  - rewrite filter_cons_False, filter_nil by done. by rewrite app_nil_r.
Qed.

Section LvCenterFacts.
Context (center_int : mask -> Z * Z)
        (center_of_mass : list (list bool) -> float * float).

Lemma lvCenter_loop_spec by_slice zs myo cm acc :
  lvCenter_loop center_of_mass by_slice zs myo cm acc
  = acc ++ map (fun z => (z, if by_slice then center_of_mass (myo !!! z) else cm))
             (filter (fun z => 0 < npixels (myo !!! z)) zs).
Proof.
  revert cm acc. induction zs as [|z zs IH]; intros cm acc; simpl.
  - by rewrite app_nil_r.
  - rewrite filter_cons.
    destruct (Nat.ltb_spec 0 (npixels (myo !!! z))) as [Hz|Hz].
    + rewrite decide_True by done. rewrite IH, <- app_assoc. simpl.
      by destruct by_slice.
    + rewrite decide_False by lia. apply IH.
Qed.

(** X20: when [_lvCenter] returns, its rows are those of the slices of the
    cropped mask that hold myocardium, in descending slice order, or in
    ascending order when inverted; each row carries the centroid of its own
    slice with [by_slice], and the centroid of the middle slice otherwise. *)
Theorem lvCenter_order segArray myoLabel rvLabel by_slice l :
  _lvCenter center_int center_of_mass segArray myoLabel rvLabel by_slice = Ok l ->
  let myo := _cropROI (eq_label myoLabel segArray)
               (center_int (eq_label myoLabel segArray)) (128, 128)%Z in
  let zs := filter (fun z => 0 < npixels (myo !!! z)) (seq 0 (length myo)) in
  exists isInverted mid,
    _lvCenter_isInverted segArray rvLabel = Ok isInverted /\
    round (Np.of_nat (length myo) / 2) = Ok mid /\
    l = map (fun z => (z, if by_slice then center_of_mass (myo !!! z)
                          else center_of_mass (myo !!! Z.to_nat mid)))
          (if isInverted then zs else rev zs).
Proof.
  intros Hl myo zs. unfold _lvCenter in Hl. fold myo in Hl.
  destruct (_lvCenter_isInverted segArray rvLabel) as [e|isInverted];
    [discriminate Hl|]. simpl in Hl.
  destruct (round (Np.of_nat (length myo) / 2)) as [e|mid];
    [discriminate Hl|]. simpl in Hl.
  destruct (item myo (Z.to_nat mid)) as [e|sl_mid] eqn:Hmid;
    [discriminate Hl|]. simpl in Hl.
  assert (Hsl : myo !!! Z.to_nat mid = sl_mid).
  { unfold item in Hmid. apply list_lookup_total_correct.
    destruct (myo !! Z.to_nat mid); simpl in Hmid; congruence. }
  rewrite lvCenter_loop_spec in Hl. simpl in Hl.
  rewrite filter_rev in Hl. fold zs in Hl. clear Hmid. subst sl_mid.
  exists isInverted, mid. split; [done|]. split; [done|].
  destruct isInverted.
  - fold zs in Hl.
    match type of Hl with context [map ?f (rev ?z)] =>
      destruct (map f (rev z)) as [|c cs] eqn:Hmap end; [discriminate Hl|].
    injection Hl as <-. change (rev cs ++ [c]) with (rev (c :: cs)).
    rewrite <- Hmap, map_rev. by rewrite rev_involutive.
  - by injection Hl as <-.
Qed.

End LvCenterFacts.

Lemma slice_length_le {A} (lo hi : Z) (a : list A) :
  (lo <= hi)%Z -> length (slice lo hi a) <= Z.to_nat (hi - lo).
Proof.
  intros Hle. unfold slice. rewrite length_take, length_drop.
  destruct (Z.ltb_spec lo 0), (Z.ltb_spec hi 0); lia.
Qed.

Lemma slice_length_inside {A} (lo hi : Z) (a : list A) :
  (0 <= lo <= hi)%Z -> (hi <= Z.of_nat (length a))%Z ->
  length (slice lo hi a) = Z.to_nat (hi - lo).
Proof.
  intros Hle Hhi. unfold slice. rewrite length_take, length_drop.
  destruct (Z.ltb_spec lo 0), (Z.ltb_spec hi 0); lia.
Qed.

Lemma slice_wraps {A} (lo hi : Z) (a : list A) :
  (lo < 0 <= hi)%Z -> (hi <= lo + Z.of_nat (length a))%Z ->
  slice lo hi a = [].
Proof.
  intros Hlo Hhi. apply length_zero_iff_nil.
  unfold slice. rewrite length_take, length_drop.
  destruct (Z.ltb_spec lo 0), (Z.ltb_spec hi 0); lia.
Qed.

(** X21: [_cropROI] keeps the number of slices and returns at most
    [2 * (sy // 2)] rows of at most [2 * (sx // 2)] voxels; exactly that
    many when the centre is at least half the size away from the borders;
    and rows without voxels when the centre is closer than [sx // 2] to the
    low border of an image at least as wide as the region, because the
    negative lower bound of the slice counts from the end. *)
Theorem cropROI_shape {A} (img : list (list (list A))) (cx cy sx sy : Z)
    (H W : nat) :
  (0 <= sx)%Z -> (0 <= sy)%Z ->
  Forall (fun sl => length sl = H /\ Forall (fun row => length row = W) sl) img ->
  let out := _cropROI img (cx, cy) (sx, sy) in
  length out = length img /\
  Forall (fun sl => length sl <= Z.to_nat (2 * (sy / 2)) /\
            Forall (fun row => length row <= Z.to_nat (2 * (sx / 2))) sl) out /\
  ((sx / 2 <= cx <= Z.of_nat W - sx / 2)%Z ->
   (sy / 2 <= cy <= Z.of_nat H - sy / 2)%Z ->
   Forall (fun sl => length sl = Z.to_nat (2 * (sy / 2)) /\
            Forall (fun row => length row = Z.to_nat (2 * (sx / 2))) sl) out) /\
  ((0 <= cx < sx / 2)%Z -> (2 * (sx / 2) <= Z.of_nat W)%Z ->
   Forall (Forall (fun row => row = [])) out).
Proof.
  intros Hsx Hsy Himg out. unfold out, _cropROI.
  assert (Hx : (0 <= sx / 2)%Z) by (apply Z.div_pos; lia).
  assert (Hy : (0 <= sy / 2)%Z) by (apply Z.div_pos; lia).
  split; [by rewrite length_map|]. split; [|split].
  - apply Forall_map, Forall_forall. intros sl _. simpl. split.
    + rewrite length_map. etrans; [apply slice_length_le; lia|]. lia.
    + apply Forall_map, Forall_forall. intros row _. simpl.
      etrans; [apply slice_length_le; lia|]. lia.
  - intros Hcx Hcy. apply Forall_map. eapply Forall_impl; [exact Himg|].
    intros sl [Hlen Hrows]. simpl. split.
    + rewrite length_map, slice_length_inside by lia. f_equal. lia.
    + apply Forall_map.
      assert (Hsub : Forall (fun row => length row = W)
                (slice (cy - sy / 2) (cy + sy / 2) sl)).
      { unfold slice. by apply Forall_take, Forall_drop. }
      eapply Forall_impl; [exact Hsub|]. intros row Hrow. simpl in *.
      rewrite slice_length_inside by lia. f_equal. lia.
  - intros Hcx HW. apply Forall_map. eapply Forall_impl; [exact Himg|].
    intros sl [Hlen Hrows]. simpl. apply Forall_map.
    assert (Hsub : Forall (fun row => length row = W)
              (slice (cy - sy / 2) (cy + sy / 2) sl)).
    { unfold slice. by apply Forall_take, Forall_drop. }
    eapply Forall_impl; [exact Hsub|]. intros row Hrow. simpl in *.
    apply slice_wraps; lia.
Qed.

(** X18, witness: four slices without right ventricle. *)
Lemma orientation_without_rv_witness :
  getLocalCoords_isInverted Examples.no_rv 1 = Ok true /\
  _lvCenter_isInverted Examples.no_rv 1 = Ok false.
Proof.
  destruct (orientation_without_rv (@nil nat) Examples.no_rv 1) as (Hl & _ & Hg & _).
  - discriminate.
  - repeat (apply Forall_cons_2 || apply Forall_nil_2); discriminate.
  - exact (conj Hg Hl).
Defined.

(** X19, witness: the right ventricle in the first of four slices. *)
Lemma orientation_exclusive_witness :
  _getOrientation [1; 2; 3; 4] Examples.rv_first 1 = Ok [1; 2; 3; 4].
Proof.
  exact (proj1 (proj2 (orientation_exclusive [1; 2; 3; 4] Examples.rv_first 1
                         true false eq_refl eq_refl))).
Defined.

(** X20, witness: myocardium in slices 0, 1 and 3 and no right ventricle. *)
Lemma lvCenter_order_witness :
  exists l,
    _lvCenter Examples.center_int Examples.center_of_mass Examples.no_rv 2 1 false
    = Ok l /\ map fst l = [3; 1; 0].
Proof.
  destruct (_lvCenter Examples.center_int Examples.center_of_mass
              Examples.no_rv 2 1 false) as [e|l] eqn:Hl.
  - vm_compute in Hl. discriminate Hl.
  - exists l. split; [reflexivity|].
    destruct (lvCenter_order _ _ _ _ _ _ _ Hl) as (inv & mid & Hinv & _ & ->).
    vm_compute in Hinv. injection Hinv as <-. reflexivity.
Defined.

(** X21, witness: a region of 2 by 2 about the centre of a slice of two
    rows of four voxels. *)
Lemma cropROI_shape_witness :
  _cropROI Examples.slice_2x4 (2, 1)%Z (2, 2)%Z = [[[2; 3]; [6; 7]]]%Z /\
  Forall (fun sl : list (list Z) => length sl = 2 /\
            Forall (fun row => length row = 2) sl)
    (_cropROI Examples.slice_2x4 (2, 1)%Z (2, 2)%Z).
Proof.
  split; [reflexivity|].
  refine (proj1 (proj2 (proj2 (cropROI_shape Examples.slice_2x4 2 1 2 2 2 4
                                 _ _ _))) _ _).
  - lia.
  - lia.
  - repeat (apply Forall_cons_2 || apply Forall_nil_2 || split); reflexivity.
  - vm_compute. split; discriminate.
  - vm_compute. split; discriminate.
Defined.

End GeometryFacts.

(** ** The AHA classifier *)

Module AHAFacts.
Import Py Geometry AHA ListFacts.
Local Open Scope float_scope.

Lemma SFcompare_antisym x y c :
  SFcompare x y = Some c -> SFcompare y x = Some (CompOpp c).
Proof.
  destruct x as [sx|sx| |sx mx ex], y as [sy|sy| |sy my ey]; simpl;
    try discriminate; intros [= <-];
    try (destruct sx; reflexivity); try (destruct sy; reflexivity);
    try (destruct sx, sy; reflexivity).
  assert (Ha : Pos.compare_cont Eq my mx = CompOpp (Pos.compare_cont Eq mx my))
    by (symmetry; apply (Pos.compare_cont_antisym mx my Eq)).
  destruct sx, sy; try reflexivity.
  - rewrite (Z.compare_antisym ex ey), Ha.
    by destruct (ex ?= ey)%Z, (Pos.compare_cont Eq mx my).
  - rewrite (Z.compare_antisym ex ey), Ha.
    by destruct (ex ?= ey)%Z, (Pos.compare_cont Eq mx my).
Qed.

Lemma leb_total x y :
  (x <=? x) = true -> (y <=? y) = true -> (x <=? y) || (y <=? x) = true.
Proof.
  rewrite !leb_spec. unfold SFleb. intros Hx Hy.
  destruct (SFcompare (Prim2SF x) (Prim2SF y)) as [c|] eqn:Hc.
  - rewrite (SFcompare_antisym _ _ _ Hc). by destruct c.
  - exfalso. destruct (Prim2SF x) as [sx|sx| |sx mx ex],
      (Prim2SF y) as [sy|sy| |sy my ey]; simpl in *; try discriminate.
Qed.

Lemma leb_refl_l x y : (x <=? y) = true -> (x <=? x) = true.
Proof.
  rewrite !leb_spec. unfold SFleb.
  destruct (Prim2SF x) as [sx|sx| |sx mx ex], (Prim2SF y) as [sy|sy| |sy my ey];
    simpl; try discriminate; intros _; try (by destruct sx).
  all: destruct sx; rewrite Z.compare_refl, Pos.compare_cont_refl; reflexivity.
Qed.

Lemma leb_refl_r x y : (x <=? y) = true -> (y <=? y) = true.
Proof.
  rewrite !leb_spec. unfold SFleb.
  destruct (Prim2SF x) as [sx|sx| |sx mx ex], (Prim2SF y) as [sy|sy| |sy my ey];
    simpl; try discriminate; intros _; try (by destruct sy).
  all: destruct sy; rewrite Z.compare_refl, Pos.compare_cont_refl; reflexivity.
Qed.

Lemma in_limits_nan lo hi : in_limits lo hi nan = false.
Proof.
  unfold in_limits. rewrite !leb_spec.
  change (Prim2SF nan) with S754_nan.
  by destruct (Prim2SF (Np.of_Z lo)).
Qed.

Lemma sector_label_nan ahaSegs anglesLimits lab :
  sector_label ahaSegs anglesLimits nan lab = lab.
Proof.
  revert anglesLimits lab.
  induction ahaSegs as [|s ahaSegs IH]; intros [|[lo hi] anglesLimits] lab;
    simpl; try done.
  rewrite !in_limits_nan, andb_false_r. apply IH.
Qed.

(** An angle between two bounds lies on one side of any number between. *)
Lemma split_at (c : Z) ang :
  (Np.of_Z c <=? Np.of_Z c) = true -> (ang <=? ang) = true ->
  (ang <=? Np.of_Z c) = false -> (Np.of_Z c <=? ang) = true.
Proof.
  intros Hc Ha Hf. pose proof (leb_total (Np.of_Z c) ang Hc Ha) as Ht.
  rewrite Hf, orb_false_r in Ht. done.
Qed.

Lemma covered_basal_mid ang :
  in_limits (-180) 180 ang = true ->
  in_limits (-180) (-120) ang || in_limits (-120) (-60) ang
  || in_limits (-60) 0 ang || in_limits 0 60 ang
  || in_limits 60 120 ang || in_limits 120 180 ang = true.
Proof.
  unfold in_limits. intros [Hlo Hhi]%andb_true_iff.
  pose proof (leb_refl_r _ _ Hlo) as Ha. rewrite Hlo, Hhi.
  destruct (ang <=? Np.of_Z (-120)) eqn:U1; [done|].
  rewrite (split_at (-120) ang eq_refl Ha U1).
  destruct (ang <=? Np.of_Z (-60)) eqn:U2; [done|].
  rewrite (split_at (-60) ang eq_refl Ha U2).
  destruct (ang <=? Np.of_Z 0) eqn:U3; [done|].
  rewrite (split_at 0 ang eq_refl Ha U3).
  destruct (ang <=? Np.of_Z 60) eqn:U4; [done|].
  rewrite (split_at 60 ang eq_refl Ha U4).
  destruct (ang <=? Np.of_Z 120) eqn:U5; [done|].
  by rewrite (split_at 120 ang eq_refl Ha U5).
Qed.

Lemma covered_apical ang :
  in_limits (-180) 180 ang = true ->
  in_limits (-180) (-135) ang || in_limits (-135) (-45) ang
  || in_limits (-45) 45 ang || in_limits 45 135 ang
  || in_limits 135 180 ang = true.
Proof.
  unfold in_limits. intros [Hlo Hhi]%andb_true_iff.
  pose proof (leb_refl_r _ _ Hlo) as Ha. rewrite Hlo, Hhi.
  destruct (ang <=? Np.of_Z (-135)) eqn:U1; [done|].
  rewrite (split_at (-135) ang eq_refl Ha U1).
  destruct (ang <=? Np.of_Z (-45)) eqn:U2; [done|].
  rewrite (split_at (-45) ang eq_refl Ha U2).
  destruct (ang <=? Np.of_Z 45) eqn:U3; [done|].
  rewrite (split_at 45 ang eq_refl Ha U3).
  destruct (ang <=? Np.of_Z 135) eqn:U4; [done|].
  by rewrite (split_at 135 ang eq_refl Ha U4).
Qed.

Lemma range_6 first :
  range first (first + 6)
  = [first; first + 1; first + 2; first + 3; first + 4; first + 5]%Z.
Proof.
  unfold range. replace (first + 6 - first)%Z with 6%Z by lia. simpl.
  by rewrite Z.add_0_r.
Qed.

(** X23: on a basal or mid slice the label of an angle is that of the last
    listed sector whose closed interval holds it, so a shared bound goes to
    the later sector (-120 to the second, 0 to the sixth); every angle in
    [-180, 180] gets one of the six labels, and a NaN angle keeps its
    label. *)
Theorem basal_mid_sectors (first : Z) (ang : float) (lab : Z) :
  let label := sector_label (range first (first + 6)) anglesBaseMid in
  label ang lab
  = (if in_limits (-60) 0 ang then first + 5
     else if in_limits 0 60 ang then first + 4
     else if in_limits 60 120 ang then first + 3
     else if in_limits 120 180 ang then first + 2
     else if in_limits (-180) (-120) ang then first + 1
     else if in_limits (-120) (-60) ang then first
     else lab)%Z /\
  (in_limits (-180) 180 ang = true ->
   (first <= label ang lab < first + 6)%Z) /\
  label nan lab = lab /\
  map (fun a => label (Np.of_Z a) lab) [-180; -120; -60; 0; 60; 120; 180]%Z
  = [first + 1; first + 1; first + 5; first + 5; first + 4; first + 3;
     first + 2]%Z.
Proof.
  intros label.
  assert (Hchain : forall a, label a lab
    = (if in_limits (-60) 0 a then first + 5
       else if in_limits 0 60 a then first + 4
       else if in_limits 60 120 a then first + 3
       else if in_limits 120 180 a then first + 2
       else if in_limits (-180) (-120) a then first + 1
       else if in_limits (-120) (-60) a then first
       else lab)%Z).
  { intros a. unfold label. rewrite range_6. unfold anglesBaseMid.
    cbn [sector_label Z.eqb Pos.eqb andb].
    by destruct (in_limits (-60) 0 a), (in_limits 0 60 a),
      (in_limits 60 120 a), (in_limits 120 180 a),
      (in_limits (-180) (-120) a), (in_limits (-120) (-60) a). }
  split; [apply Hchain|]. split; [|split].
  - intros Hin. rewrite Hchain. apply covered_basal_mid in Hin.
    destruct (in_limits (-60) 0 ang), (in_limits 0 60 ang),
      (in_limits 60 120 ang), (in_limits 120 180 ang),
      (in_limits (-180) (-120) ang), (in_limits (-120) (-60) ang);
      simpl in Hin; try discriminate Hin; lia.
  - apply sector_label_nan.
  - cbn [map]. rewrite !Hchain. reflexivity.
Qed.

(** X24: on an apical slice the label of an angle is that of the last
    listed sector whose closed interval holds it, segment 14 holding both
    [135, 180] and [-180, -135] (-135 goes to 14, 45 and -45 to 16, 135 to
    15); every angle in [-180, 180] gets one of the four labels, and a NaN
    angle keeps its label. *)
Theorem apical_sectors (ang : float) (lab : Z) :
  let label := sector_label (range 13 17) anglesAppex in
  label ang lab
  = (if in_limits (-45) 45 ang then 16
     else if in_limits 45 135 ang then 15
     else if in_limits 135 180 ang || in_limits (-180) (-135) ang then 14
     else if in_limits (-135) (-45) ang then 13
     else lab)%Z /\
  (in_limits (-180) 180 ang = true -> (13 <= label ang lab < 17)%Z) /\
  label nan lab = lab /\
  map (fun a => label (Np.of_Z a) lab) [-180; -135; -45; 45; 135; 180]%Z
  = [14; 14; 16; 16; 15; 14]%Z.
Proof.
  intros label.
  assert (Hchain : forall a, label a lab
    = (if in_limits (-45) 45 a then 16
       else if in_limits 45 135 a then 15
       else if in_limits 135 180 a || in_limits (-180) (-135) a then 14
       else if in_limits (-135) (-45) a then 13
       else lab)%Z).
  { intros a. unfold label, anglesAppex.
    change (range 13 17) with [13; 14; 15; 16]%Z.
    cbn [sector_label Z.eqb Pos.eqb andb].
    by destruct (in_limits (-45) 45 a), (in_limits 45 135 a),
      (in_limits 135 180 a), (in_limits (-180) (-135) a),
      (in_limits (-135) (-45) a). }
  split; [apply Hchain|]. split; [|split].
  - intros Hin. rewrite Hchain. apply covered_apical in Hin.
    destruct (in_limits (-45) 45 ang), (in_limits 45 135 ang),
      (in_limits 135 180 ang), (in_limits (-180) (-135) ang),
      (in_limits (-135) (-45) ang);
      simpl in Hin; try discriminate Hin; simpl; lia.
  - apply sector_label_nan.
  - cbn [map]. rewrite !Hchain. reflexivity.
Qed.

Lemma get3_set3 v (a : labelmap) p q :
  get3 (set3 v a p) q
  = if decide (p = q) then (fun _ => v) <$> get3 a q else get3 a q.
Proof.
  destruct p as [[z y] x], q as [[z' y'] x']. unfold get3, set3.
  cbv delta [labelmap] in *.
  destruct (decide (z = z')) as [->|Hz].
  - rewrite list_lookup_alter_eq.
    destruct (a !! z') as [sl|] eqn:Hsl; simpl.
    2:{ by destruct (decide _). }
    destruct (decide (y = y')) as [->|Hy].
    + rewrite list_lookup_alter_eq.
      destruct (sl !! y') as [row|] eqn:Hrow; simpl.
      2:{ by destruct (decide _). }
      destruct (decide (x = x')) as [->|Hx].
      * rewrite decide_True by done.
        destruct (row !! x') as [w|] eqn:Hw; simpl.
        -- apply list_lookup_insert_eq. by eapply lookup_lt_Some.
        -- apply lookup_ge_None. rewrite length_insert.
           by apply lookup_ge_None.
      * rewrite decide_False by congruence.
        by rewrite list_lookup_insert_ne.
    + rewrite decide_False by congruence.
      by rewrite list_lookup_alter_ne.
  - rewrite decide_False by congruence.
    by rewrite list_lookup_alter_ne.
Qed.

Lemma assign_spec seg (g : nat * nat * nat -> bool) vox (a : labelmap) q :
  get3 (assign seg vox (map g vox) a) q
  = if decide (q ∈ vox /\ g q = true) then (fun _ => seg) <$> get3 a q
    else get3 a q.
Proof.
  unfold assign. revert a.
  induction vox as [|p vox IH]; intros a; cbn [map zip_with fold_left fst snd].
  - rewrite decide_False; [done|]. intros [Hq _]. by apply elem_of_nil in Hq.
  - rewrite IH. clear IH.
    assert (Hstep : get3 (if g p then set3 seg a p else a) q
              = if decide (p = q /\ g q = true) then (fun _ => seg) <$> get3 a q
                else get3 a q).
    { destruct (g p) eqn:Hg.
      - rewrite get3_set3. destruct (decide (p = q)) as [->|Hne].
        + by rewrite decide_True.
        + rewrite decide_False; [done|]. by intros [? _].
      - rewrite decide_False; [done|]. intros [-> ?]. congruence. }
    rewrite Hstep.
    destruct (decide (q ∈ vox /\ g q = true)) as [Hv|Hv],
      (decide (p = q /\ g q = true)) as [Hp|Hp],
      (decide (q ∈ p :: vox /\ g q = true)) as [Hc|Hc];
      try done; try (by destruct (get3 a q));
      exfalso; rewrite elem_of_cons in Hc;
      first [ destruct Hp as [Hpq Hg]; symmetry in Hpq; tauto
            | destruct Hc as [[Hqp|Hin] Hg]; [symmetry in Hqp|]; tauto
            | tauto ].
Qed.

Lemma sectors_loop_spec ahaSegs anglesLimits (f : nat * nat * nat -> float)
    vox (a : labelmap) q :
  get3 (sectors_loop ahaSegs anglesLimits vox (map f vox) a) q
  = if decide (q ∈ vox)
    then sector_label ahaSegs anglesLimits (f q) <$> get3 a q
    else get3 a q.
Proof.
  revert anglesLimits a.
  induction ahaSegs as [|ahaSeg ahaSegs IH]; intros [|[lo hi] anglesLimits] a;
    cbn [sectors_loop sector_label];
    try (destruct (decide _); [by destruct (get3 a q)|done]).
  rewrite IH. clear IH.
  destruct (decide (q ∈ vox)) as [Hin|Hout].
  2:{ destruct (lo =? 135)%Z.
      - rewrite map_map, (assign_spec _ (fun p => in_limits (-180) (-135) (f p))).
        rewrite decide_False by tauto.
        rewrite map_map, (assign_spec _ (fun p => in_limits lo hi (f p))).
        by rewrite decide_False by tauto.
      - rewrite map_map, (assign_spec _ (fun p => in_limits lo hi (f p))).
        by rewrite decide_False by tauto. }
  assert (H1 : get3 (assign ahaSeg vox (map (in_limits lo hi) (map f vox)) a) q
           = (fun lab => if in_limits lo hi (f q) then ahaSeg else lab) <$> get3 a q).
  { rewrite map_map, (assign_spec _ (fun p => in_limits lo hi (f p))).
    destruct (in_limits lo hi (f q)) eqn:Hl.
    - by rewrite decide_True.
    - rewrite decide_False by (intros [_ ?]; congruence).
      by destruct (get3 a q). }
  destruct (lo =? 135)%Z.
  - rewrite map_map, (assign_spec _ (fun p => in_limits (-180) (-135) (f p))).
    rewrite H1. simpl.
    destruct (in_limits (-180) (-135) (f q)) eqn:Hl.
    + rewrite decide_True by done. by destruct (get3 a q).
    + rewrite decide_False by (intros [_ ?]; congruence).
      by destruct (get3 a q).
  - rewrite H1. simpl. by destruct (get3 a q).
Qed.

Lemma elem_of_where1 row x : x ∈ where1 row <-> row !! x = Some true.
Proof.
  unfold where1. rewrite list_elem_of_omap. split.
  - intros (o & Ho & Hid). apply elem_of_lookup_imap in Ho as (i & b & -> & Hb).
    destruct b; simplify_eq/=. done.
  - intros Hx. exists (Some x). split; [|done].
    apply elem_of_lookup_imap. by exists x, true.
Qed.

Lemma elem_of_concat {A} (x : A) (ls : list (list A)) :
  x ∈ concat ls <-> exists l, l ∈ ls /\ x ∈ l.
Proof.
  induction ls as [|l ls IH]; simpl.
  - split; [by intros ?%elem_of_nil|]. by intros (l & ?%elem_of_nil & _).
  - rewrite elem_of_app, IH. split.
    + intros [Hx|(l' & Hl' & Hx)].
      * exists l. split; [apply list_elem_of_here|done].
      * exists l'. split; [by apply list_elem_of_further|done].
    + intros (l' & Hl' & Hx). apply elem_of_cons in Hl' as [->|Hl']; eauto.
Qed.

Lemma elem_of_where3 (myo : mask) z y x :
  (z, y, x) ∈ where3 myo
  <-> (sl ← myo !! z; row ← sl !! y; row !! x) = Some true.
Proof.
  unfold where3. cbv delta [mask] in *. rewrite elem_of_concat. split.
  - intros (l & Hl & Hp).
    apply elem_of_lookup_imap in Hl as (z' & sl & -> & Hsl).
    apply elem_of_concat in Hp as (l' & Hl' & Hp).
    apply elem_of_lookup_imap in Hl' as (y' & row & -> & Hrow).
    apply (list_elem_of_fmap_1 (fun x => (z', y', x))) in Hp
      as (x' & [= -> -> ->] & Hx).
    apply elem_of_where1 in Hx. rewrite Hsl. simpl. rewrite Hrow. done.
  - intros Hp.
    destruct (myo !! z) as [sl|] eqn:Hsl; [|done]. simpl in Hp.
    destruct (sl !! y) as [row|] eqn:Hrow; [|done]. simpl in Hp.
    eexists. split.
    + apply elem_of_lookup_imap. exists z, sl. split; [reflexivity|done].
    + apply elem_of_concat. eexists. split.
      * apply elem_of_lookup_imap. exists y, row. split; [reflexivity|done].
      * apply (list_elem_of_fmap_2 (fun x => (z, y, x))). by apply elem_of_where1.
Qed.

Section ClassifierFacts.
Context (angle : float * float -> float * float -> nat * nat -> float).

Lemma slice_step_spec rv2lv zB zM vox (a : labelmap) idz c q :
  get3 (slice_step angle rv2lv zB zM vox a idz c) q
  = if decide (q ∈ vox /\ q.1.1 = c.1)
    then sector_label (slice_sectors zB zM (Z.of_nat idz)).1
           (slice_sectors zB zM (Z.of_nat idz)).2
           (angle rv2lv c.2 (q.1.2, q.2)) <$> get3 a q
    else get3 a q.
Proof.
  unfold slice_step.
  destruct (slice_sectors zB zM (Z.of_nat idz)) as [ahaSegs anglesLimits].
  rewrite (sectors_loop_spec _ _ (fun p => angle rv2lv c.2 (p.1.2, p.2))). simpl.
  destruct (decide (q ∈ filter (fun p : nat * nat * nat => p.1.1 = c.1) vox))
    as [Hin|Hout], (decide (q ∈ vox /\ q.1.1 = c.1)) as [Hc|Hc]; try done;
    exfalso; rewrite list_elem_of_filter in *; tauto.
Qed.

Lemma steps_spec rv2lv zB zM vox (L : list (nat * (nat * (float * float))))
    (a : labelmap) q :
  NoDup (map (fun ic => ic.2.1) L) ->
  let out := fold_left (fun (a : labelmap) ic =>
               slice_step angle rv2lv zB zM vox a ic.1 ic.2) L a in
  (forall idz c, (idz, c) ∈ L -> q ∈ vox -> q.1.1 = c.1 ->
     get3 out q
     = sector_label (slice_sectors zB zM (Z.of_nat idz)).1
         (slice_sectors zB zM (Z.of_nat idz)).2
         (angle rv2lv c.2 (q.1.2, q.2)) <$> get3 a q) /\
  ((q ∉ vox \/ q.1.1 ∉ map (fun ic => ic.2.1) L) -> get3 out q = get3 a q).
Proof.
  revert a. induction L as [|ic L IH]; intros a Hnd; simpl.
  - split; [by intros ?? ?%elem_of_nil|done].
  - apply NoDup_cons in Hnd as [Hic Hnd].
    destruct (IH (slice_step angle rv2lv zB zM vox a ic.1 ic.2) Hnd) as [IHa IHb].
    simpl in IHa, IHb. split.
    + intros idz c Hin Hq Hz. apply elem_of_cons in Hin as [<-|Hin].
      * rewrite IHb by (right; simpl; by rewrite Hz).
        rewrite slice_step_spec. by rewrite decide_True.
      * rewrite (IHa idz c Hin Hq Hz), slice_step_spec.
        rewrite decide_False; [done|]. intros [_ Heq]. apply Hic.
        rewrite <- Heq, Hz. apply (list_elem_of_fmap_2 (fun ic => ic.2.1) _ (idz, c) Hin).
    + intros Hor. rewrite IHb.
      * rewrite slice_step_spec. rewrite decide_False; [done|].
        intros [Hq Heq]. destruct Hor as [Hor|Hor]; [done|].
        apply Hor. rewrite Heq. apply list_elem_of_here.
      * destruct Hor as [Hor|Hor]; [by left|right].
        intros Hin. apply Hor. by apply list_elem_of_further.
Qed.

(** X22: when [_add16segments] returns and the slices listed in [lvCenter]
    are distinct, every myocardial voxel of the slice listed at position
    [idz] carries the label that the sector loop gives to its angle with the
    sectors of the tier of [idz], the last sector that holds the angle
    winning, and every other voxel keeps its label. *)
Theorem add16segments_voxel (myo : mask) lvCenter rvPoint (ahaLv out : labelmap) :
  _add16segments angle myo lvCenter rvPoint ahaLv = Ok out ->
  NoDup (map fst lvCenter) ->
  exists c0 zB zM,
    lvCenter !! 0%nat = Some c0 /\
    zBase (length lvCenter) = Ok zB /\ zMid (length lvCenter) = Ok zM /\
    (forall idz z c y x,
       lvCenter !! idz = Some (z, c) ->
       (sl ← myo !! z; row ← sl !! y; row !! x) = Some true ->
       get3 out (z, y, x)
       = sector_label (slice_sectors zB zM (Z.of_nat idz)).1
           (slice_sectors zB zM (Z.of_nat idz)).2
           (angle (c0.2.1 - rvPoint.1.2, c0.2.2 - rvPoint.2) c (y, x))
         <$> get3 ahaLv (z, y, x)) /\
    (forall z y x,
       (sl ← myo !! z; row ← sl !! y; row !! x) <> Some true \/
       z ∉ map fst lvCenter ->
       get3 out (z, y, x) = get3 ahaLv (z, y, x)).
Proof.
  unfold _add16segments. intros Hout Hnd.
  destruct (item lvCenter 0) as [e|c0] eqn:H0; [discriminate Hout|].
  simpl in Hout.
  destruct (zBase (length lvCenter)) as [e|zB]; [discriminate Hout|].
  simpl in Hout.
  destruct (zMid (length lvCenter)) as [e|zM]; [discriminate Hout|].
  simpl in Hout. injection Hout as <-.
  exists c0, zB, zM. split.
  { unfold item in H0. destruct (lvCenter !! 0%nat); simpl in H0; congruence. }
  split; [done|]. split; [done|].
  assert (Hmap : map (fun ic : nat * (nat * (float * float)) => ic.2.1)
                   (imap (fun idz c => (idz, c)) lvCenter) = map fst lvCenter).
  { apply list_eq. intros i. rewrite !lookup_map, list_lookup_imap.
    by destruct (lvCenter !! i). }
  split.
  - intros idz z c y x Hc Hp.
    pose proof (steps_spec (c0.2.1 - rvPoint.1.2, c0.2.2 - rvPoint.2) zB zM
                  (where3 myo) (imap (fun idz c => (idz, c)) lvCenter) ahaLv
                  (z, y, x)) as Hs.
    rewrite Hmap in Hs. destruct (Hs Hnd) as [Ha _].
    apply (Ha idz (z, c)); [|by apply elem_of_where3|done].
    apply elem_of_lookup_imap. by exists idz, (z, c).
  - intros z y x Hor.
    pose proof (steps_spec (c0.2.1 - rvPoint.1.2, c0.2.2 - rvPoint.2) zB zM
                  (where3 myo) (imap (fun idz c => (idz, c)) lvCenter) ahaLv
                  (z, y, x)) as Hs.
    rewrite Hmap in Hs. destruct (Hs Hnd) as [_ Hb]. apply Hb.
    destruct Hor as [Hor|Hor]; [left|by right].
    by rewrite elem_of_where3.
Qed.

End ClassifierFacts.

(** The three branches of [slice_sectors], by the position of the slice. *)
Lemma slice_tiers (zB zM idz : Z) :
  ((idz < zB)%Z -> slice_sectors zB zM idz = (range 1 7, anglesBaseMid)) /\
  ((zB < idz < zM)%Z -> slice_sectors zB zM idz = (range 7 13, anglesBaseMid)) /\
  ((zB <= idz)%Z -> (idz = zB \/ zM <= idz)%Z ->
   slice_sectors zB zM idz = (range 13 17, anglesAppex)).
Proof.
  unfold slice_sectors. repeat split.
  - intros H. by rewrite (proj2 (Z.ltb_lt _ _) H).
  - intros [H1 H2]. rewrite (proj2 (Z.ltb_ge _ _)) by lia.
    by rewrite (proj2 (Z.ltb_lt _ _) H1), (proj2 (Z.ltb_lt _ _) H2).
  - intros H1 H2. rewrite (proj2 (Z.ltb_ge _ _) H1).
    destruct (Z.ltb_spec zB idz), (Z.ltb_spec idz zM); simpl; try done; lia.
Qed.

(** An angle in [-180, 180] ends with a label of the sectors offered. *)
Lemma label_basal_mid (first : Z) ang lab :
  in_limits (-180) 180 ang = true ->
  (first <= sector_label (range first (first + 6)) anglesBaseMid ang lab
   < first + 6)%Z.
Proof.
  intros Hin. apply covered_basal_mid in Hin.
  rewrite range_6. unfold anglesBaseMid.
  cbn [sector_label Z.eqb Pos.eqb andb].
  destruct (in_limits (-60) 0 ang), (in_limits 0 60 ang),
    (in_limits 60 120 ang), (in_limits 120 180 ang),
    (in_limits (-180) (-120) ang), (in_limits (-120) (-60) ang);
    simpl in Hin; try discriminate Hin; lia.
Qed.

Lemma label_apical ang lab :
  in_limits (-180) 180 ang = true ->
  (13 <= sector_label (range 13 17) anglesAppex ang lab < 17)%Z.
Proof.
  intros Hin. apply covered_apical in Hin.
  unfold anglesAppex. change (range 13 17) with [13; 14; 15; 16]%Z.
  cbn [sector_label Z.eqb Pos.eqb andb].
  destruct (in_limits (-45) 45 ang), (in_limits 45 135 ang),
    (in_limits 135 180 ang), (in_limits (-180) (-135) ang),
    (in_limits (-135) (-45) ang);
    simpl in Hin; try discriminate Hin; simpl; lia.
Qed.

Section TierFacts.
Context (angle : float * float -> float * float -> nat * nat -> float).

(** X25: when [_add16segments] returns and the slices listed in [lvCenter]
    are distinct, a myocardial voxel of the slice listed at position [idz]
    whose angle is a number in [-180, 180] ends with a label of the tier of
    that position, whatever label it had: 1..6 when [idz < zBase], 7..12
    when [zBase < idz < zMid], and 13..16 from [zMid] on and at
    [idz = zBase]. *)
Theorem add16segments_tier_labels (myo : mask) lvCenter rvPoint
    (ahaLv out : labelmap) c0 idz z c y x lab :
  _add16segments angle myo lvCenter rvPoint ahaLv = Ok out ->
  NoDup (map fst lvCenter) ->
  lvCenter !! 0%nat = Some c0 ->
  lvCenter !! idz = Some (z, c) ->
  (sl ← myo !! z; row ← sl !! y; row !! x) = Some true ->
  get3 ahaLv (z, y, x) = Some lab ->
  in_limits (-180) 180
    (angle (c0.2.1 - rvPoint.1.2, c0.2.2 - rvPoint.2) c (y, x)) = true ->
  exists zB zM L,
    zBase (length lvCenter) = Ok zB /\ zMid (length lvCenter) = Ok zM /\
    get3 out (z, y, x) = Some L /\
    ((Z.of_nat idz < zB)%Z -> (1 <= L <= 6)%Z) /\
    ((zB < Z.of_nat idz < zM)%Z -> (7 <= L <= 12)%Z) /\
    ((zB <= Z.of_nat idz)%Z -> (Z.of_nat idz = zB \/ zM <= Z.of_nat idz)%Z ->
     (13 <= L <= 16)%Z).
Proof.
  unfold _add16segments. intros Hout Hnd H0 Hc Hp Hlab Hang.
  unfold item in Hout. rewrite H0 in Hout. simpl in Hout.
  destruct (zBase (length lvCenter)) as [e|zB]; [discriminate Hout|].
  simpl in Hout.
  destruct (zMid (length lvCenter)) as [e|zM]; [discriminate Hout|].
  simpl in Hout. injection Hout as <-.
  assert (Hmap : map (fun ic : nat * (nat * (float * float)) => ic.2.1)
                   (imap (fun idz c => (idz, c)) lvCenter) = map fst lvCenter).
  { apply list_eq. intros i. rewrite !lookup_map, list_lookup_imap.
    by destruct (lvCenter !! i). }
  pose proof (steps_spec angle (c0.2.1 - rvPoint.1.2, c0.2.2 - rvPoint.2) zB zM
                (where3 myo) (imap (fun idz c => (idz, c)) lvCenter) ahaLv
                (z, y, x)) as Hs.
  rewrite Hmap in Hs. destruct (Hs Hnd) as [Ha _].
  exists zB, zM,
    (sector_label (slice_sectors zB zM (Z.of_nat idz)).1
       (slice_sectors zB zM (Z.of_nat idz)).2
       (angle (c0.2.1 - rvPoint.1.2, c0.2.2 - rvPoint.2) c (y, x)) lab).
  split; [done|]. split; [done|]. split.
  { etrans; [apply (Ha idz (z, c)); [|by apply elem_of_where3|done]|].
    - apply elem_of_lookup_imap. by exists idz, (z, c).
    - by rewrite Hlab. }
  destruct (slice_tiers zB zM (Z.of_nat idz)) as (Hbasal & Hmid & Hapical).
  split; [|split].
  - intros Hlt. rewrite (Hbasal Hlt). cbn [fst snd].
    pose proof (label_basal_mid 1 _ lab Hang) as H.
    change (1 + 6)%Z with 7%Z in H. lia.
  - intros Hlt. rewrite (Hmid Hlt). cbn [fst snd].
    pose proof (label_basal_mid 7 _ lab Hang) as H.
    change (7 + 6)%Z with 13%Z in H. lia.
  - intros Hle Hor. rewrite (Hapical Hle Hor). cbn [fst snd].
    pose proof (label_apical _ lab Hang) as H. lia.
Qed.

End TierFacts.

Lemma boundaries_checked : forallb boundaries_ok (seq 0 1001) = true.
Proof. vm_compute. reflexivity. Qed.

(** X26: for up to 1000 slices [zBase] and [zMid] are defined, ordered, at
    most the number of slices, and the nearest integers to 35% and 70% of
    it. *)
Theorem tier_boundaries (n : nat) :
  n <= 1000 ->
  exists zB zM, zBase n = Ok zB /\ zMid n = Ok zM /\
    (0 <= zB <= zM)%Z /\ (zM <= Z.of_nat n)%Z /\
    (Z.abs (20 * zB - 7 * Z.of_nat n) <= 10)%Z /\
    (Z.abs (10 * zM - 7 * Z.of_nat n) <= 5)%Z.
Proof.
  intros Hn. pose proof boundaries_checked as Hall.
  rewrite forallb_forall in Hall. specialize (Hall n).
  assert (Hin : In n (seq 0 1001)) by (apply in_seq; lia).
  specialize (Hall Hin). unfold boundaries_ok in Hall.
  destruct (zBase n) as [e|zB]; [discriminate Hall|].
  destruct (zMid n) as [e|zM]; [discriminate Hall|].
  exists zB, zM. rewrite !andb_true_iff, !Z.leb_le in Hall. intuition lia.
Qed.

Lemma first_true_spec (z : list bool) :
  match first_true z with
  | Some i => z !! i = Some true /\ forall j, j < i -> z !! j = Some false
  | None => Forall (fun b => b = false) z
  end.
Proof.
  induction z as [|b z IH]; simpl; [done|].
  destruct b; simpl.
  - split; [done|]. intros j Hj. lia.
  - destruct (first_true z) as [i|]; simpl.
    + destruct IH as [Hi Hlt]. split; [done|].
      intros [|j] Hj; [done|]. simpl. apply Hlt. lia.
    + by apply Forall_cons.
Qed.

Lemma lookup_fold_insert {A} (cap : A) lo n (a : list A) i :
  fold_left (fun a z => <[z := cap]> a) (seq lo n) a !! i
  = if decide (lo <= i < lo + n /\ i < length a) then Some cap else a !! i.
Proof.
  revert lo a. induction n as [|n IH]; intros lo a; simpl.
  - rewrite decide_False by lia. done.
  - rewrite IH, length_insert.
    destruct (decide (S lo <= i < S lo + n /\ i < length a)) as [H1|H1].
    + rewrite decide_True by lia. done.
    + destruct (decide (lo = i)) as [->|Hne].
      * destruct (decide (i < length a)) as [Hlt|Hge].
        -- rewrite decide_True by lia. by apply list_lookup_insert_eq.
        -- rewrite decide_False by lia.
           rewrite (proj2 (lookup_ge_None a i)) by lia.
           apply lookup_ge_None. rewrite length_insert. lia.
      * rewrite decide_False by lia. by apply list_lookup_insert_ne.
Qed.

Lemma length_fold_insert {A} (cap : A) zs (a : list A) :
  length (fold_left (fun a z => <[z := cap]> a) zs a) = length a.
Proof.
  revert a. induction zs as [|z zs IH]; intros a; simpl; [done|].
  by rewrite IH, length_insert.
Qed.

Section Segment17Facts.
Context (fill_holes : list (list bool) -> list (list bool)).

(** X27: [_add17segment] raises [IndexError] when no slice has a cavity or
    none has myocardium; otherwise it overwrites exactly the slices from the
    first with myocardium up to, not including, the first with a cavity,
    each in full with the same map, 17 on the cavity of that slice and 0
    elsewhere, and leaves the other slices and the number of slices as they
    are. *)
Theorem add17segment_spec (myo : mask) (ahaLv : labelmap) :
  let cavity := any_12 (fun v => negb (v =? 0)%Z) (Iendo fill_holes myo) in
  match _add17segment fill_holes myo ahaLv with
  | Raise e =>
      e = IndexError /\
      (Forall (fun b => b = false) cavity \/
       Forall (fun b => b = false) (any_12 id myo))
  | Ok out =>
      exists zmin_endo zmin_myo,
        (cavity !! zmin_endo = Some true /\
         forall j, j < zmin_endo -> cavity !! j = Some false) /\
        (any_12 id myo !! zmin_myo = Some true /\
         forall j, j < zmin_myo -> any_12 id myo !! j = Some false) /\
        let cap := map (map (fun v => (17 * Z.b2z (0 <? v))%Z))
                     (Iendo fill_holes myo !!! zmin_endo) in
        Forall (Forall (fun v => v = 0%Z \/ v = 17%Z)) cap /\
        length out = length ahaLv /\
        forall z, out !! z
          = if decide (zmin_myo <= z < zmin_endo /\ z < length ahaLv)
            then Some cap else ahaLv !! z
  end.
Proof.
  intros cavity. unfold _add17segment. fold cavity.
  pose proof (first_true_spec cavity) as Hendo.
  pose proof (first_true_spec (any_12 id myo)) as Hmyo.
  destruct (first_true cavity) as [zmin_endo|]; simpl; [|by auto].
  destruct (first_true (any_12 id myo)) as [zmin_myo|]; simpl; [|by auto].
  exists zmin_endo, zmin_myo. split; [done|]. split; [done|].
  split; [|split].
  - apply Forall_map, Forall_forall. intros row _. simpl.
    apply Forall_map, Forall_forall. intros v _. simpl.
    destruct (0 <? v)%Z; simpl; auto.
  - apply length_fold_insert.
  - intros z. cbv delta [labelmap] in *. rewrite lookup_fold_insert.
    destruct (decide (zmin_myo <= z < zmin_myo + (zmin_endo - zmin_myo)
                      /\ z < length ahaLv)),
      (decide (zmin_myo <= z < zmin_endo /\ z < length ahaLv)); try done; lia.
Qed.

End Segment17Facts.

(** X22, witness: one slice of two voxels; with one listed slice the tier
    is the apical one. *)
Lemma add16segments_voxel_witness :
  exists out,
    _add16segments Examples.angle_by_column Examples.myo_1x2
      [(0%nat, (0, 0))] (0, 0, 0) [[[0; 0]]]%Z = Ok out /\
    get3 out (0, 0, 0)%nat = Some 13%Z /\ get3 out (0, 0, 1)%nat = Some 16%Z.
Proof.
  destruct (_add16segments Examples.angle_by_column Examples.myo_1x2
              [(0%nat, (0, 0))] (0, 0, 0) [[[0; 0]]]%Z) as [e|out] eqn:Hout.
  - vm_compute in Hout. discriminate Hout.
  - exists out. split; [reflexivity|].
    destruct (add16segments_voxel _ _ _ _ _ _ Hout)
      as (c0 & zB & zM & H0 & HzB & HzM & Hvox & _).
    + repeat constructor. by intros ?%elem_of_nil.
    + injection H0 as <-. vm_compute in HzB, HzM.
      injection HzB as <-. injection HzM as <-.
      split.
      * by rewrite (Hvox 0%nat 0%nat (0, 0) 0%nat 0%nat eq_refl eq_refl).
      * by rewrite (Hvox 0%nat 0%nat (0, 0) 0%nat 1%nat eq_refl eq_refl).
Defined.

(** X25, witness: with one listed slice, position 0 is [zBase] and the
    voxel gets an apical label. *)
Lemma add16segments_tier_labels_witness :
  exists out L,
    _add16segments Examples.angle_by_column Examples.myo_1x2
      [(0%nat, (0, 0))] (0, 0, 0) [[[0; 0]]]%Z = Ok out /\
    get3 out (0, 0, 0)%nat = Some L /\ (13 <= L <= 16)%Z.
Proof.
  destruct (_add16segments Examples.angle_by_column Examples.myo_1x2
              [(0%nat, (0, 0))] (0, 0, 0) [[[0; 0]]]%Z) as [e|out] eqn:Hout.
  - vm_compute in Hout. discriminate Hout.
  - destruct (add16segments_tier_labels _ _ _ _ _ _ (0%nat, (0, 0)) 0%nat 0%nat
                (0, 0) 0%nat 0%nat 0%Z Hout)
      as (zB & zM & L & HzB & HzM & HL & _ & _ & Hapical).
    + repeat constructor. by intros ?%elem_of_nil.
    + reflexivity.
    + reflexivity.
    + reflexivity.
    + reflexivity.
    + reflexivity.
    + exists out, L. split; [reflexivity|]. split; [exact HL|].
      vm_compute in HzB, HzM. injection HzB as <-. injection HzM as <-.
      apply Hapical; [lia|by left].
Defined.

(** X26, witness: ten slices. *)
Lemma tier_boundaries_witness : zBase 10 = Ok 4%Z /\ zMid 10 = Ok 7%Z.
Proof.
  destruct (tier_boundaries 10 ltac:(lia)) as (zB & zM & HzB & HzM & _).
  vm_compute in HzB, HzM. injection HzB as <-. injection HzM as <-.
  split; reflexivity.
Defined.

End AHAFacts.

(** ** Reuse of cached results, the length of the curves, local axes *)

Module MoreFacts.
Import Py Pipeline PipelineFacts.
Local Open Scope string_scope.

Section Reuse.
Context `{Stages}.

(** X28: the cache is keyed by the sequence identity alone: after a run
    that returned, a run on any parameter node whose sequence has the same
    identity and whose labels parse returns the same result without calling
    the motion model or touching the cache, whatever frames, segmentation
    and labels that node holds. *)
Theorem cached_result_reused s r s1 sq n' sq' myo rv :
  runStrainPipeline s = (Ok r, s1) ->
  ImgSequence (node s) = Some sq ->
  ImgSequence n' = Some sq' -> GetID sq' = GetID sq ->
  py_int (MyoLabel n') = Ok myo -> py_int (RVLabel n') = Ok rv ->
  let s2 := exec (CallSetNode n') s1 in
  runStrainPipeline s2 = (Ok r, s2) /\
  estimatorCalls s2 = estimatorCalls s1 /\ cache s2 = cache s1.
Proof.
  intros Hrun Hsq Hsq' Hid Hmyo Hrv s2.
  destruct (run_ok _ _ _ Hrun) as (sq0 & _ & _ & Hsq0 & _ & _ & _ & Hr & _).
  rewrite Hsq in Hsq0. simplify_eq.
  split; [|done].
  apply (run_hit s2 sq' myo rv r); try done.
  simpl. by rewrite Hid.
Qed.

End Reuse.


(** X28, witness: after the first run of the stub, a node with the same
    sequence identity, no frames and the labels exchanged. *)
Lemma cached_result_reused_witness :
  let n' := @Build_ParameterNode (Stub.stages false)
              (Some {| GetID := "seq"; dataNodes := [] |}) (Some tt)
              "1" "2" "Run strain analysis." "False" in
  exists r s1,
    @runStrainPipeline (Stub.stages false) (Stub.logic3 false) = (Ok r, s1) /\
    runStrainPipeline (exec (CallSetNode n') s1)
    = (Ok r, exec (CallSetNode n') s1).
Proof.
  cbv zeta.
  assert (Hok : match (@runStrainPipeline (Stub.stages false)
                         (Stub.logic3 false)).1 with
                | inl _ => false | inr _ => true end = true)
    by (vm_compute; reflexivity).
  destruct (@runStrainPipeline (Stub.stages false) (Stub.logic3 false))
    as [[e|r] s1] eqn:Hrun.
  - discriminate Hok.
  - exists r, s1. split; [reflexivity|].
    exact (proj1 (cached_result_reused (H:=Stub.stages false)
                    (Stub.logic3 false) r s1 Stub.sequence3
                    (@Build_ParameterNode (Stub.stages false)
                       (Some {| GetID := "seq"; dataNodes := [] |}) (Some tt)
                       "1" "2" "Run strain analysis." "False")
                    {| GetID := "seq"; dataNodes := [] |} 1 2
                    Hrun eq_refl eq_refl eq_refl eq_refl eq_refl)).
Defined.

Import Strain StrainFacts ListFacts Geometry.
Local Open Scope float_scope.

Lemma length_fold_zip_add (rs : list (list float)) (r : list float) n :
  length r = n -> Forall (fun row => length row = n) rs ->
  length (fold_left (zip_with PrimFloat.add) rs r) = n.
Proof.
  intros Hr Hrs. revert r Hr. induction Hrs as [|row rs Hrow _ IH]; intros r Hr.
  - done.
  - simpl. apply IH. rewrite length_zip_with. lia.
Qed.

Lemma length_mean_axis0 w (a : list (list float)) :
  Forall (fun row => length row = w) a ->
  length (Np.mean_axis0 w a) = w.
Proof.
  intros Ha. unfold Np.mean_axis0. rewrite length_map.
  destruct Ha as [|r rs Hr Hrs].
  - by rewrite length_replicate.
  - by apply length_fold_zip_add.
Qed.

(** X29: the mean over any range of rows of a matrix returned by
    [getStrain] has [len(motion) + 1] samples, and with at least one frame
    its [np.gradient] exists and has as many. *)
Theorem series_length (motion : list frame) (a : matrix) (lo n : nat) :
  a ∈ [(getStrain motion).1.1; (getStrain motion).1.2; (getStrain motion).2] ->
  let curve := Np.mean_axis0 (length (a !!! 0%nat)) (take n (drop lo a)) in
  length curve = S (length motion) /\
  (motion <> [] -> exists rate, Np.gradient curve = Some rate /\
                     length rate = S (length motion)).
Proof.
  intros Ha curve.
  assert (Hshape : length a = 18%nat /\
            Forall (fun row => length row = S (length motion)) a).
  { unfold getStrain in Ha. simpl in Ha.
    rewrite !elem_of_cons, elem_of_nil in Ha.
    destruct Ha as [->|[->|[->|[]]]]; apply postprocess_shape. }
  destruct Hshape as [Hrows Hcols].
  assert (H0 : length (a !!! 0%nat) = S (length motion)).
  { apply (Forall_lookup_total_1 _ _ _ Hcols). lia. }
  assert (Hlen : length curve = S (length motion)).
  { unfold curve. rewrite H0. apply length_mean_axis0.
    by apply Forall_take, Forall_drop. }
  split; [done|]. intros Hne.
  destruct (Np.gradient curve) as [rate|] eqn:Hg.
  - exists rate. split; [done|].
    by rewrite (SeriesFacts.length_gradient _ _ Hg).
  - exfalso. unfold Np.gradient in Hg. rewrite Hlen in Hg.
    destruct motion; [done|]. simpl in Hg. discriminate Hg.
Qed.

(** X29, witness: the radial matrix of the frames of the stub, rows 7 to
    13. *)
Lemma series_length_witness :
  let a := (getStrain (dataNodes Stub.sequence3)).1.1 in
  length (Np.mean_axis0 (length (a !!! 0%nat)) (take 7 (drop 7 a))) = 4%nat.
Proof.
  refine (proj1 (series_length (dataNodes Stub.sequence3)
                   (getStrain (dataNodes Stub.sequence3)).1.1 7 7 _)).
  apply list_elem_of_here.
Defined.

Lemma mul_comm x y : x * y = y * x.
Proof.
  apply Prim2SF_inj. rewrite !mul_spec. unfold SF64mul, SFmul.
  destruct (Prim2SF x) as [sx|sx| |sx mx ex], (Prim2SF y) as [sy|sy| |sy my ey];
    try reflexivity; try (by rewrite xorb_comm).
  by rewrite xorb_comm, Pos.mul_comm, Z.add_comm.
Qed.

Lemma SFopp_round s m e l :
  SFopp (binary_round_aux prec emax s m e l) = binary_round_aux prec emax (negb s) m e l.
Proof.
  unfold binary_round_aux.
  destruct (shr_fexp prec emax m e l) as [mrs' e'].
  destruct (shr_fexp prec emax _ e' loc_Exact) as [mrs'' e''].
  destruct (shr_m mrs'') as [|p|p]; try reflexivity.
  by destruct (e'' <=? emax - prec)%Z.
Qed.

Lemma mul_opp_l x y : (- x) * y = - (x * y).
Proof.
  apply Prim2SF_inj. rewrite opp_spec, !mul_spec, opp_spec.
  unfold SF64mul, SFmul.
  destruct (Prim2SF x) as [sx|sx| |sx mx ex], (Prim2SF y) as [sy|sy| |sy my ey];
    simpl; try reflexivity; try (by destruct sx, sy).
  rewrite SFopp_round. by destruct sx, sy.
Qed.

Lemma add_opp_diag x : Np.finite x = true -> x + (- x) = 0.
Proof.
  unfold Np.finite. intros Hx. apply Prim2SF_inj.
  rewrite add_spec, opp_spec.
  destruct (Prim2SF x) as [s|s| |s m e]; try discriminate.
  - by destruct s.
  - unfold SF64add, SFadd, SFopp.
    replace (cond_Zopp s (Z.pos (shl_align m e (e `min` e)).1)
             + cond_Zopp (negb s) (Z.pos (shl_align m e (e `min` e)).1))%Z
      with 0%Z by (destruct s; simpl; lia).
    reflexivity.
Qed.

(** X30: the circumferential and the radial axis that [getLocalCoords]
    gives to a voxel are exactly orthogonal in binary64 whenever the
    product of the two components of the radial axis is finite. *)
Theorem local_axes_orthogonal (yx : float * float) :
  Np.finite ((c_r yx).1 * (c_r yx).2) = true ->
  (c_c yx).1 * (c_r yx).1 + (c_c yx).2 * (c_r yx).2 = 0.
Proof.
  intros Hfin. unfold c_c. cbn [fst snd].
  rewrite mul_opp_l, (mul_comm (c_r yx).2 (c_r yx).1).
  by apply add_opp_diag.
Qed.

(** X30, witness: the voxel three rows and four columns from the
    centroid, and the voxel at the centroid. *)
Lemma local_axes_orthogonal_witness :
  (c_c (3, 4)).1 * (c_r (3, 4)).1 + (c_c (3, 4)).2 * (c_r (3, 4)).2 = 0 /\
  (c_c (0, 0)).1 * (c_r (0, 0)).1 + (c_c (0, 0)).2 * (c_r (0, 0)).2 = 0.
Proof.
  split.
  - apply (local_axes_orthogonal (3, 4)). reflexivity.
  - apply (local_axes_orthogonal (0, 0)). reflexivity.
Defined.

End MoreFacts.

(** ** The first and the last sample of the strain curves *)

Module EndSampleFacts.
Import Py Strain FloatFacts ListFacts StrainFacts.
Local Open Scope float_scope.

Lemma nan_not_zero : nan <> 0.
Proof. intros H. apply (f_equal Prim2SF) in H. vm_compute in H. discriminate H. Qed.

Lemma some_float_neq (x y : float) : Prim2SF x <> Prim2SF y -> Some x <> Some y.
Proof. intros Hne Heq. apply Hne. congruence. Qed.

Lemma first_sample_iff e motion j :
  (j < 18)%nat ->
  (at2 (postprocess (length motion) (accum e motion)) j 0 = Some 0
   <-> Np.finite (slopes e motion !!! j) = true) /\
  (at2 (postprocess (length motion) (accum e motion)) j 0 = Some nan
   <-> Np.finite (slopes e motion !!! j) = false).
Proof.
  intros Hj. rewrite first_sample_dir by done.
  destruct (Np.finite (slopes e motion !!! j)); split; split; try done;
    intros [= Hz]; exfalso; first [by apply nan_not_zero
                                  |symmetry in Hz; by apply nan_not_zero].
Qed.

(** C6 (as the code has it): in each of the three matrices returned by
    [getStrain], sample 0 of a row is exactly zero if and only if the slope
    of the row's ramp, its smoothed endpoint over [len(motion)], is finite,
    and it is NaN if and only if that slope is NaN or infinite. *)
Theorem first_sample_zero_iff (motion : list frame) (j : nat) :
  (j < 18)%nat ->
  Forall (fun eM : (voxel -> float) * matrix =>
            (at2 eM.2 j 0 = Some 0
             <-> Np.finite (slopes eM.1 motion !!! j) = true) /\
            (at2 eM.2 j 0 = Some nan
             <-> Np.finite (slopes eM.1 motion !!! j) = false))
    [(ier, (getStrain motion).1.1); (iec, (getStrain motion).1.2);
     (iel, (getStrain motion).2)].
Proof.
  intros Hj. unfold getStrain. cbn [fst snd].
  repeat apply Forall_cons_2; try apply Forall_nil_2; cbn [fst snd];
    by apply first_sample_iff.
Qed.

(** C10 (as the code has it): in each of the three matrices returned by
    [getStrain], the last sample of a row is [x - (x / T) * T] in binary64,
    for [x] the row's smoothed endpoint and [T = len(motion)]: zero when [x]
    is finite and [(x / T) * T] gives [x] back, NaN when [x] is NaN. *)
Theorem final_sample_residual (motion : list frame) (j : nat) :
  (j < 18)%nat ->
  let T := length motion in
  Forall (fun eM : (voxel -> float) * matrix =>
            let x := endpoints eM.1 motion !!! j in
            at2 eM.2 j T = Some (x - x / Np.of_nat T * Np.of_nat T) /\
            (Np.finite x = true -> x / Np.of_nat T * Np.of_nat T = x ->
             at2 eM.2 j T = Some 0) /\
            (x = nan -> at2 eM.2 j T = Some nan))
    [(ier, (getStrain motion).1.1); (iec, (getStrain motion).1.2);
     (iel, (getStrain motion).2)].
Proof.
  intros Hj T.
  assert (Hdir : forall e,
    let x := endpoints e motion !!! j in
    at2 (postprocess T (accum e motion)) j T
      = Some (x - x / Np.of_nat T * Np.of_nat T) /\
    (Np.finite x = true -> x / Np.of_nat T * Np.of_nat T = x ->
     at2 (postprocess T (accum e motion)) j T = Some 0) /\
    (x = nan -> at2 (postprocess T (accum e motion)) j T = Some nan)).
  { intros e x. pose proof (final_sample_dir e motion j Hj) as Hx.
    cbv zeta in Hx. fold T x in Hx. split; [exact Hx|]. split.
    - intros Hfin Hexact. rewrite Hx, Hexact. f_equal. by apply sub_diag.
    - intros Hnan. rewrite Hx, Hnan. f_equal.
      by rewrite div_nan_l, mul_nan_l, sub_nan_r. }
  unfold getStrain. cbn [fst snd]. fold T.
  repeat apply Forall_cons_2; try apply Forall_nil_2; cbn [fst snd]; apply Hdir.
Qed.

(** C6, witness: the row of segment 7 on the frames of the stub. *)
Lemma first_sample_zero_iff_witness :
  let motion := Pipeline.dataNodes Stub.sequence3 in
  at2 (getStrain motion).1.1 6 0 = Some 0 /\
  at2 (getStrain motion).1.2 6 0 = Some 0 /\
  at2 (getStrain motion).2 6 0 = Some 0.
Proof.
  cbv zeta.
  pose proof (first_sample_zero_iff (Pipeline.dataNodes Stub.sequence3) 6
                ltac:(lia)) as H.
  apply Forall_cons in H as [[Hr _] H].
  apply Forall_cons in H as [[Hc _] H].
  apply Forall_cons in H as [[Hl _] _].
  split; [|split]; [apply Hr|apply Hc|apply Hl]; vm_compute; reflexivity.
Defined.

(** C6 fails as stated: the frames of the stub have no voxel in the apical
    cap, and sample 0 of the row of segment 17 is NaN. *)
Lemma first_sample_nan :
  ~ (forall (motion : list frame) (j : nat),
       (1 <= length motion)%nat -> (j < 18)%nat ->
       at2 (getStrain motion).1.1 j 0 = Some 0 /\
       at2 (getStrain motion).1.2 j 0 = Some 0 /\
       at2 (getStrain motion).2 j 0 = Some 0).
Proof.
  intros Hclaim.
  destruct (Hclaim (Pipeline.dataNodes Stub.sequence3) 16%nat) as [Hr _].
  - simpl. lia.
  - lia.
  - assert (Hv : at2 (getStrain (Pipeline.dataNodes Stub.sequence3)).1.1 16 0
                 = Some nan) by (vm_compute; reflexivity).
    rewrite Hv in Hr. revert Hr. apply some_float_neq. vm_compute. discriminate.
Qed.

(** C10, witness: the row of segment 7 on the frames of the stub. *)
Lemma final_sample_residual_witness :
  let motion := Pipeline.dataNodes Stub.sequence3 in
  at2 (getStrain motion).1.1 6 3 = Some 0x1p-51 /\
  at2 (getStrain motion).1.2 6 3 = Some 0 /\
  at2 (getStrain motion).2 6 3 = Some 0 /\
  at2 (getStrain motion).1.1 16 3 = Some nan.
Proof.
  cbv zeta.
  pose proof (final_sample_residual (Pipeline.dataNodes Stub.sequence3) 6
                ltac:(lia)) as H.
  pose proof (final_sample_residual (Pipeline.dataNodes Stub.sequence3) 16
                ltac:(lia)) as H'.
  cbv zeta in H, H'.
  apply Forall_cons in H as [[Hr _] H].
  apply Forall_cons in H as [[_ [Hc _]] H].
  apply Forall_cons in H as [[_ [Hl _]] _].
  apply Forall_cons in H' as [[_ [_ Hn]] _].
  split; [exact Hr|]. split; [|split].
  - apply Hc; vm_compute; reflexivity.
  - apply Hl; vm_compute; reflexivity.
  - apply Hn. vm_compute. reflexivity.
Defined.

(** C10 fails as stated: on the three frames of the stub the last radial
    sample of the row of segment 7 is [2^-51]. *)
Lemma final_sample_not_zero :
  ~ (forall (motion : list frame) (j : nat),
       (1 <= length motion)%nat -> (j < 18)%nat ->
       at2 (getStrain motion).1.1 j (length motion) = Some 0 /\
       at2 (getStrain motion).1.2 j (length motion) = Some 0 /\
       at2 (getStrain motion).2 j (length motion) = Some 0).
Proof.
  intros Hclaim.
  destruct (Hclaim (Pipeline.dataNodes Stub.sequence3) 6%nat) as [Hr _].
  - simpl. lia.
  - lia.
  - assert (Hv : at2 (getStrain (Pipeline.dataNodes Stub.sequence3)).1.1 6 3
                 = Some 0x1p-51) by (vm_compute; reflexivity).
    change (length (Pipeline.dataNodes Stub.sequence3)) with 3%nat in Hr.
    rewrite Hv in Hr. revert Hr. apply some_float_neq. vm_compute. discriminate.
Qed.

End EndSampleFacts.

(** ** The bounds of the angular sectors *)

Module SectorFacts.
Import Py Geometry AHA ListFacts AHAFacts.
Local Open Scope float_scope.

Lemma holding_cons s ahaSegs lim anglesLimits ang :
  holding (s :: ahaSegs) (lim :: anglesLimits) ang
  = if holds lim ang then s :: holding ahaSegs anglesLimits ang
    else holding ahaSegs anglesLimits ang.
Proof. unfold holding. simpl. by destruct (holds lim ang). Qed.

Lemma sector_label_last ahaSegs anglesLimits ang lab :
  sector_label ahaSegs anglesLimits ang lab
  = default lab (last (holding ahaSegs anglesLimits ang)).
Proof.
  revert anglesLimits lab.
  induction ahaSegs as [|s ahaSegs IH]; intros [|[lo hi] anglesLimits] lab;
    try reflexivity.
  cbn [sector_label]. rewrite IH, holding_cons. unfold holds. cbn [fst snd].
  destruct (in_limits lo hi ang), ((lo =? 135)%Z && in_limits (-180) (-135) ang);
    cbn [orb]; try rewrite last_cons;
    by destruct (last (holding ahaSegs anglesLimits ang)).
Qed.

(** C4 (as the code has it): every sector is a closed interval, the test of
    lines 348-351 holding at both of its bounds, and the label of an angle
    is that of the last listed sector whose interval holds it, the label
    staying as it was when none does; so on a basal or mid slice -120 goes
    to segment 2 or 8, 120 to 4 or 10 and 0 to 6 or 12, and on an apical
    slice -135 goes to 14. *)
Theorem sector_bounds (ang : float) (lab : Z) :
  (forall ahaSegs anglesLimits,
     sector_label ahaSegs anglesLimits ang lab
     = default lab (last (holding ahaSegs anglesLimits ang))) /\
  Forall (fun lim : Z * Z => holds lim (Np.of_Z lim.1) = true /\
                             holds lim (Np.of_Z lim.2) = true)
    (anglesBaseMid ++ anglesAppex) /\
  map (fun a => sector_label (range 1 7) anglesBaseMid (Np.of_Z a) lab)
    [-120; 120; 0]%Z = [2; 4; 6]%Z /\
  map (fun a => sector_label (range 7 13) anglesBaseMid (Np.of_Z a) lab)
    [-120; 120; 0]%Z = [8; 10; 12]%Z /\
  sector_label (range 13 17) anglesAppex (Np.of_Z (-135)) lab = 14%Z.
Proof.
  split; [intros; apply sector_label_last|]. split.
  { repeat (apply Forall_cons_2 || apply Forall_nil_2);
      split; vm_compute; reflexivity. }
  cbn [map]. rewrite !sector_label_last.
  split; [|split]; vm_compute; reflexivity.
Qed.

(** C4 fails as stated: the angles on the shared bounds do not get the
    segments of the half-open table. *)
Lemma shared_bounds_go_to_later_sector :
  ~ (sector_label (range 1 7) anglesBaseMid (Np.of_Z (-120)) 0 = 1%Z \/
     sector_label (range 1 7) anglesBaseMid (Np.of_Z 120) 0 = 3%Z \/
     sector_label (range 1 7) anglesBaseMid (Np.of_Z 0) 0 = 5%Z \/
     sector_label (range 13 17) anglesAppex (Np.of_Z (-135)) 0 = 13%Z).
Proof. vm_compute. intros [H|[H|[H|H]]]; discriminate H. Qed.

End SectorFacts.

(** ** The tier at [zBase] and the apical cap *)

Module CapFacts.
Import Py Geometry AHA ListFacts AHAFacts.
Local Open Scope float_scope.

(** C3 at a failing input: of ten listed slices, with [zBase = 4] and
    [zMid = 7], the slice at position 4 gets an apical label while the
    slices at positions 5 and 6 get a mid label; no test of lines 340-345
    holds at [idz = zBase], whatever the boundaries are. *)
Theorem slice_at_zBase_is_apical :
  zBase 10 = Ok 4%Z /\ zMid 10 = Ok 7%Z /\
  _add16segments Examples.angle_by_column Examples.myo_ten Examples.lvCenter_ten
    (0, 0, 0) Examples.zeros_ten
  = Ok [[[2]]; [[2]]; [[2]]; [[2]]; [[13]]; [[8]]; [[8]]; [[13]]; [[13]]; [[13]]]%Z /\
  forall zB zM, slice_sectors zB zM zB = (range 13 17, anglesAppex).
Proof.
  split; [vm_compute; reflexivity|]. split; [vm_compute; reflexivity|].
  split; [vm_compute; reflexivity|].
  intros zB zM. unfold slice_sectors. by rewrite Z.ltb_irrefl.
Qed.

Section Cap.
Context (fill_holes : list (list bool) -> list (list bool)).

(** C8 (as the code has it): when [_add17segment] returns, the slices from
    the first with myocardium, included, up to the first with a cavity,
    excluded, are overwritten in full, each voxel with 17 where the first
    slice with a cavity has its cavity and with 0 elsewhere, and every
    other slice is left as it was. *)
Theorem cap_slices (myo : mask) (ahaLv out : labelmap) :
  _add17segment fill_holes myo ahaLv = Ok out ->
  exists zmin_myo zmin_endo,
    first_true (any_12 id myo) = Some zmin_myo /\
    first_true (any_12 (fun v => negb (v =? 0)%Z) (Iendo fill_holes myo))
    = Some zmin_endo /\
    forall z y x,
      get3 out (z, y, x)
      = if decide (zmin_myo <= z < zmin_endo /\ z < length ahaLv)
        then (fun v => if (0 <? v)%Z then 17%Z else 0%Z)
               <$> get3 (Iendo fill_holes myo) (zmin_endo, y, x)
        else get3 ahaLv (z, y, x).
Proof.
  unfold _add17segment. intros Hout.
  pose proof (first_true_spec
                (any_12 (fun v => negb (v =? 0)%Z) (Iendo fill_holes myo))) as Hendo.
  destruct (first_true (any_12 _ (Iendo fill_holes myo))) as [zmin_endo|];
    [|discriminate Hout].
  destruct (first_true (any_12 id myo)) as [zmin_myo|]; [|discriminate Hout].
  simpl in Hout. injection Hout as <-.
  exists zmin_myo, zmin_endo. split; [done|]. split; [done|].
  intros z y x. unfold get3. cbv delta [labelmap] in *.
  rewrite lookup_fold_insert.
  destruct Hendo as [Hendo _]. unfold any_12 in Hendo.
  rewrite lookup_map in Hendo.
  destruct (Iendo fill_holes myo !! zmin_endo) as [sl|] eqn:Hsl; [|done].
  rewrite (list_lookup_total_correct _ _ _ Hsl).
  destruct (decide (zmin_myo <= z < zmin_myo + (zmin_endo - zmin_myo)
                    /\ z < length ahaLv)) as [Hin|Hout],
    (decide (zmin_myo <= z < zmin_endo /\ z < length ahaLv)) as [Hin'|Hout'];
    try lia; [|done].
  simpl. rewrite lookup_map. destruct (sl !! y) as [row|]; [|done]. simpl.
  rewrite lookup_map. destruct (row !! x) as [v|]; [|done]. simpl.
  by destruct (0 <? v)%Z.
Qed.

End Cap.

(** C8, witness: two slices of a single voxel before the first ring. *)
Lemma cap_slices_witness :
  exists out,
    _add17segment binary_fill_holes Examples.cap_myo Examples.zeros_3x3x3 = Ok out /\
    get3 out (0, 1, 1)%nat = Some 17%Z /\ get3 out (1, 1, 1)%nat = Some 17%Z /\
    get3 out (1, 0, 0)%nat = Some 0%Z /\ get3 out (2, 1, 1)%nat = Some 0%Z.
Proof.
  destruct (_add17segment binary_fill_holes Examples.cap_myo Examples.zeros_3x3x3)
    as [e|out] eqn:Hout.
  - vm_compute in Hout. discriminate Hout.
  - exists out. split; [reflexivity|].
    destruct (cap_slices binary_fill_holes _ _ _ Hout)
      as (zmin_myo & zmin_endo & Hmyo & Hendo & Hvox).
    vm_compute in Hmyo, Hendo. injection Hmyo as <-. injection Hendo as <-.
    rewrite !Hvox. split; [|split; [|split]]; vm_compute; reflexivity.
Defined.

(** C8 fails as stated: on that mask the slice strictly inside the range
    keeps label 0 on its corner, and the first slice with myocardium, which
    is outside the strict range, gets label 17 on its middle voxel. *)
Lemma cap_not_strict_nor_full :
  ~ (forall (myo : mask) (ahaLv out : labelmap) zmin_myo zmin_endo,
       _add17segment binary_fill_holes myo ahaLv = Ok out ->
       first_true (any_12 id myo) = Some zmin_myo ->
       first_true (any_12 (fun v => negb (v =? 0)%Z)
                     (Iendo binary_fill_holes myo)) = Some zmin_endo ->
       forall z y x lab, get3 out (z, y, x) = Some lab ->
         zmin_myo < z < zmin_endo -> lab = 17%Z) /\
  ~ (forall (myo : mask) (ahaLv out : labelmap) zmin_myo zmin_endo,
       _add17segment binary_fill_holes myo ahaLv = Ok out ->
       first_true (any_12 id myo) = Some zmin_myo ->
       first_true (any_12 (fun v => negb (v =? 0)%Z)
                     (Iendo binary_fill_holes myo)) = Some zmin_endo ->
       forall z y x lab, get3 out (z, y, x) = Some lab ->
         ~ zmin_myo < z < zmin_endo ->
         get3 ahaLv (z, y, x) <> Some 17%Z -> lab <> 17%Z).
Proof.
  assert (Hout : exists out,
            _add17segment binary_fill_holes Examples.cap_myo Examples.zeros_3x3x3
            = Ok out /\
            get3 out (1, 0, 0)%nat = Some 0%Z /\
            get3 out (0, 1, 1)%nat = Some 17%Z).
  { eexists. split; [|split]; vm_compute; reflexivity. }
  destruct Hout as (out & Hout & Hcorner & Hfirst).
  split; intros Hclaim.
  - pose proof (Hclaim Examples.cap_myo Examples.zeros_3x3x3 out 0%nat 2%nat
                  Hout eq_refl eq_refl 1%nat 0%nat 0%nat 0%Z Hcorner
                  ltac:(lia)) as Hfull.
    discriminate Hfull.
  - apply (Hclaim Examples.cap_myo Examples.zeros_3x3x3 out 0%nat 2%nat
             Hout eq_refl eq_refl 0%nat 1%nat 1%nat 17%Z Hfirst).
    + lia.
    + vm_compute. discriminate.
    + reflexivity.
Qed.

End CapFacts.

(** ** The orientation without right ventricle *)

Module DefaultFacts.
Import Py Geometry ListFacts GeometryFacts.

Section Defaults.
Context (center_int : mask -> Z * Z)
        (center_of_mass : list (list bool) -> float * float).

(** C5 (as the code has it): without a voxel of the right-ventricle label
    [maxRv] is 0, on the segmentation as on its resampled array; the list of
    [_lvCenter], when it returns, is then in the order of its loop, by
    descending slice and not reversed, while the longitudinal axis of
    [getLocalCoords] is [[0, 0, -1]], the inverted one, as soon as the
    resampled array has two slices, and [[0, 0, 1]] on a single slice. *)
Theorem no_rv_orientation (segArray resampled : volume) (myoLabel rvLabel : Z)
    (by_slice : bool) :
  segArray <> [] -> resampled <> [] ->
  Forall (Forall (Forall (fun v => v <> rvLabel))) segArray ->
  Forall (Forall (Forall (fun v => v <> rvLabel))) resampled ->
  getLocalCoords_c_l resampled rvLabel
  = Ok [0%Z; 0%Z; if bool_decide (2 <= length resampled) then (-1)%Z else 1%Z] /\
  forall l,
    _lvCenter center_int center_of_mass segArray myoLabel rvLabel by_slice = Ok l ->
    let myo := _cropROI (eq_label myoLabel segArray)
                 (center_int (eq_label myoLabel segArray)) (128, 128)%Z in
    map fst l
    = rev (filter (fun z => 0 < npixels (myo !!! z)) (seq 0 (length myo))).
Proof.
  intros Hne Hne' Hno Hno'. split.
  - unfold getLocalCoords_c_l, getLocalCoords_isInverted.
    rewrite maxRv_without_rv by done. unfold res_bind. do 4 f_equal.
    destruct (Nat.ltb_spec 0 (length resampled / 2)) as [Hlt|Hge].
    + rewrite bool_decide_true; [done|].
      destruct (le_lt_dec 2 (length resampled)) as [|Hs]; [done|].
      rewrite Nat.div_small in Hlt by lia. lia.
    + rewrite bool_decide_false; [done|]. intros Hle.
      pose proof (Nat.Div0.div_le_mono 2 (length resampled) 2 Hle) as Hd.
      rewrite Nat.div_same in Hd by lia. lia.
  - intros l Hl myo. unfold _lvCenter, _lvCenter_isInverted in Hl.
    rewrite maxRv_without_rv in Hl by done. fold myo in Hl.
    unfold res_bind at 1 2 in Hl.
    replace (length segArray / 2 <? 0) with false in Hl
      by (symmetry; apply Nat.ltb_ge; lia).
    destruct (round (Np.of_nat (length myo) / 2)) as [e|mid];
      [discriminate Hl|]. simpl in Hl.
    destruct (item myo (Z.to_nat mid)) as [e|sl_mid]; [discriminate Hl|].
    simpl in Hl. injection Hl as <-.
    rewrite lvCenter_loop_spec. simpl. rewrite map_map. simpl.
    rewrite filter_rev. apply map_id.
Qed.

End Defaults.

(** C5, witness: four slices without right ventricle, myocardium in slices
    0, 1 and 3. *)
Lemma no_rv_orientation_witness :
  getLocalCoords_c_l Examples.no_rv 1 = Ok [0; 0; -1]%Z /\
  exists l,
    _lvCenter Examples.center_int Examples.center_of_mass Examples.no_rv 2 1 true
    = Ok l /\ map fst l = [3; 1; 0].
Proof.
  assert (Hno : Forall (Forall (Forall (fun v => v <> 1%Z))) Examples.no_rv)
    by (repeat (apply Forall_cons_2 || apply Forall_nil_2); discriminate).
  destruct (no_rv_orientation Examples.center_int Examples.center_of_mass
              Examples.no_rv Examples.no_rv 2 1 true
              ltac:(discriminate) ltac:(discriminate) Hno Hno) as [Hc Hl].
  split; [exact Hc|].
  destruct (_lvCenter Examples.center_int Examples.center_of_mass
              Examples.no_rv 2 1 true) as [e|l] eqn:Hlv.
  - vm_compute in Hlv. discriminate Hlv.
  - exists l. split; [reflexivity|]. exact (Hl l eq_refl).
Defined.

(** C5 fails as stated: on four slices without right ventricle the test of
    [getLocalCoords] holds. *)
Lemma no_rv_inverts_local_frame :
  ~ (forall (segArray : volume) (rvLabel : Z),
       Forall (Forall (Forall (fun v => v <> rvLabel))) segArray ->
       getLocalCoords_isInverted segArray rvLabel = Ok false /\
       _lvCenter_isInverted segArray rvLabel = Ok false).
Proof.
  intros Hclaim. destruct (Hclaim Examples.no_rv 1%Z) as [Hloc _].
  - repeat (apply Forall_cons_2 || apply Forall_nil_2); discriminate.
  - vm_compute in Hloc. discriminate Hloc.
Qed.

End DefaultFacts.

(** ** The rows of the basal zone *)

Module ZoneFacts.
Import Py Pipeline SeriesFacts.
Local Open Scope string_scope.
Local Open Scope float_scope.

(** C2 at a failing input: after a run of the stub, whose only voxel under
    strain lies in segment 7, row 6 of the radial matrix, the basal radial
    curve is not zero: it is the mean of the seven rows 0 to 6, while the
    mean of the six rows 0 to 5 is zero. *)
Theorem basal_zone_takes_row_6 :
  let s := @lifetime (Stub.stages false) [CallSetNode (Stub.node3 false); CallRun] in
  let ier := (Strain.getStrain (dataNodes Stub.sequence3)).1.1 in
  cache s !! kArt "strain" "seq"
  = Some (@VStrain (Stub.stages false) ier
            (Strain.getStrain (dataNodes Stub.sequence3)).1.2
            (Strain.getStrain (dataNodes Stub.sequence3)).2) /\
  (exists curve,
     @getStrainSeries (Stub.stages false) "Radial" "Strain" "Basal" s = (Ok curve, s) /\
     curve = Np.mean_axis0 4 (take 7 ier) /\
     curve !! 1%nat <> Some 0) /\
  Np.mean_axis0 4 (take 6 ier) = [0; 0; 0; 0].
Proof.
  cbv zeta. split; [reflexivity|]. split.
  - exists (Np.mean_axis0 4 (take 7 (Strain.getStrain (dataNodes Stub.sequence3)).1.1)).
    split; [|split; [reflexivity|]].
    + refine (series_slice (H:=Stub.stages false)
               (@lifetime (Stub.stages false) [CallSetNode (Stub.node3 false); CallRun])
               Stub.sequence3
               (Strain.getStrain (dataNodes Stub.sequence3)).1.1
               (Strain.getStrain (dataNodes Stub.sequence3)).1.2
               (Strain.getStrain (dataNodes Stub.sequence3)).2
               "Radial" (Strain.getStrain (dataNodes Stub.sequence3)).1.1
               "Basal" 0 6 _ _ _ _).
      * reflexivity.
      * reflexivity.
      * apply elem_of_cons. by left.
      * apply elem_of_cons. right. apply elem_of_cons. by left.
    + intros Hz. apply (f_equal (from_option Prim2SF S754_nan)) in Hz.
      vm_compute in Hz. discriminate Hz.
  - vm_compute. reflexivity.
Qed.

End ZoneFacts.
